(** * Mnemonic shards: share validation, format detection and recovery

    A shallow embedding of the share-handling code of the application:

    - [utils/validation.js]: [isValidShareFormat], [parseShareData],
      [validateShareCollection];
    - [components/RecoveryTabManager.js]: [parseShareContent];
    - [components/ShareManager.js] (both revisions present in the tree):
      the reconstruction tail of [recoverMnemonic] and
      [recoverMnemonicWithShares].

    JavaScript values are modelled by the type [value]; code that can throw
    lives in the error monad [result], with [try_catch] for the source's
    [try { ... } catch { ... }] blocks.  The built-ins the code calls ([atob],
    [JSON.parse], and the conversions between numbers and strings) are the
    fields of the class [Platform], so every general statement holds
    whatever they return; the module [Reference] implements them, to run
    the code on concrete inputs. *)

From Stdlib Require Import List String Ascii Bool Arith ZArith NArith QArith Lia.
From Stdlib Require Import DecimalString.
Import ListNotations.

Local Open Scope string_scope.
Local Open Scope nat_scope.
Local Open Scope list_scope.

(** ** The error monad *)

(** The exceptions the code can meet: the three the built-ins raise, and
    [Error] for [throw new Error(message)] and anything else. *)
Inductive exn : Type :=
| TypeError
| SyntaxError
| InvalidCharacterError
| Error (message : string).

Inductive result (A : Type) : Type :=
| Ok (a : A)
| Throw (e : exn).

Arguments Ok {A} a.
Arguments Throw {A} e.

Definition bind {A B : Type} (m : result A) (k : A -> result B) : result B :=
  match m with
  | Ok a => k a
  | Throw e => Throw e
  end.

(** [try { body } catch (e) { handler e }] *)
Definition try_catch {A : Type} (body : result A) (handler : exn -> result A)
  : result A :=
  match body with
  | Ok a => Ok a
  | Throw e => handler e
  end.

Declare Scope js_scope.
Delimit Scope js_scope with js.
Notation "x <- m ;; k" := (bind m (fun x => k))
  (at level 61, m at next level, right associativity) : js_scope.
Local Open Scope js_scope.

Definition returns {A : Type} (m : result A) : Prop := exists a, m = Ok a.

(** ** JavaScript values *)

(** Numbers: the finite ones as rationals (every finite double is one), and
    the three non-finite ones.  The two zeros are not told apart; nothing
    below could. *)
Inductive number : Type :=
| NaN
| Finite (q : Q)
| PosInfinity
| NegInfinity.

(** A value is a primitive, an object of plain data or an array of such
    values: what [JSON.parse] builds, and [undefined].  An object is known
    by its identity [id] and its own properties, an array by its identity
    and its elements. *)
#[warnings="-register-all"] Inductive value : Type :=
| VUndefined
| VNull
| VBool (b : bool)
| VNumber (n : number)
| VString (s : string)
| VObject (id : positive) (props : list (string * value))
| VArray (id : positive) (elements : list value).

Definition of_nat (n : nat) : number := Finite (inject_Z (Z.of_nat n)).

(** ToBoolean *)
Definition truthy (v : value) : bool :=
  match v with
  | VUndefined | VNull => false
  | VBool b => b
  | VNumber NaN => false
  | VNumber (Finite q) => negb (Qeq_bool q 0)
  | VNumber _ => true
  | VString s => negb (s =? "")%string
  | VObject _ _ | VArray _ _ => true
  end.

Definition is_undefined (v : value) : bool :=
  match v with VUndefined => true | _ => false end.

Definition is_null (v : value) : bool :=
  match v with VNull => true | _ => false end.

(** [typeof v === 'object'] (true of [null] as well) *)
Definition typeof_object (v : value) : bool :=
  match v with VNull | VObject _ _ | VArray _ _ => true | _ => false end.

(** [typeof v === 'string'] *)
Definition typeof_string (v : value) : bool :=
  match v with VString _ => true | _ => false end.

Fixpoint lookup (key : string) (props : list (string * value)) : value :=
  match props with
  | [] => VUndefined
  | (k, v) :: rest => if (key =? k)%string then v else lookup key rest
  end.

(** [base.key], for the share properties the code reads ([threshold],
    [index], [data], [encrypted], [content]): a [TypeError] on [undefined]
    and [null], [undefined] on the other primitives and on arrays, which
    have no such property. *)
Definition get (base : value) (key : string) : result value :=
  match base with
  | VUndefined | VNull => Throw TypeError
  | VObject _ props => Ok (lookup key props)
  | _ => Ok VUndefined
  end.

Definition number_same (x y : number) : bool :=
  match x, y with
  | NaN, NaN => true
  | Finite p, Finite q => Qeq_bool p q
  | PosInfinity, PosInfinity => true
  | NegInfinity, NegInfinity => true
  | _, _ => false
  end.

(** SameValueZero, the equality of [Set]: objects by identity. *)
Definition SameValueZero (a b : value) : bool :=
  match a, b with
  | VUndefined, VUndefined => true
  | VNull, VNull => true
  | VBool x, VBool y => Bool.eqb x y
  | VNumber x, VNumber y => number_same x y
  | VString x, VString y => (x =? y)%string
  | VObject i _, VObject j _ => Pos.eqb i j
  | VArray i _, VArray j _ => Pos.eqb i j
  | _, _ => false
  end.

(** A [Set] keeps its elements in insertion order. *)
Definition Set_has (s : list value) (v : value) : bool :=
  existsb (SameValueZero v) s.

Definition Set_add (s : list value) (v : value) : list value :=
  if Set_has s v then s else s ++ [v].

(** The comparison of two numbers: [None] when either is [NaN]. *)
Definition number_lt (x y : number) : option bool :=
  match x, y with
  | NaN, _ | _, NaN => None
  | Finite p, Finite q => Some (negb (Qle_bool q p))
  | Finite _, PosInfinity => Some true
  | Finite _, NegInfinity => Some false
  | PosInfinity, _ => Some false
  | NegInfinity, NegInfinity => Some false
  | NegInfinity, _ => Some true
  end.

(** [x < y] *)
Definition js_lt (x y : number) : bool :=
  match number_lt x y with Some b => b | None => false end.

(** [x >= y] *)
Definition js_ge (x y : number) : bool :=
  match number_lt x y with Some b => negb b | None => false end.

(** ** Strings *)

(** A string is its sequence of code units; the model has the code units
    below 256.  White space and line terminators in that range: *)
Definition is_space (c : ascii) : bool :=
  let n := nat_of_ascii c in
  ((9 <=? n) && (n <=? 13)) || (n =? 32) || (n =? 160).

Fixpoint trimStart (s : string) : string :=
  match s with
  | EmptyString => EmptyString
  | String c rest => if is_space c then trimStart rest else s
  end.

Fixpoint trimEnd (s : string) : string :=
  match s with
  | EmptyString => EmptyString
  | String c rest =>
      match trimEnd rest with
      | EmptyString => if is_space c then EmptyString else String c EmptyString
      | kept => String c kept
      end
  end.

Definition trim (s : string) : string := trimEnd (trimStart s).

Definition LF : ascii := ascii_of_nat 10.

(** [s.split('\n')] *)
Fixpoint split_lines (s : string) : list string :=
  match s with
  | EmptyString => [EmptyString]
  | String c rest =>
      if Ascii.eqb c LF then EmptyString :: split_lines rest
      else match split_lines rest with
           | [] => [String c EmptyString]
           | line :: lines => String c line :: lines
           end
  end.

(** [s.startsWith(p)] *)
Definition startsWith (s p : string) : bool := prefix p s.

(** ** The built-ins *)

(** [JSON_parse] is a function: parsing one text twice gives objects of the
    same identities.  Only a [Set] of share indices compares identities. *)
Class Platform : Type := {
  (** [atob(s)]: [InvalidCharacterError] on what is not base64 *)
  atob : string -> result string;
  (** [JSON.parse(s)]: [SyntaxError] on what is not JSON *)
  JSON_parse : string -> result value;
  (** ToNumber on a string *)
  StringToNumber : string -> number;
  (** ToString on a number *)
  NumberToString : number -> string
}.

(** ** Coercions *)

(** An own property named [key], whatever its value. *)
Definition has_own (key : string) (props : list (string * value)) : bool :=
  existsb (fun kv => (key =? fst kv)%string) props.

Section Coercions.
Context {P : Platform}.

(** ToString.  An object is converted by ToPrimitive, which calls its
    [toString] and its [valueOf] when they are callable.  No property of an
    object of plain data is callable: with an own [toString] nothing
    converts the object and ToPrimitive throws a [TypeError]; without one
    [Object.prototype.toString] gives ["[object Object]"].  An array goes
    through [join]: [undefined] and [null] elements are empty, the others
    are converted in turn. *)
Fixpoint ToString (v : value) : result string :=
  match v with
  | VUndefined => Ok "undefined"
  | VNull => Ok "null"
  | VBool b => Ok (if b then "true" else "false")
  | VNumber n => Ok (NumberToString n)
  | VString s => Ok s
  | VObject _ props =>
      if has_own "toString" props then Throw TypeError
      else Ok "[object Object]"
  | VArray _ elements =>
      (fix join (l : list value) : result string :=
         match l with
         | [] => Ok ""
         | x :: rest =>
             s <- match x with
                  | VUndefined | VNull => Ok ""
                  | _ => ToString x
                  end ;;
             match rest with
             | [] => Ok s
             | _ :: _ => r <- join rest ;; Ok (s ++ "," ++ r)%string
             end
         end) elements
  end.

(** ToNumber; an object or an array through the string ToPrimitive gives. *)
Definition ToNumber (v : value) : result number :=
  match v with
  | VUndefined => Ok NaN
  | VNull => Ok (Finite 0)
  | VBool b => Ok (if b then Finite 1 else Finite 0)
  | VNumber n => Ok n
  | VString s => Ok (StringToNumber s)
  | VObject _ _ | VArray _ _ =>
      s <- ToString v ;;
      Ok (StringToNumber s)
  end.

(** [n < v], for a count [n] *)
Definition less_than (n : nat) (v : value) : result bool :=
  x <- ToNumber v ;;
  Ok (js_lt (of_nat n) x).

(** [n >= v], for a count [n] *)
Definition at_least (n : nat) (v : value) : result bool :=
  x <- ToNumber v ;;
  Ok (js_ge (of_nat n) x).

(** [v.trim()] *)
Definition method_trim (v : value) : result string :=
  match v with
  | VString s => Ok (trim s)
  | _ => Throw TypeError
  end.

End Coercions.

(** ** utils/validation.js *)

(** The messages [validateShareCollection] pushes on [errors]:
    - [InvalidShardFormat n]: [`Line ${n}: Invalid shard format`];
    - [NoValidShards]: ['No valid shards detected.'];
    - [ShardsRequired t n]:
      [`At least ${t} shards are required — only ${n} provided.`];
    - [DuplicateIndices]: ['Duplicate shard indices detected.']. *)
Inductive message : Type :=
| InvalidShardFormat (line : nat)
| NoValidShards
| ShardsRequired (threshold : value) (validCount : nat)
| DuplicateIndices.

(** The record [validateShareCollection] returns. *)
Record validation : Type := mkValidation {
  isValid : bool;
  validCount : nat;
  threshold : value;
  errors : list message;
  shareIndices : list value
}.

(** The variables the [forEach] of [validateShareCollection] updates. *)
Record collected : Type := mkCollected {
  c_errors : list message;
  c_validCount : nat;
  c_shareIndices : list value;
  c_thresholdCandidates : list value;
  c_validShareData : list value
}.

Definition nothing_collected : collected :=
  mkCollected [] 0 [] [] [].

(** [thresholdCounts]: an object used as a map from property keys to
    counts; [counts[k] || 0] reads an absent key as 0.  (The keys that
    [Object.prototype] defines are not set apart: the code that uses the map
    is shown below never to run.) *)
Fixpoint count_of (key : string) (counts : list (string * nat)) : nat :=
  match counts with
  | [] => 0
  | (k, n) :: rest => if (key =? k)%string then n else count_of key rest
  end.

Fixpoint count_set (key : string) (n : nat) (counts : list (string * nat))
  : list (string * nat) :=
  match counts with
  | [] => [(key, n)]
  | (k, m) :: rest =>
      if (key =? k)%string then (k, n) :: rest
      else (k, m) :: count_set key n rest
  end.

Section Validation.
Context {P : Platform}.

(** [shareData.threshold && shareData.index && shareData.data], as a
    boolean *)
Definition hasRequiredFields (shareData : value) : result bool :=
  t <- get shareData "threshold" ;;
  if truthy t then
    i <- get shareData "index" ;;
    if truthy i then
      d <- get shareData "data" ;;
      Ok (truthy d)
    else Ok false
  else Ok false.

Definition isValidShareFormat (shareString : value) : result bool :=
  if negb (truthy shareString) || negb (typeof_string shareString)
  then Ok false
  else
    try_catch
      (trimmed <- method_trim shareString ;;
       decoded <- atob trimmed ;;
       shareData <- JSON_parse decoded ;;
       hasRequiredFields shareData)
      (fun _ => Ok false).

(** Returns the parsed share, or [null]. *)
Definition parseShareData (shareString : value) : result value :=
  valid <- isValidShareFormat shareString ;;
  if negb valid then Ok VNull
  else
    try_catch
      (trimmed <- method_trim shareString ;;
       decoded <- atob trimmed ;;
       parsed <- JSON_parse decoded ;;
       Ok parsed)
      (fun _ => Ok VNull).

(** [shareData && shareData.threshold && shareData.index !== undefined
    && shareData.data], as a boolean *)
Definition accepted (shareData : value) : result bool :=
  if truthy shareData then
    t <- get shareData "threshold" ;;
    if truthy t then
      i <- get shareData "index" ;;
      if negb (is_undefined i) then
        d <- get shareData "data" ;;
        Ok (truthy d)
      else Ok false
    else Ok false
  else Ok false.

(** The object itself, or what [parseShareData] makes of the rest. *)
Definition shareDataOf (shareStr : value) : result value :=
  if typeof_object shareStr && negb (is_null shareStr) then Ok shareStr
  else parseShareData shareStr.

(** The callback of [shareStrings.forEach]. *)
Definition visit (st : collected) (index : nat) (shareStr : value)
  : result collected :=
  shareData <- shareDataOf shareStr ;;
  ok <- accepted shareData ;;
  if ok then
    t <- get shareData "threshold" ;;
    i <- get shareData "index" ;;
    Ok {| c_errors := c_errors st;
          c_validCount := S (c_validCount st);
          c_shareIndices := Set_add (c_shareIndices st) i;
          c_thresholdCandidates :=
            (if truthy t then Set_add (c_thresholdCandidates st) t
             else c_thresholdCandidates st);
          c_validShareData := c_validShareData st ++ [shareData] |}
  else
    Ok {| c_errors := c_errors st ++ [InvalidShardFormat (index + 1)];
          c_validCount := c_validCount st;
          c_shareIndices := c_shareIndices st;
          c_thresholdCandidates := c_thresholdCandidates st;
          c_validShareData := c_validShareData st |}.

Fixpoint forEach (st : collected) (index : nat) (shareStrings : list value)
  : result collected :=
  match shareStrings with
  | [] => Ok st
  | shareStr :: rest =>
      st' <- visit st index shareStr ;;
      forEach st' (S index) rest
  end.

(** The first [thresholdCandidates.forEach]: one more under the property
    key of each candidate. *)
Fixpoint countCandidates (candidates : list value)
  (thresholdCounts : list (string * nat)) : result (list (string * nat)) :=
  match candidates with
  | [] => Ok thresholdCounts
  | t :: rest =>
      key <- ToString t ;;
      countCandidates rest
        (count_set key (count_of key thresholdCounts + 1) thresholdCounts)
  end.

(** The second one, on [maxCount] and [threshold]. *)
Fixpoint mostFrequent (candidates : list value)
  (thresholdCounts : list (string * nat)) (maxCount : nat) (threshold : value)
  : result value :=
  match candidates with
  | [] => Ok threshold
  | t :: rest =>
      key <- ToString t ;;
      let n := count_of key thresholdCounts in
      if maxCount <? n then mostFrequent rest thresholdCounts n t
      else mostFrequent rest thresholdCounts maxCount threshold
  end.

(** The two [else] branches of "Determine the final threshold"; [threshold]
    is 0 when they are entered. *)
Definition fallbackThreshold (candidates : list value) : result value :=
  if 0 <? List.length candidates then
    thresholdCounts <- countCandidates candidates [] ;;
    mostFrequent candidates thresholdCounts 0 (VNumber (Finite 0))
  else Ok (VNumber (Finite 3)).

(** "Determine the final threshold": the guard is
    [validShareData.length > 0 && validShareData[0].threshold]. *)
Definition finalThreshold (validShareData candidates : list value)
  : result value :=
  match validShareData with
  | first :: _ =>
      t <- get first "threshold" ;;
      if truthy t then get first "threshold"
      else fallbackThreshold candidates
  | [] => fallbackThreshold candidates
  end.

(** From "Check if there are enough valid shards" to the [return]. *)
Definition finish (st : collected) (threshold : value) : result validation :=
  let validCount := c_validCount st in
  errors1 <-
    (if validCount =? 0 then Ok (c_errors st ++ [NoValidShards])
     else
       below <- less_than validCount threshold ;;
       if below then Ok (c_errors st ++ [ShardsRequired threshold validCount])
       else Ok (c_errors st)) ;;
  let errors2 :=
    if negb (List.length (c_shareIndices st) =? validCount)
    then errors1 ++ [DuplicateIndices]
    else errors1 in
  valid <-
    (if List.length errors2 =? 0 then at_least validCount threshold
     else Ok false) ;;
  Ok {| isValid := valid;
        validCount := validCount;
        threshold := threshold;
        errors := errors2;
        shareIndices := c_shareIndices st |}.

Definition validateShareCollection (shareStrings : list value)
  : result validation :=
  st <- forEach nothing_collected 0 shareStrings ;;
  threshold <- finalThreshold (c_validShareData st) (c_thresholdCandidates st) ;;
  finish st threshold.

End Validation.

(** ** Objects the code builds *)

(** The identity of an object literal is never compared by the code below;
    every literal gets this one. *)
Definition literal_id : positive := 1%positive.

(** [{ encrypted: true, content: content }] *)
Definition encryptedBlob (content : value) : value :=
  VObject literal_id [("encrypted", VBool true); ("content", content)].

Definition MARKER : string := "-----BEGIN PGP MESSAGE-----".

(** ** components/RecoveryTabManager.js *)

(** What a [try] block inside a function does: it returns from the
    function, or it falls through to the code after it. *)
Inductive completion (A : Type) : Type :=
| Return (a : A)
| FallThrough.

Arguments Return {A} a.
Arguments FallThrough {A}.

Section RecoveryTabManager.
Context {P : Platform}.

(** [shareData.threshold && shareData.index !== undefined &&
    shareData.data], as a boolean *)
Definition isShare (shareData : value) : result bool :=
  t <- get shareData "threshold" ;;
  if truthy t then
    i <- get shareData "index" ;;
    if negb (is_undefined i) then
      d <- get shareData "data" ;;
      Ok (truthy d)
    else Ok false
  else Ok false.

(** The body both [try] blocks share: the armor test, then the decode. *)
Definition armorOrShare (text : string) : result (completion value) :=
  if startsWith text MARKER then Ok (Return (encryptedBlob (VString text)))
  else
    decoded <- atob text ;;
    shareData <- JSON_parse decoded ;;
    ok <- isShare shareData ;;
    if ok then Ok (Return shareData) else Ok FallThrough.

(** "Try single-line share first" *)
Definition trySingleLine (content : string) : result (completion value) :=
  try_catch (armorOrShare (trim content)) (fun _ => Ok FallThrough).

(** [content.split('\n').map(line => line.trim()).filter(line =>
    line.length > 0)] *)
Definition nonEmptyLines (content : string) : list string :=
  filter (fun line => 0 <? String.length line)
    (map trim (split_lines content)).

(** [for (const line of lines) { try { ... } catch (e) { } }] *)
Fixpoint tryLines (lines : list string) : result (completion value) :=
  match lines with
  | [] => Ok FallThrough
  | line :: rest =>
      c <- try_catch (armorOrShare line) (fun _ => Ok FallThrough) ;;
      match c with
      | Return v => Ok (Return v)
      | FallThrough => tryLines rest
      end
  end.

Definition parseShareContent (content : string) : result value :=
  try_catch
    (c <- trySingleLine content ;;
     match c with
     | Return v => Ok v
     | FallThrough =>
         c' <- tryLines (nonEmptyLines content) ;;
         match c' with
         | Return v => Ok v
         | FallThrough => Ok (encryptedBlob (VString (trim content)))
         end
     end)
    (fun _ => Ok (encryptedBlob (VString (trim content)))).

End RecoveryTabManager.

(** ** components/ShareManager.js *)

(** What [combine] is called with: an array of strings, or an array of
    [Uint8Array]. *)
Inductive shares_arg : Type :=
| StringShares (shares : list string)
| ByteShares (shares : list (list Byte.byte)).

(** What [combine] resolves to: a [Uint8Array], or something else. *)
Inductive combined : Type :=
| CombinedBytes (bytes : list Byte.byte)
| CombinedOther (v : value).

(** Code that calls [combine]: the error monad, with the log of the calls
    made so far. *)
Definition traced (A : Type) : Type :=
  list shares_arg -> list shares_arg * result A.

Definition tret {A : Type} (a : A) : traced A := fun log => (log, Ok a).

Definition tthrow {A : Type} (e : exn) : traced A := fun log => (log, Throw e).

Definition tlift {A : Type} (m : result A) : traced A := fun log => (log, m).

Definition tbind {A B : Type} (m : traced A) (k : A -> traced B) : traced B :=
  fun log =>
    match m log with
    | (log', Ok a) => k a log'
    | (log', Throw e) => (log', Throw e)
    end.

Definition tcatch {A : Type} (body : traced A) (handler : exn -> traced A)
  : traced A :=
  fun log =>
    match body log with
    | (log', Ok a) => (log', Ok a)
    | (log', Throw e) => handler e log'
    end.

Declare Scope traced_scope.
Delimit Scope traced_scope with traced.
Notation "x <- m ;; k" := (tbind m (fun x => k))
  (at level 61, m at next level, right associativity) : traced_scope.

(** The calls made and the outcome, from an empty log. *)
Definition calls {A : Type} (m : traced A) : list shares_arg := fst (m []).
Definition outcome {A : Type} (m : traced A) : result A := snd (m []).

(** [for (i...) bytes[i] = bin.charCodeAt(i)]: the code units are below 256,
    so no element wraps. *)
Definition toBytes (bin : string) : list Byte.byte :=
  map byte_of_ascii (list_ascii_of_string bin).

Fixpoint mapM {A B : Type} (f : A -> result B) (l : list A) : result (list B) :=
  match l with
  | [] => Ok []
  | a :: rest =>
      b <- f a ;;
      bs <- mapM f rest ;;
      Ok (b :: bs)
  end.

Section ShareManager.
Context {P : Platform}.
Variable combine : shares_arg -> result combined.

(** ToIntegerOrInfinity, then the clamping [slice] applies to its [end]
    on an array of length [len]. *)
Definition slice_end (len : nat) (e : value) : result nat :=
  match e with
  | VUndefined => Ok len
  | _ =>
      x <- ToNumber e ;;
      match x with
      | NaN => Ok 0
      | PosInfinity => Ok len
      | NegInfinity => Ok 0
      | Finite q =>
          let k := Z.quot (Qnum q) (Zpos (Qden q)) in
          if (k <? 0)%Z then Ok (Z.to_nat (Z.max (Z.of_nat len + k) 0))
          else Ok (Nat.min (Z.to_nat k) len)
      end
  end.

(** [array.slice(0, e)] *)
Definition slice0 {A : Type} (array : list A) (e : value) : result (list A) :=
  final <- slice_end (List.length array) e ;;
  Ok (firstn final array).

(** [atob(data.data)]; [atob] takes the string of its argument. *)
Definition payloadString (data : value) : result string :=
  d <- get data "data" ;;
  s <- ToString d ;;
  atob s.

Definition call_combine (arg : shares_arg) : traced combined :=
  fun log => (log ++ [arg], combine arg).

(** [validShareData[0]] *)
Definition first_of (validShareData : list value) : value :=
  match validShareData with
  | [] => VUndefined
  | first :: _ => first
  end.

(** The checks before the payloads are taken: the thrown messages are the
    keys of the translation table. *)
Definition thresholdOf (validShareData : list value) : result value :=
  if List.length validShareData =? 0 then Throw (Error "errors.noValidShares")
  else
    threshold <- get (first_of validShareData) "threshold" ;;
    below <- less_than (List.length validShareData) threshold ;;
    if below then Throw (Error "errors.insufficientShares")
    else Ok threshold.

(** [validShareData.slice(0, threshold).map(data => atob(data.data))] *)
Definition payloadStrings (validShareData : list value) (threshold : value)
  : result (list string) :=
  taken <- slice0 validShareData threshold ;;
  mapM payloadString taken.

End ShareManager.

(** The revision that calls [combine] with byte arrays only. *)
Module ShareManager.
Section Reconstruct.
Context {P : Platform}.
Variable combine : shares_arg -> result combined.

(** The body of the classifying loop of [recoverMnemonicWithShares], on
    [isEncrypted] and [validShareData]; the [match] is the test
    [typeof share === 'string']. *)
Definition classifyShare (st : bool * list value) (share : value)
  : result (bool * list value) :=
  let (isEncrypted, validShareData) := st in
  e <- get share "encrypted" ;;
  if truthy e then Ok (true, validShareData ++ [share])
  else
    try_catch
      (match share with
       | VString text =>
           if startsWith text MARKER
           then Ok (true, validShareData ++ [encryptedBlob share])
           else
             decoded <- atob text ;;
             shareData <- JSON_parse decoded ;;
             ok <- hasRequiredFields shareData ;;
             if ok then Ok (isEncrypted, validShareData ++ [shareData])
             else Ok (isEncrypted, validShareData)
       | _ =>
           ok <- hasRequiredFields share ;;
           if ok then Ok (isEncrypted, validShareData ++ [share])
           else Ok (isEncrypted, validShareData)
       end)
      (fun _ => Ok (true, validShareData ++ [encryptedBlob share])).

(** The tail of [recoverMnemonic] and of [recoverMnemonicWithShares], from
    the emptiness check to the [await combine(...)]. *)
Definition reconstruct (validShareData : list value) : traced combined :=
  (threshold <- tlift (thresholdOf validShareData) ;;
   binaryStrings <- tlift (payloadStrings validShareData threshold) ;;
   call_combine combine (ByteShares (map toBytes binaryStrings)))%traced.

End Reconstruct.
End ShareManager.

(** The revision that prefers string shares and falls back to bytes. *)
Module ShareManagerStringFirst.
Section Reconstruct.
Context {P : Platform}.
Variable combine : shares_arg -> result combined.

(** [share?.encrypted] *)
Definition get_encrypted (share : value) : result value :=
  match share with
  | VUndefined | VNull => Ok VUndefined
  | _ => get share "encrypted"
  end.

(** The body of the classifying loop of [recoverMnemonicWithShares], on
    [maybeEncrypted] and [validShareData]; the [match] is the test
    [typeof share === 'string']. *)
Definition classifyShare (st : bool * list value) (share : value)
  : result (bool * list value) :=
  let (maybeEncrypted, validShareData) := st in
  e <- get_encrypted share ;;
  if truthy e then Ok (true, validShareData ++ [share])
  else
    try_catch
      (match share with
       | VString text =>
           if startsWith text MARKER
           then Ok (true, validShareData ++ [encryptedBlob share])
           else
             decoded <- atob text ;;
             obj <- JSON_parse decoded ;;
             ok <- hasRequiredFields obj ;;
             if ok then Ok (maybeEncrypted, validShareData ++ [obj])
             else Ok (maybeEncrypted, validShareData)
       | _ =>
           ok <- hasRequiredFields share ;;
           if ok then Ok (maybeEncrypted, validShareData ++ [share])
           else Ok (maybeEncrypted, validShareData)
       end)
      (fun _ => Ok (true, validShareData ++ [encryptedBlob share])).

(** The body of the collecting loop of [recoverMnemonic]: here the decode
    comes first and the armor test sits in the [catch]. *)
Definition collectLine (st : bool * list value) (shareStr : string)
  : result (bool * list value) :=
  let (maybeEncrypted, validShareData) := st in
  try_catch
    (decoded <- atob shareStr ;;
     obj <- JSON_parse decoded ;;
     ok <- hasRequiredFields obj ;;
     if ok then Ok (maybeEncrypted, validShareData ++ [obj])
     else Ok (maybeEncrypted, validShareData))
    (fun _ =>
       if startsWith shareStr MARKER
       then Ok (true, validShareData ++ [encryptedBlob (VString shareStr)])
       else Ok (true, validShareData)).

(** "Prefer passing string shares; fallback to bytes if needed" *)
Definition combineStringsThenBytes (sharePayloadStrings : list string)
  : traced combined :=
  tcatch
    (call_combine combine (StringShares sharePayloadStrings))
    (fun _ =>
       call_combine combine (ByteShares (map toBytes sharePayloadStrings))).

(** The tail of [recoverMnemonic] and of [recoverMnemonicWithShares], from
    the emptiness check to the value of [combined]. *)
Definition reconstruct (validShareData : list value) : traced combined :=
  (threshold <- tlift (thresholdOf validShareData) ;;
   sharePayloadStrings <- tlift (payloadStrings validShareData threshold) ;;
   combineStringsThenBytes sharePayloadStrings)%traced.

End Reconstruct.
End ShareManagerStringFirst.

(** ** A platform to run the code on

    [atob] is the forgiving-base64 decode of the HTML standard.  [JSON.parse]
    reads the JSON grammar; a number is read exactly (no rounding to double
    precision), an escape above [ÿ] is outside the strings of the model
    and refused, and the objects and arrays of one parse are numbered from 2
    in the order they open.  [StringToNumber] reads the numeric literals of
    the language.  [NumberToString] prints integers in decimal and other
    finite numbers by their decimal expansion, cut after 20 places. *)
Module Reference.

Definition code (c : ascii) : nat := nat_of_ascii c.

(** *** atob *)

Definition is_ascii_whitespace (c : ascii) : bool :=
  let n := code c in
  (n =? 9) || (n =? 10) || (n =? 12) || (n =? 13) || (n =? 32).

Definition sextet (c : ascii) : option N :=
  let n := N_of_ascii c in
  (if (65 <=? n) && (n <=? 90) then Some (n - 65)
   else if (97 <=? n) && (n <=? 122) then Some (n - 71)
   else if (48 <=? n) && (n <=? 57) then Some (n + 4)
   else if n =? 43 then Some 62
   else if n =? 47 then Some 63
   else None)%N.

Fixpoint sextets (cs : list ascii) : option (list N) :=
  match cs with
  | [] => Some []
  | c :: rest =>
      match sextet c, sextets rest with
      | Some n, Some ns => Some (n :: ns)
      | _, _ => None
      end
  end.

Definition is_equals (c : ascii) : bool := code c =? 61.

(** Drops one or two [=] from the end. *)
Definition strip_padding (cs : list ascii) : list ascii :=
  match rev cs with
  | a :: b :: rest =>
      if is_equals a then
        if is_equals b then rev rest else rev (b :: rest)
      else cs
  | [a] => if is_equals a then [] else cs
  | [] => cs
  end.

(** Four sextets make three octets; of a last group of three or two, the
    low two or four bits are dropped. *)
Fixpoint octets (ns : list N) : list N :=
  match ns with
  | a :: b :: c :: d :: rest =>
      let n := (a * 262144 + b * 4096 + c * 64 + d)%N in
      (n / 65536)%N :: ((n / 256) mod 256)%N :: (n mod 256)%N :: octets rest
  | [a; b; c] =>
      let n := ((a * 4096 + b * 64 + c) / 4)%N in
      [(n / 256)%N; (n mod 256)%N]
  | [a; b] => [((a * 64 + b) / 16)%N]
  | _ => []
  end.

Definition atob (data : string) : result string :=
  let cs := filter (fun c => negb (is_ascii_whitespace c))
              (list_ascii_of_string data) in
  let cs := if List.length cs mod 4 =? 0 then strip_padding cs else cs in
  if List.length cs mod 4 =? 1 then Throw InvalidCharacterError
  else
    match sextets cs with
    | None => Throw InvalidCharacterError
    | Some ns => Ok (string_of_list_ascii (map ascii_of_N (octets ns)))
    end.

(** *** JSON.parse *)

Definition is_json_whitespace (c : ascii) : bool :=
  let n := code c in
  (n =? 32) || (n =? 9) || (n =? 10) || (n =? 13).

Fixpoint skip_ws (cs : list ascii) : list ascii :=
  match cs with
  | [] => []
  | c :: rest => if is_json_whitespace c then skip_ws rest else cs
  end.

Definition digit (c : ascii) : option Z :=
  let n := code c in
  if (48 <=? n) && (n <=? 57) then Some (Z.of_nat (n - 48)) else None.

Definition hex_digit (c : ascii) : option nat :=
  let n := code c in
  if (48 <=? n) && (n <=? 57) then Some (n - 48)
  else if (65 <=? n) && (n <=? 70) then Some (n - 55)
  else if (97 <=? n) && (n <=? 102) then Some (n - 87)
  else None.

(** The digits at the head of [cs]: their value after [acc], how many
    there were, and what follows. *)
Fixpoint read_digits (cs : list ascii) (acc : Z) (count : nat)
  : Z * nat * list ascii :=
  match cs with
  | [] => (acc, count, [])
  | c :: rest =>
      match digit c with
      | Some d => read_digits rest (acc * 10 + d)%Z (S count)
      | None => (acc, count, cs)
      end
  end.

(** [m * 10^k] *)
Definition scale (m k : Z) : Q :=
  Qred (inject_Z m * Qpower (inject_Z 10) k).

(** The fraction and the exponent after a mantissa [m] read so far. *)
Definition read_exponent (m : Z) (places : nat) (cs : list ascii)
  : option (Q * list ascii) :=
  match cs with
  | c :: rest =>
      if (code c =? 101) || (code c =? 69) then
        let '(negative, rest1) :=
          match rest with
          | s :: rest' =>
              if code s =? 45 then (true, rest')
              else if code s =? 43 then (false, rest')
              else (false, rest)
          | [] => (false, rest)
          end in
        match read_digits rest1 0%Z 0 with
        | (_, 0, _) => None
        | (e, _, rest2) =>
            Some (scale m ((if negative then - e else e) - Z.of_nat places)%Z,
                  rest2)
        end
      else Some (scale m (- Z.of_nat places)%Z, cs)
  | [] => Some (scale m (- Z.of_nat places)%Z, [])
  end.

Definition read_fraction (int : Z) (cs : list ascii)
  : option (Q * list ascii) :=
  match cs with
  | c :: rest =>
      if code c =? 46 then
        match read_digits rest int 0 with
        | (_, 0, _) => None
        | (m, places, rest1) => read_exponent m places rest1
        end
      else read_exponent int 0 cs
  | [] => read_exponent int 0 cs
  end.

(** A JSON number: [-]? then [0] or a digit sequence not starting with
    [0], then the fraction and the exponent. *)
Definition parse_number (cs : list ascii) : option (Q * list ascii) :=
  let '(negative, cs1) :=
    match cs with
    | c :: rest => if code c =? 45 then (true, rest) else (false, cs)
    | [] => (false, cs)
    end in
  let unsigned :=
    match cs1 with
    | c :: rest =>
        if code c =? 48 then read_fraction 0%Z rest
        else
          match read_digits cs1 0%Z 0 with
          | (_, 0, _) => None
          | (int, _, rest1) => read_fraction int rest1
          end
    | [] => None
    end in
  match unsigned with
  | Some (q, rest) => Some (if negative then Qred (- q) else q, rest)
  | None => None
  end.

(** The characters of a string after its opening quote, up to the closing
    one. *)
Fixpoint parse_string (cs : list ascii) (acc : list ascii)
  : option (string * list ascii) :=
  match cs with
  | [] => None
  | c :: rest =>
      let n := code c in
      if n =? 34 then Some (string_of_list_ascii (rev acc), rest)
      else if n =? 92 then
        match rest with
        | e :: rest1 =>
            let m := code e in
            if (m =? 34) || (m =? 92) || (m =? 47)
            then parse_string rest1 (e :: acc)
            else if m =? 98 then parse_string rest1 (ascii_of_nat 8 :: acc)
            else if m =? 102 then parse_string rest1 (ascii_of_nat 12 :: acc)
            else if m =? 110 then parse_string rest1 (ascii_of_nat 10 :: acc)
            else if m =? 114 then parse_string rest1 (ascii_of_nat 13 :: acc)
            else if m =? 116 then parse_string rest1 (ascii_of_nat 9 :: acc)
            else if m =? 117 then
              match rest1 with
              | h1 :: h2 :: h3 :: h4 :: rest2 =>
                  match hex_digit h1, hex_digit h2, hex_digit h3, hex_digit h4 with
                  | Some 0, Some 0, Some c, Some d =>
                      parse_string rest2 (ascii_of_nat (c * 16 + d) :: acc)
                  | _, _, _, _ => None
                  end
              | _ => None
              end
            else None
        | [] => None
        end
      else if n <? 32 then None
      else parse_string rest (c :: acc)
  end.

Fixpoint strip_prefix (p cs : list ascii) : option (list ascii) :=
  match p, cs with
  | [], _ => Some cs
  | a :: p', c :: cs' => if Ascii.eqb a c then strip_prefix p' cs' else None
  | _ :: _, [] => None
  end.

(** [props[key] = v]: a repeated key keeps its place and takes the later
    value. *)
Fixpoint props_set (key : string) (v : value) (props : list (string * value))
  : list (string * value) :=
  match props with
  | [] => [(key, v)]
  | (k, w) :: rest =>
      if (key =? k)%string then (k, v) :: rest
      else (k, w) :: props_set key v rest
  end.

Definition decimal (n : nat) : string :=
  DecimalString.NilZero.string_of_uint (Nat.to_uint n).

Definition parsed : Type := option (value * list ascii * positive).

(** [parse_value] reads one value at [cs], [parse_members] the members of
    an object from its first key on, [parse_elements] the elements of an
    array from its first element on; [next] is the next free identity. *)
Fixpoint parse_value (fuel : nat) (cs : list ascii) (next : positive)
  {struct fuel} : parsed :=
  match fuel with
  | 0 => None
  | S fuel' =>
      match skip_ws cs with
      | [] => None
      | c :: rest =>
          let n := code c in
          if n =? 123 then
            match skip_ws rest with
            | c' :: rest' =>
                if code c' =? 125 then Some (VObject next [], rest', Pos.succ next)
                else parse_members fuel' (c' :: rest') next [] (Pos.succ next)
            | [] => None
            end
          else if n =? 91 then
            match skip_ws rest with
            | c' :: rest' =>
                if code c' =? 93 then Some (VArray next [], rest', Pos.succ next)
                else parse_elements fuel' (c' :: rest') next [] (Pos.succ next)
            | [] => None
            end
          else if n =? 34 then
            match parse_string rest [] with
            | Some (s, rest') => Some (VString s, rest', next)
            | None => None
            end
          else
            match strip_prefix (list_ascii_of_string "true") (c :: rest),
                  strip_prefix (list_ascii_of_string "false") (c :: rest),
                  strip_prefix (list_ascii_of_string "null") (c :: rest) with
            | Some rest', _, _ => Some (VBool true, rest', next)
            | _, Some rest', _ => Some (VBool false, rest', next)
            | _, _, Some rest' => Some (VNull, rest', next)
            | None, None, None =>
                match parse_number (c :: rest) with
                | Some (q, rest') => Some (VNumber (Finite q), rest', next)
                | None => None
                end
            end
      end
  end
with parse_members (fuel : nat) (cs : list ascii) (self : positive)
       (props : list (string * value)) (next : positive) {struct fuel}
  : parsed :=
  match fuel with
  | 0 => None
  | S fuel' =>
      match cs with
      | q :: rest =>
          if code q =? 34 then
            match parse_string rest [] with
            | Some (key, rest1) =>
                match skip_ws rest1 with
                | colon :: rest2 =>
                    if code colon =? 58 then
                      match parse_value fuel' rest2 next with
                      | Some (v, rest3, next') =>
                          let props' := props_set key v props in
                          match skip_ws rest3 with
                          | sep :: rest4 =>
                              if code sep =? 44
                              then parse_members fuel' (skip_ws rest4) self
                                     props' next'
                              else if code sep =? 125
                              then Some (VObject self props', rest4, next')
                              else None
                          | [] => None
                          end
                      | None => None
                      end
                    else None
                | [] => None
                end
            | None => None
            end
          else None
      | [] => None
      end
  end
with parse_elements (fuel : nat) (cs : list ascii) (self : positive)
       (elements : list value) (next : positive) {struct fuel} : parsed :=
  match fuel with
  | 0 => None
  | S fuel' =>
      match parse_value fuel' cs next with
      | Some (v, rest, next') =>
          match skip_ws rest with
          | sep :: rest1 =>
              if code sep =? 44
              then parse_elements fuel' rest1 self (elements ++ [v]) next'
              else if code sep =? 93
              then Some (VArray self (elements ++ [v]), rest1, next')
              else None
          | [] => None
          end
      | None => None
      end
  end.

Definition JSON_parse (text : string) : result value :=
  match parse_value (S (String.length text)) (list_ascii_of_string text)
          2%positive with
  | Some (v, rest, _) =>
      match skip_ws rest with
      | [] => Ok v
      | _ :: _ => Throw SyntaxError
      end
  | None => Throw SyntaxError
  end.

(** *** The coercions *)

Fixpoint read_radix (base : nat) (cs : list ascii) (acc : Z) : option Z :=
  match cs with
  | [] => Some acc
  | c :: rest =>
      match hex_digit c with
      | Some d =>
          if d <? base then read_radix base rest (acc * Z.of_nat base + Z.of_nat d)%Z
          else None
      | None => None
      end
  end.

(** [0x], [0o] and [0b] literals *)
Definition radix_literal (cs : list ascii) : option Z :=
  match cs with
  | z :: x :: d :: rest =>
      if code z =? 48 then
        if (code x =? 120) || (code x =? 88) then read_radix 16 (d :: rest) 0%Z
        else if (code x =? 111) || (code x =? 79) then read_radix 8 (d :: rest) 0%Z
        else if (code x =? 98) || (code x =? 66) then read_radix 2 (d :: rest) 0%Z
        else None
      else None
  | _ => None
  end.

(** An unsigned decimal literal: digits on at least one side of the
    point, then the exponent. *)
Definition decimal_literal (cs : list ascii) : option (Q * list ascii) :=
  match read_digits cs 0%Z 0 with
  | (int, whole, rest) =>
      match rest with
      | c :: rest1 =>
          if code c =? 46 then
            match read_digits rest1 int 0 with
            | (m, places, rest2) =>
                if whole + places =? 0 then None
                else read_exponent m places rest2
            end
          else if whole =? 0 then None
          else read_exponent int 0 rest
      | [] => if whole =? 0 then None else read_exponent int 0 rest
      end
  end.

Definition StringToNumber (s : string) : number :=
  match list_ascii_of_string (trim s) with
  | [] => Finite 0
  | c :: rest =>
      match radix_literal (c :: rest) with
      | Some n => Finite (inject_Z n)
      | None =>
          let '(negative, cs) :=
            if code c =? 45 then (true, rest)
            else if code c =? 43 then (false, rest)
            else (false, c :: rest) in
          if (string_of_list_ascii cs =? "Infinity")%string
          then (if negative then NegInfinity else PosInfinity)
          else
            match decimal_literal cs with
            | Some (q, []) => Finite (if negative then Qred (- q) else q)
            | _ => NaN
            end
      end
  end.

(** The digits of [r / den] after the point, at most [places] of them. *)
Fixpoint fraction_digits (places : nat) (r den : Z) : string :=
  match places with
  | 0 => EmptyString
  | S places' =>
      if (r =? 0)%Z then EmptyString
      else
        String (ascii_of_nat (48 + Z.to_nat (r * 10 / den)))
          (fraction_digits places' ((r * 10) mod den)%Z den)
  end.

Definition NumberToString (n : number) : string :=
  match n with
  | NaN => "NaN"
  | PosInfinity => "Infinity"
  | NegInfinity => "-Infinity"
  | Finite q =>
      let q := Qred q in
      let den := Zpos (Qden q) in
      let whole := (Z.abs (Qnum q) / den)%Z in
      let r := (Z.abs (Qnum q) mod den)%Z in
      ((if (Qnum q <? 0)%Z then "-" else "")
       ++ decimal (Z.to_nat whole)
       ++ (if (r =? 0)%Z then "" else "." ++ fraction_digits 20 r den))%string
  end.

#[export] Instance platform : Platform := {
  atob := atob;
  JSON_parse := JSON_parse;
  StringToNumber := StringToNumber;
  NumberToString := NumberToString
}.

End Reference.

(** ** What the functions are compared with *)

(** [base.key] where it cannot throw. *)
Definition field (base : value) (key : string) : value :=
  match get base key with
  | Ok v => v
  | Throw _ => VUndefined
  end.

(** A share is valid for [validateShareCollection] when it is truthy, its
    [threshold] and [data] are truthy and its [index] is not [undefined]. *)
Definition is_valid_share (shareData : value) : bool :=
  truthy shareData
  && truthy (field shareData "threshold")
  && negb (is_undefined (field shareData "index"))
  && truthy (field shareData "data").

Definition is_primitive (v : value) : bool :=
  match v with
  | VObject _ _ | VArray _ _ => false
  | _ => true
  end.

(** Every element of [l] differs from the ones after it. *)
Fixpoint all_distinct (l : list value) : bool :=
  match l with
  | [] => true
  | v :: rest => negb (existsb (SameValueZero v) rest) && all_distinct rest
  end.

(** The first occurrence of every value of [l], in order. *)
Definition first_occurrences (l : list value) : list value :=
  fold_left Set_add l [].



Section Expected.
Context {P : Platform}.

(** What the loop of [validateShareCollection] checks of one input. *)
Definition resolved (shareStr : value) : value :=
  match shareDataOf shareStr with
  | Ok shareData => shareData
  | Throw _ => VNull
  end.


(** The valid shares among the inputs, in input order. *)
Definition validShares (shareStrings : list value) : list value :=
  filter is_valid_share (map resolved shareStrings).

(** One [InvalidShardFormat] per input that is not a valid share, with
    its line number; [index] is the position of the first input. *)
Fixpoint formatErrors (index : nat) (shareStrings : list value)
  : list message :=
  match shareStrings with
  | [] => []
  | shareStr :: rest =>
      (if is_valid_share (resolved shareStr) then []
       else [InvalidShardFormat (index + 1)])
      ++ formatErrors (S index) rest
  end.

Definition indices (shares : list value) : list value :=
  map (fun shareData => field shareData "index") shares.

Definition thresholds (shares : list value) : list value :=
  map (fun shareData => field shareData "threshold") shares.

(** The threshold of the first valid share, or the default. *)
Definition expected_threshold (shareStrings : list value) : value :=
  match validShares shareStrings with
  | [] => VNumber (Finite 3)
  | first :: _ => field first "threshold"
  end.

(** What the loop leaves in its variables, started in [st] at position
    [index]. *)
Definition collect (st : collected) (index : nat) (shareStrings : list value)
  : collected :=
  {| c_errors := c_errors st ++ formatErrors index shareStrings;
     c_validCount := c_validCount st + List.length (validShares shareStrings);
     c_shareIndices :=
       fold_left Set_add (indices (validShares shareStrings))
         (c_shareIndices st);
     c_thresholdCandidates :=
       fold_left Set_add (thresholds (validShares shareStrings))
         (c_thresholdCandidates st);
     c_validShareData := c_validShareData st ++ validShares shareStrings |}.

(** The record returned when the loop has left [st] and the threshold is
    [t]; [x] is the number [t] converts to, and [None] when the count is 0
    and [t] is not converted. *)
Definition finished (st : collected) (t : value) (x : option number)
  : validation :=
  let validCount := c_validCount st in
  let errors1 :=
    match x with
    | None => c_errors st ++ [NoValidShards]
    | Some y =>
        if js_lt (of_nat validCount) y
        then c_errors st ++ [ShardsRequired t validCount]
        else c_errors st
    end in
  let errors2 :=
    if negb (List.length (c_shareIndices st) =? validCount)
    then errors1 ++ [DuplicateIndices]
    else errors1 in
  {| isValid := (List.length errors2 =? 0)
                && match x with
                   | None => false
                   | Some y => js_ge (of_nat validCount) y
                   end;
     validCount := validCount;
     threshold := t;
     errors := errors2;
     shareIndices := c_shareIndices st |}.

(** [text] decodes to a share, for [parseShareContent]. *)
Definition decodes_to_share (text : string) : bool :=
  match (decoded <- atob text ;;
         shareData <- JSON_parse decoded ;;
         isShare shareData) with
  | Ok b => b
  | Throw _ => false
  end.

(** The selection the specification describes for reconstruction: one
    envelope per index, the first occurrence; these by ascending index;
    of these the first [threshold]. *)
Definition index_lt (a b : value) : bool :=
  match ToNumber (field a "index"), ToNumber (field b "index") with
  | Ok x, Ok y => js_lt x y
  | _, _ => false
  end.

Definition same_index (a b : value) : bool :=
  SameValueZero (field a "index") (field b "index").

Fixpoint first_per_index (shares seen : list value) : list value :=
  match shares with
  | [] => []
  | s :: rest =>
      if existsb (same_index s) seen then first_per_index rest seen
      else s :: first_per_index rest (seen ++ [s])
  end.

Fixpoint insert_by_index (s : value) (sorted : list value) : list value :=
  match sorted with
  | [] => [s]
  | x :: rest =>
      if index_lt s x then s :: x :: rest
      else x :: insert_by_index s rest
  end.

Definition sort_by_index (shares : list value) : list value :=
  fold_left (fun sorted s => insert_by_index s sorted) shares [].

Definition specified_selection (threshold : nat) (shares : list value)
  : list value :=
  firstn threshold (sort_by_index (first_per_index shares [])).

End Expected.

(** ** Sample data *)

(** The envelope [generateShares] encodes: [{ index, threshold, total,
    data }]. *)
Definition envelope (id : positive) (index threshold total : Z) (data : string)
  : value :=
  VObject id
    [("index", VNumber (Finite (inject_Z index)));
     ("threshold", VNumber (Finite (inject_Z threshold)));
     ("total", VNumber (Finite (inject_Z total)));
     ("data", VString data)].

(** An envelope without its [threshold]. *)
Definition envelope_without_threshold (id : positive) (index : Z) (data : string)
  : value :=
  VObject id
    [("index", VNumber (Finite (inject_Z index)));
     ("data", VString data)].

(** Two shares of a 2-of-3 split carrying the same index. *)
Definition same_index_twice : list value :=
  [envelope 11 1 2 3 "YWE="; envelope 12 1 2 3 "YmI="].

(** One share of a 3-of-5 split. *)
Definition one_of_three : list value :=
  [envelope 11 1 3 5 "YWE="].

(** Two shares of a 2-of-3 split, and a line that is not base64. *)
Definition shares_and_garbage : list value :=
  [envelope 11 1 2 3 "YWE="; envelope 12 2 2 3 "YmI="; VString "%%%"].

(** Three shares of a 2-of-3 split. *)
Definition three_shares : list value :=
  [envelope 11 1 2 3 "YWE="; envelope 12 2 2 3 "YmI="; envelope 13 3 2 3 "Y2M="].

(** An envelope without threshold, then thresholds 5, 3 and 3. *)
Definition threshold_missing_first : list value :=
  [envelope_without_threshold 11 1 "YWE=";
   envelope 12 2 5 5 "YmI=";
   envelope 13 3 3 5 "Y2M=";
   envelope 14 4 3 5 "ZGQ="].

(** What [validateShareCollection] returns on [same_index_twice]. *)
Definition same_index_twice_result : validation :=
  {| isValid := false;
     validCount := 2;
     threshold := VNumber (Finite 2);
     errors := [DuplicateIndices];
     shareIndices := [VNumber (Finite 1)] |}.

(** What [validateShareCollection] returns on [one_of_three]. *)
Definition one_of_three_result : validation :=
  {| isValid := false;
     validCount := 1;
     threshold := VNumber (Finite 3);
     errors := [ShardsRequired (VNumber (Finite 3)) 1];
     shareIndices := [VNumber (Finite 1)] |}.

(** What it returns on [three_shares]. *)
Definition three_shares_result : validation :=
  {| isValid := true;
     validCount := 3;
     threshold := VNumber (Finite 2);
     errors := [];
     shareIndices := [VNumber (Finite 1); VNumber (Finite 2); VNumber (Finite 3)] |}.

(** What it returns on [threshold_missing_first]. *)
Definition threshold_missing_first_result : validation :=
  {| isValid := false;
     validCount := 3;
     threshold := VNumber (Finite 5);
     errors := [InvalidShardFormat 1; ShardsRequired (VNumber (Finite 5)) 3];
     shareIndices := [VNumber (Finite 2); VNumber (Finite 3); VNumber (Finite 4)] |}.

(** Two shares of a 2-of-3 split, index 2 before index 1. *)
Definition second_then_first : list value :=
  [envelope 12 2 2 3 "YmI="; envelope 11 1 2 3 "YWE="].

(** [{"threshold":2,"index":1,"data":"YQ=="}], encoded. *)
Definition encoded_share : string :=
  "eyJ0aHJlc2hvbGQiOjIsImluZGV4IjoxLCJkYXRhIjoiWVE9PSJ9".

(** A text whose second line opens an armored message. *)
Definition armor_on_second_line : string :=
  String "x" (String LF MARKER).

(** An armored message, indented. *)
Definition armored_message : string :=
  ("  " ++ MARKER ++ String LF (String LF ("jA0ECQMC" ++ String LF
     ("-----END PGP MESSAGE-----" ++ String LF EmptyString))))%string.

(** A text that is neither armored nor a share. *)
Definition plain_note : string := " remember the milk ".

(** Three shares of a 2-of-3 split, the first two with the same index. *)
Definition repeated_then_other : list value :=
  [envelope 11 1 2 3 "YWE="; envelope 12 1 2 3 "YmI="; envelope 13 2 2 3 "Y2M="].

(** [{"threshold":{"toString":0},"index":1,"data":"eA=="}], encoded: a
    share whose threshold is an object with an own [toString]. *)
Definition share_with_object_threshold : string :=
  "eyJ0aHJlc2hvbGQiOnsidG9TdHJpbmciOjB9LCJpbmRleCI6MSwiZGF0YSI6ImVBPT0ifQ==".

(** [encoded_share], wrapped after 32 characters. *)
Definition wrapped_share : string :=
  ("eyJ0aHJlc2hvbGQiOjIsImluZGV4Ijox"
   ++ String LF "LCJkYXRhIjoiWVE9PSJ9")%string.

(** A stand-in for the library's [combine]: like it, it refuses strings with
    a [TypeError]; byte shares it resolves to bytes. *)
Definition bytes_only_combine (arg : shares_arg) : result combined :=
  match arg with
  | StringShares _ => Throw TypeError
  | ByteShares shares => Ok (CombinedBytes (List.concat shares))
  end.

(** A [combine] that takes strings, and fails on them with an error that
    is not a [TypeError]. *)
Definition failing_string_combine (arg : shares_arg) : result combined :=
  match arg with
  | StringShares _ => Throw (Error "shares must contain unique values")
  | ByteShares shares => Ok (CombinedBytes (List.concat shares))
  end.

(** A platform on which every text decodes to the same valid share. *)
Definition decodes_everything : Platform := {|
  atob := fun s => Ok s;
  JSON_parse := fun _ => Ok (envelope 2 1 2 3 "YWE=");
  StringToNumber := Reference.StringToNumber;
  NumberToString := Reference.NumberToString
|}.

(** ** More of the strings *)

(** [toLowerCase], one code unit at a time: below 256 the capital letters
    are those of ASCII and [À] to [Þ] without [×], each 32 below its small
    letter. *)
Definition lower (c : ascii) : ascii :=
  let n := nat_of_ascii c in
  if ((65 <=? n) && (n <=? 90)) || ((192 <=? n) && (n <=? 214))
     || ((216 <=? n) && (n <=? 222))
  then ascii_of_nat (n + 32)
  else c.

Fixpoint toLowerCase (s : string) : string :=
  match s with
  | EmptyString => EmptyString
  | String c rest => String (lower c) (toLowerCase rest)
  end.

(** [s.split(sep)], for a separator of one code unit *)
Fixpoint split_on (sep : ascii) (s : string) : list string :=
  match s with
  | EmptyString => [EmptyString]
  | String c rest =>
      if Ascii.eqb c sep then EmptyString :: split_on sep rest
      else match split_on sep rest with
           | [] => [String c EmptyString]
           | piece :: pieces => String c piece :: pieces
           end
  end.

(** [s.endsWith(p)] *)
Definition endsWith (s p : string) : bool :=
  (String.length p <=? String.length s)
  && (substring (String.length s - String.length p) (String.length p) s =? p)%string.

(** [array.join(sep)] on strings *)
Fixpoint join (sep : string) (array : list string) : string :=
  match array with
  | [] => EmptyString
  | [s] => s
  | s :: rest => (s ++ sep ++ join sep rest)%string
  end.

(** [array.includes(v)] *)
Definition includes (array : list value) (v : value) : bool :=
  existsb (SameValueZero v) array.

(** [array.some(callback)]: stops at the first element the callback holds
    of. *)
Fixpoint some {A : Type} (callback : A -> result bool) (array : list A)
  : result bool :=
  match array with
  | [] => Ok false
  | x :: rest =>
      b <- callback x ;;
      if b then Ok true else some callback rest
  end.

(** A loop that threads its variables [st] through the elements. *)
Fixpoint foldM {A St : Type} (body : St -> A -> result St) (st : St)
  (l : list A) : result St :=
  match l with
  | [] => Ok st
  | x :: rest =>
      st' <- body st x ;;
      foldM body st' rest
  end.

(** ** utils/validation.js: words *)

Definition isValidBIP39Word (wordList : list value) (word : value)
  : result bool :=
  if negb (truthy word) then Ok false
  else if negb (typeof_string word) then Ok false
  else
    trimmed <- method_trim word ;;
    if String.length trimmed =? 0 then Ok false
    else
      trimmed' <- method_trim word ;;
      Ok (includes wordList (VString (toLowerCase trimmed'))).

Module Mnemonic.

(** The messages [validateMnemonic] pushes on [errors]:
    - [EmptyWords]: ['Empty words detected — please fill in all mnemonic
      fields.'];
    - [DuplicateWords ws]: [`Duplicate words detected: ${ws}`]. *)
Inductive message : Type :=
| EmptyWords
| DuplicateWords (duplicateWords : string).

(** The record [validateMnemonic] returns. *)
Record validation : Type := mkValidation {
  isValid : bool;
  errors : list message;
  duplicates : list value
}.

End Mnemonic.

(** The callback of [words.some]: [!word || word.trim().length === 0] *)
Definition isEmptyWord (word : value) : result bool :=
  if negb (truthy word) then Ok true
  else
    trimmed <- method_trim word ;;
    Ok (String.length trimmed =? 0).

(** The callback of [words.forEach], on [wordSet] and [duplicates]. *)
Definition noteWord (st : list value * list value) (word : value)
  : result (list value * list value) :=
  let (wordSet, duplicates) := st in
  trimmed <- method_trim word ;;
  let trimmedWord := VString (toLowerCase trimmed) in
  if Set_has wordSet trimmedWord
  then Ok (wordSet, Set_add duplicates trimmedWord)
  else Ok (Set_add wordSet trimmedWord, duplicates).

(** [Array.from(duplicates).join(', ')]: [join] takes the string of each
    element, and the elements of [duplicates] are strings. *)
Definition stringOf (v : value) : string :=
  match v with
  | VString s => s
  | _ => EmptyString
  end.

(** The body of [validateMnemonic], for the elements of an array. *)
Definition validateWords (words : list value) : result Mnemonic.validation :=
  empty <- some isEmptyWord words ;;
  let errors1 := if empty then [Mnemonic.EmptyWords] else [] in
  st <- foldM noteWord ([], []) words ;;
  let duplicates := snd st in
  let errors2 :=
    if 0 <? List.length duplicates
    then errors1 ++ [Mnemonic.DuplicateWords (join ", " (map stringOf duplicates))]
    else errors1 in
  Ok {| Mnemonic.isValid := List.length errors2 =? 0;
        Mnemonic.errors := errors2;
        Mnemonic.duplicates := duplicates |}.

(** [words.some] and [words.forEach] are the methods of an array: on a
    string, as on every other value of plain data, [words.some] is no
    function and the call is a [TypeError]. *)
Definition validateMnemonic (words : value) : result Mnemonic.validation :=
  match words with
  | VArray _ elements => validateWords elements
  | _ => Throw TypeError
  end.

(** ** components/RecoveryTabManager.js: the uploaded files *)

Module RecoveryTab.

(** What the code reads of a [File]; [size] is in bytes. *)
Record File : Type := mkFile {
  name : string;
  size : N;
  type : string
}.

(** What reading a file resolves to: a string, or an [ArrayBuffer]. *)
Inductive fileContent : Type :=
| Text (text : string)
| ArrayBuffer (bytes : list Byte.byte).

(** ['processing'], ['valid'], ['invalid'], ['encrypted'] *)
Inductive fileStatus : Type :=
| Processing
| Valid
| Invalid
| Encrypted.

(** ['text'], ['binary'] *)
Inductive format : Type :=
| TextFormat
| BinaryFormat.

(** An entry of [this.uploadedFiles]; [file] holds the [name], [size] and
    [type] copied from the [File]. *)
Record fileData : Type := mkFileData {
  file : File;
  content : fileContent;
  status : fileStatus;
  shareData : value;
  isEncrypted : bool;
  decryptedContent : option string;
  contentFormat : format
}.

Definition set_content (fd : fileData) (c : fileContent) : fileData :=
  {| file := file fd; content := c; status := status fd;
     shareData := shareData fd; isEncrypted := isEncrypted fd;
     decryptedContent := decryptedContent fd;
     contentFormat := contentFormat fd |}.

Definition set_status (fd : fileData) (s : fileStatus) : fileData :=
  {| file := file fd; content := content fd; status := s;
     shareData := shareData fd; isEncrypted := isEncrypted fd;
     decryptedContent := decryptedContent fd;
     contentFormat := contentFormat fd |}.

Definition set_shareData (fd : fileData) (v : value) : fileData :=
  {| file := file fd; content := content fd; status := status fd;
     shareData := v; isEncrypted := isEncrypted fd;
     decryptedContent := decryptedContent fd;
     contentFormat := contentFormat fd |}.

Definition set_decryptedContent (fd : fileData) (d : string) : fileData :=
  {| file := file fd; content := content fd; status := status fd;
     shareData := shareData fd; isEncrypted := isEncrypted fd;
     decryptedContent := Some d;
     contentFormat := contentFormat fd |}.

Definition set_contentFormat (fd : fileData) (f : format) : fileData :=
  {| file := file fd; content := content fd; status := status fd;
     shareData := shareData fd; isEncrypted := isEncrypted fd;
     decryptedContent := decryptedContent fd;
     contentFormat := f |}.

(** The toasts [showError] is called with, by the key of their text. *)
Inductive toast : Type :=
| FileTypeNotSupported (fileName : string)
| FileTooLarge (fileName : string)
| DuplicateFile (fileName : string)
| PasswordRequiredToast
| NoEncryptedFiles
| InvalidPasswordToast.

(** [5 * 1024 * 1024] *)
Definition maxSize : N := 5 * 1024 * 1024.

Definition validExtensions : list string := [".txt"; ".gpg"].

(** ['.' + file.name.split('.').pop().toLowerCase()] *)
Definition fileExtension (f : File) : string :=
  ("." ++ toLowerCase (last (split_on "." (name f)) EmptyString))%string.

(** [this.uploadedFiles.some((f) => f.name === file.name)] *)
Definition alreadyUploaded (uploadedFiles : list fileData) (f : File) : bool :=
  existsb (fun u => (name (file u) =? name f)%string) uploadedFiles.

(** The body of the loop of [validateFiles], on the toasts shown and
    [validFiles]. *)
Definition checkFile (uploadedFiles : list fileData)
  (st : list toast * list File) (f : File) : list toast * list File :=
  let (toasts, validFiles) := st in
  if negb (existsb (String.eqb (fileExtension f)) validExtensions)
  then (toasts ++ [FileTypeNotSupported (name f)], validFiles)
  else if (maxSize <? size f)%N
  then (toasts ++ [FileTooLarge (name f)], validFiles)
  else if alreadyUploaded uploadedFiles f
  then (toasts ++ [DuplicateFile (name f)], validFiles)
  else (toasts, validFiles ++ [f]).

(** The toasts shown, and the files returned. *)
Definition validateFiles (uploadedFiles : list fileData) (files : list File)
  : list toast * list File :=
  fold_left (checkFile uploadedFiles) files ([], []).

(** [array.findIndex(p)]: [None] for -1 *)
Fixpoint findIndex {A : Type} (p : A -> bool) (array : list A) : option nat :=
  match array with
  | [] => None
  | x :: rest =>
      if p x then Some 0
      else match findIndex p rest with
           | Some i => Some (S i)
           | None => None
           end
  end.

(** [array[i] = f(array[i])] *)
Fixpoint update {A : Type} (i : nat) (f : A -> A) (array : list A) : list A :=
  match array, i with
  | [], _ => []
  | x :: rest, 0 => f x :: rest
  | x :: rest, S j => x :: update j f rest
  end.

Section Files.
Context {P : Platform}.

(** [shareData && !shareData.encrypted], as a boolean *)
Definition isPlainShare (v : value) : result bool :=
  if truthy v then
    e <- get v "encrypted" ;;
    Ok (negb (truthy e))
  else Ok false.

(** The [try] block of [processFile] after the [push]: what it leaves in
    [fileData], and whether it threw.  [read] is what [readFileContent]
    resolved to, or its rejection. *)
Definition processBody (fd : fileData) (read : result fileContent)
  : fileData * result unit :=
  match read with
  | Throw e => (fd, Throw e)
  | Ok c =>
      let fd := set_content fd c in
      if isEncrypted fd then
        let fd := set_contentFormat fd
                    match c with
                    | ArrayBuffer _ => BinaryFormat
                    | Text _ => TextFormat
                    end in
        (set_status fd Encrypted, Ok tt)
      else
        match c with
        | ArrayBuffer _ => (set_status fd Invalid, Ok tt)
        | Text text =>
            let fd := set_contentFormat fd TextFormat in
            match parseShareContent text with
            | Throw e => (fd, Throw e)
            | Ok v =>
                match isPlainShare v with
                | Throw e => (fd, Throw e)
                | Ok true => (set_status (set_shareData fd v) Valid, Ok tt)
                | Ok false => (set_status fd Invalid, Ok tt)
                end
            end
        end
  end.

(** [this.uploadedFiles] after [processFile(file)]: the entry is pushed
    first, and the [catch] marks the first entry of that name. *)
Definition processFile (uploadedFiles : list fileData) (f : File)
  (read : result fileContent) : list fileData :=
  let fd := {| file := f;
               content := Text EmptyString;
               status := Processing;
               shareData := VNull;
               isEncrypted := endsWith (name f) ".gpg";
               decryptedContent := None;
               contentFormat := TextFormat |} in
  match processBody fd read with
  | (fd', Ok _) => uploadedFiles ++ [fd']
  | (fd', Throw _) =>
      let pushed := uploadedFiles ++ [fd'] in
      match findIndex (fun u => (name (file u) =? name f)%string) pushed with
      | Some fileIndex => update fileIndex (fun u => set_status u Invalid) pushed
      | None => pushed
      end
  end.

(** The loop of [processFiles]; [reads] gives what reading each file
    resolves to. *)
Fixpoint processFiles (uploadedFiles : list fileData)
  (files : list (File * result fileContent)) : list fileData :=
  match files with
  | [] => uploadedFiles
  | (f, read) :: rest => processFiles (processFile uploadedFiles f read) rest
  end.

(** [this.uploadedFiles.filter((file) => file.status === 'valid' &&
    file.shareData).map((file) => file.shareData)] *)
Definition validSharesOf (uploadedFiles : list fileData) : list value :=
  map shareData
    (filter (fun u => match status u with
                      | Valid => truthy (shareData u)
                      | _ => false
                      end) uploadedFiles).

(** [this.uploadedFiles.filter((file) => file.status === 'encrypted')] *)
Definition encryptedFilesOf (uploadedFiles : list fileData) : list fileData :=
  filter (fun u => match status u with Encrypted => true | _ => false end)
    uploadedFiles.

(** The classes [updateStatus] sets. *)
Inductive statusClass : Type :=
| WaitingStatus
| ValidStatus
| InvalidStatus
| InsufficientStatus.

(** The texts [updateStatus] is given, by their key and arguments. *)
Inductive statusText : Type :=
| NoValidSharesText
| PasswordRequiredText
| SharesDecrypted (validCount : nat) (threshold : value)
| InsufficientSharesAfterDecryption (threshold : value) (validCount : nat)
| InvalidShareFormatText
| WaitingForInput
| WaitingForUpload
| DuplicateSharesText
| InsufficientSharesText (threshold : value) (validCount : nat)
| ValidSharesText (validCount : nat) (threshold : value).

(** What a validation leaves in the page and in the manager: the status
    shown, [recoverBtn.disabled], and [currentThreshold] with
    [validShareCount] when they are assigned. *)
Record panel : Type := mkPanel {
  shownClass : statusClass;
  shownText : statusText;
  disabled : bool;
  assigned : option (value * nat)
}.

(** [validateCurrentShares], with [#uploadStatus] and [#recoverBtn] in the
    page. *)
Definition validateCurrentShares (uploadedFiles : list fileData)
  : result panel :=
  let allShares := validSharesOf uploadedFiles in
  let encryptedFiles := encryptedFilesOf uploadedFiles in
  if (List.length allShares =? 0) && (List.length encryptedFiles =? 0)
  then Ok (mkPanel InvalidStatus NoValidSharesText true None)
  else if (List.length allShares =? 0) && (0 <? List.length encryptedFiles)
  then Ok (mkPanel WaitingStatus PasswordRequiredText false None)
  else
    validation <- validateShareCollection allShares ;;
    if isValid validation
    then Ok (mkPanel ValidStatus
               (SharesDecrypted (validCount validation) (threshold validation))
               false
               (Some (threshold validation, validCount validation)))
    else
      below <- less_than (validCount validation) (threshold validation) ;;
      if below
      then Ok (mkPanel InsufficientStatus
                 (InsufficientSharesAfterDecryption (threshold validation)
                    (validCount validation))
                 true None)
      else Ok (mkPanel InvalidStatus InvalidShareFormatText true None).

(** [validateFileUpload], with the same elements in the page. *)
Definition validateFileUpload (uploadedFiles : list fileData) : result panel :=
  if List.length uploadedFiles =? 0
  then Ok (mkPanel WaitingStatus WaitingForUpload true None)
  else validateCurrentShares uploadedFiles.

(** [this.uploadedFiles.splice(index, 1)] for an index that is a position
    or beyond the end *)
Fixpoint splice1 {A : Type} (index : nat) (array : list A) : list A :=
  match array, index with
  | [], _ => []
  | _ :: rest, 0 => rest
  | x :: rest, S i => x :: splice1 i rest
  end.

(** [/duplicate/i.test(error)] on the messages of
    [validateShareCollection].  Without the flag [u], a letter of ASCII in
    the pattern matches itself in either case and nothing else. *)
Definition sameLetter (a b : ascii) : bool :=
  let fold (c : ascii) :=
    let n := nat_of_ascii c in
    if (65 <=? n) && (n <=? 90) then ascii_of_nat (n + 32) else c in
  Ascii.eqb (fold a) (fold b).

Fixpoint matchesHere (pattern text : string) : bool :=
  match pattern, text with
  | EmptyString, _ => true
  | String _ _, EmptyString => false
  | String p pattern', String c text' =>
      sameLetter p c && matchesHere pattern' text'
  end.

Fixpoint matchesSomewhere (pattern text : string) : bool :=
  matchesHere pattern text
  || match text with
     | EmptyString => false
     | String _ text' => matchesSomewhere pattern text'
     end.

(** The text of a message has a dash, which is no code unit below 256,
    only in [ShardsRequired]; a match does not span it, and lies in the
    part before it or in the part after it.  A count prints in decimal. *)
Definition mentionsDuplicate (m : message) : result bool :=
  match m with
  | InvalidShardFormat line =>
      Ok (matchesSomewhere "duplicate"
            ("Line " ++ Reference.decimal line ++ ": Invalid shard format"))
  | NoValidShards =>
      Ok (matchesSomewhere "duplicate" "No valid shards detected.")
  | ShardsRequired t n =>
      s <- ToString t ;;
      Ok (matchesSomewhere "duplicate" ("At least " ++ s ++ " shards are required ")
          || matchesSomewhere "duplicate"
               (" only " ++ Reference.decimal n ++ " provided."))
  | DuplicateIndices =>
      Ok (matchesSomewhere "duplicate" "Duplicate shard indices detected.")
  end%string.

(** [processValidationResult] *)
Definition processValidationResult (validation : validation) : result panel :=
  if negb (isValid validation) then
    if validCount validation =? 0
    then Ok (mkPanel InvalidStatus InvalidShareFormatText true None)
    else
      duplicate <- some mentionsDuplicate (errors validation) ;;
      if duplicate
      then Ok (mkPanel InvalidStatus DuplicateSharesText true None)
      else Ok (mkPanel InsufficientStatus
                 (InsufficientSharesText (threshold validation)
                    (validCount validation))
                 true None)
  else
    Ok (mkPanel ValidStatus
          (ValidSharesText (validCount validation) (threshold validation))
          false
          (Some (threshold validation, validCount validation))).

(** [inputText.split('\n').map((line) => line.trim()).filter((line) =>
    line.length > 0)], as values *)
Definition pastedLines (inputText : string) : list value :=
  map VString (nonEmptyLines inputText).

(** [validatePasteInput], with its three elements in the page;
    [inputValue] is [input.value]. *)
Definition validatePasteInput (inputValue : string) : result panel :=
  let inputText := trim inputValue in
  if (inputText =? "")%string
  then Ok (mkPanel WaitingStatus WaitingForInput true None)
  else
    let shareStrings := pastedLines inputText in
    if List.length shareStrings =? 0
    then Ok (mkPanel WaitingStatus WaitingForInput true None)
    else
      validation <- validateShareCollection shareStrings ;;
      processValidationResult validation.

(** ['paste'], ['upload'] *)
Inductive tab : Type :=
| Paste
| Upload.

(** [getCurrentShares], with [#recoverInput] in the page *)
Definition getCurrentShares (activeTab : tab) (inputValue : string)
  (uploadedFiles : list fileData) : list value :=
  match activeTab with
  | Paste =>
      let inputText := trim inputValue in
      if (inputText =? "")%string then []
      else pastedLines inputText
  | Upload => validSharesOf uploadedFiles
  end.

End Files.

End RecoveryTab.

(** ** What the further properties are stated with *)

Definition is_format_error (m : message) : bool :=
  match m with
  | InvalidShardFormat _ => true
  | _ => false
  end.

Section ExpectedMore.
Context {P : Platform}.

(** [isValidShareFormat] holds of the string [s]. *)
Definition well_formed (s : string) : bool :=
  match isValidShareFormat (VString s) with
  | Ok b => b
  | Throw _ => false
  end.

(** The [join] inside [ToString], by itself. *)
Fixpoint joinElements (l : list value) : result string :=
  match l with
  | [] => Ok ""%string
  | x :: rest =>
      s <- match x with
           | VUndefined | VNull => Ok ""%string
           | _ => ToString x
           end ;;
      match rest with
      | [] => Ok s
      | _ :: _ => r <- joinElements rest ;; Ok (s ++ "," ++ r)%string
      end
  end.

(** What a text decodes to: [JSON.parse(atob(text))]. *)
Definition decode (text : string) : result value :=
  decoded <- atob text ;;
  JSON_parse decoded.

End ExpectedMore.

(** ** Code that leaves a trace *)

(** The error monad with the log of what the code did to the world around
    it: the calls of library functions and the changes of the page. *)
Definition logged (E A : Type) : Type := list E -> list E * result A.

Definition lret {E A : Type} (a : A) : logged E A := fun log => (log, Ok a).

Definition llift {E A : Type} (m : result A) : logged E A :=
  fun log => (log, m).

Definition emit {E : Type} (e : E) : logged E unit :=
  fun log => (log ++ [e], Ok tt).

Definition lbind {E A B : Type} (m : logged E A) (k : A -> logged E B)
  : logged E B :=
  fun log =>
    match m log with
    | (log', Ok a) => k a log'
    | (log', Throw e) => (log', Throw e)
    end.

Definition lcatch {E A : Type} (body : logged E A)
  (handler : exn -> logged E A) : logged E A :=
  fun log =>
    match body log with
    | (log', Ok a) => (log', Ok a)
    | (log', Throw e) => handler e log'
    end.

Declare Scope logged_scope.
Delimit Scope logged_scope with logged.
Notation "x <- m ;; k" := (lbind m (fun x => k))
  (at level 61, m at next level, right associativity) : logged_scope.
Notation "m ;;; k" := (lbind m (fun _ => k))
  (at level 61, right associativity) : logged_scope.

(** The trace and the outcome, from an empty log. *)
Definition trace {E A : Type} (m : logged E A) : list E := fst (m []).
Definition result_of {E A : Type} (m : logged E A) : result A := snd (m []).

(** ** components/ShareManager.js: generation *)

(** The encoding built-ins. *)
Class Encoder : Type := {
  (** [btoa(s)]: [InvalidCharacterError] on a code unit above 255 *)
  btoa : string -> result string;
  (** [JSON.stringify(v)], for an object [v] *)
  JSON_stringify : value -> result string
}.

(** What [validateEncryptionSettings] returns: [{ isValid: true }], or
    [{ isValid: false, error }]. *)
Inductive settings : Type :=
| SettingsValid
| SettingsInvalid (error : string).

(** What [generateShares] shows. *)
Inductive notice : Type :=
| MnemonicError (first : option Mnemonic.message)
| EncryptionError (error : string)
| GenerateFailed (e : exn)
| SharesGenerated.

(** What [generateShares] does: the calls of [split]; the assignment of
    [currentShares] and [currentThreshold] (with it [encryptedShares] and
    [copiedShares] are emptied); [displayShares]; the alerts. *)
Inductive generation : Type :=
| Split (secretBytes : list Byte.byte) (totalShares threshold : value)
| Store (currentShares : list string) (currentThreshold : value)
| DisplayShares
| Show (n : notice).

(** [new TextEncoder().encode(s)]: UTF-8, one byte for a code unit below
    128 and two for the others of the model. *)
Definition utf8 (s : string) : list Byte.byte :=
  flat_map
    (fun c =>
       let n := nat_of_ascii c in
       if n <? 128 then [byte_of_ascii c]
       else [byte_of_ascii (ascii_of_nat (192 + n / 64));
             byte_of_ascii (ascii_of_nat (128 + n mod 64))])
    (list_ascii_of_string s).

(** [String.fromCharCode(...bytes)] *)
Definition fromCharCodes (bytes : list Byte.byte) : string :=
  string_of_list_ascii (map ascii_of_byte bytes).

(** [array.map((x, index) => f(index, x))], from position [index] on *)
Fixpoint mapiM {A B : Type} (f : nat -> A -> result B) (index : nat)
  (l : list A) : result (list B) :=
  match l with
  | [] => Ok []
  | a :: rest =>
      b <- f index a ;;
      bs <- mapiM f (S index) rest ;;
      Ok (b :: bs)
  end.

(** [{ index: index + 1, threshold, total: totalShares, data }] *)
Definition shareDataLiteral (index : nat) (threshold totalShares : value)
  (data : string) : value :=
  VObject literal_id
    [("index", VNumber (of_nat (index + 1)));
     ("threshold", threshold);
     ("total", totalShares);
     ("data", VString data)].

Section Generation.
Context {P : Platform} {E : Encoder}.

(** [words.join(' ')]: on an array, the strings of the elements, those of
    [undefined] and [null] empty; on anything else [words.join] is no
    function. *)
Definition joinWords (words : value) : result string :=
  match words with
  | VArray _ elements =>
      strings <- mapM (fun x => match x with
                                | VUndefined | VNull => Ok EmptyString
                                | _ => ToString x
                                end) elements ;;
      Ok (join " " strings)
  | _ => Throw TypeError
  end.

(** [btoa(JSON.stringify(shareData))] *)
Definition encodeShareData (shareData : value) : result string :=
  text <- JSON_stringify shareData ;;
  btoa text.

End Generation.

(** [generateShares] of ShareManager.js.  [split] is what awaiting
    [split(secretBytes, totalShares, threshold)] gives: the shares, each a
    [Uint8Array], or what the promise is rejected with. *)
Module Generation.
Section Generate.
Context {P : Platform} {E : Encoder}.
Variable split : list Byte.byte -> value -> value -> result (list (list Byte.byte)).
(** What [this.validateEncryptionSettings()] returns when it is called. *)
Variable encryptionValidation : result settings.

(** The callback of [rawShares.map]. *)
Definition encodeShare (threshold totalShares : value) (index : nat)
  (share : list Byte.byte) : result string :=
  data <- btoa (fromCharCodes share) ;;
  encodeShareData (shareDataLiteral index threshold totalShares data).

Definition generateShares (words totalShares threshold : value)
  : logged generation bool :=
  lcatch
    (validation <- llift (validateMnemonic words) ;;
     if negb (Mnemonic.isValid validation) then
       emit (Show (MnemonicError (hd_error (Mnemonic.errors validation)))) ;;;
       lret false
     else
       encryption <- llift encryptionValidation ;;
       match encryption with
       | SettingsInvalid error =>
           emit (Show (EncryptionError error)) ;;;
           lret false
       | SettingsValid =>
           mnemonic <- llift (joinWords words) ;;
           let secretBytes := utf8 mnemonic in
           emit (Split secretBytes totalShares threshold) ;;;
           rawShares <- llift (split secretBytes totalShares threshold) ;;
           currentShares <- llift (mapiM (encodeShare threshold totalShares)
                                     0 rawShares) ;;
           emit (Store currentShares threshold) ;;;
           emit DisplayShares ;;;
           emit (Show SharesGenerated) ;;;
           lret true
       end)%logged
    (fun error =>
       (emit (Show (GenerateFailed error)) ;;;
        lret false)%logged).

End Generate.
End Generation.

(** ** components/MnemonicInput.js *)

Module MnemonicInput.

(** The record [validateAllInputs] returns; [invalidWordIndex] is [None]
    for -1. *)
Record validation : Type := mkValidation {
  isValid : bool;
  words : list string;
  hasEmpty : bool;
  hasInvalidWord : bool;
  invalidWordIndex : option nat
}.

Section Inputs.
Variable BIP39_WORDLIST : list value.

(** The loop of [validateAllInputs] from position [i] on; [inputs] holds
    [input.value] for the positions that have their element in the page.
    [words] is what was pushed so far. *)
Fixpoint validateFrom (i : nat) (inputs : list (option string))
  (words : list string) : result validation :=
  match inputs with
  | [] => Ok (mkValidation true words false false None)
  | None :: rest => validateFrom (S i) rest words
  | Some inputValue :: rest =>
      let word := trim inputValue in
      if (word =? "")%string
      then Ok (mkValidation false words true false None)
      else
        known <- isValidBIP39Word BIP39_WORDLIST (VString word) ;;
        if negb known
        then Ok (mkValidation false words false true (Some i))
        else validateFrom (S i) rest (words ++ [word])
  end.

(** [validateAllInputs]; the list has [this.wordCount] positions. *)
Definition validateAllInputs (inputs : list (option string))
  : result validation :=
  validateFrom 1 inputs [].

End Inputs.

End MnemonicInput.

(** ** An encoder to run the code on

    [btoa] is the base64 encoding.  [JSON.stringify] prints plain data: a
    property whose value is [undefined] is left out, [undefined] in an
    array and a number that is not finite print as [null], and in a string
    the quote, the backslash and the control characters are escaped. *)
Module ReferenceEncoder.

Definition alphabet : list ascii :=
  list_ascii_of_string
    "ABCDEFGHIJKLMNOPQRSTUVWXYZabcdefghijklmnopqrstuvwxyz0123456789+/".

Definition letter (n : N) : ascii := nth (N.to_nat n) alphabet "="%char.

(** Three octets make four letters; one or two at the end are padded. *)
Fixpoint letters (octets : list N) : list ascii :=
  match octets with
  | a :: b :: c :: rest =>
      let n := (a * 65536 + b * 256 + c)%N in
      letter (n / 262144) :: letter ((n / 4096) mod 64)
        :: letter ((n / 64) mod 64) :: letter (n mod 64) :: letters rest
  | [a; b] =>
      let n := (a * 1024 + b * 4)%N in
      [letter (n / 4096); letter ((n / 64) mod 64); letter (n mod 64);
       "="%char]
  | [a] =>
      let n := (a * 16)%N in
      [letter (n / 64); letter (n mod 64); "="%char; "="%char]
  | [] => []
  end.

Definition btoa (data : string) : result string :=
  Ok (string_of_list_ascii (letters (map N_of_ascii (list_ascii_of_string data)))).

Definition hex (n : nat) : ascii :=
  nth n (list_ascii_of_string "0123456789abcdef") "0"%char.

Definition quote : ascii := ascii_of_nat 34.

Definition escaped (c : ascii) : string :=
  let n := nat_of_ascii c in
  if n =? 34 then String "\" (String quote EmptyString)
  else if n =? 92 then "\\"%string
  else if n =? 8 then "\b"%string
  else if n =? 12 then "\f"%string
  else if n =? 10 then "\n"%string
  else if n =? 13 then "\r"%string
  else if n =? 9 then "\t"%string
  else if n <? 32
  then String "\" (String "u" (String "0" (String "0"
         (String (hex (n / 16)) (String (hex (n mod 16)) EmptyString)))))
  else String c EmptyString.

Fixpoint escape (s : string) : string :=
  match s with
  | EmptyString => EmptyString
  | String c rest => (escaped c ++ escape rest)%string
  end.

Definition quoted (s : string) : string :=
  String quote (escape s ++ String quote EmptyString)%string.

Section Stringify.
Context {P : Platform}.

Definition number_text (n : number) : string :=
  match n with
  | Finite _ => NumberToString n
  | _ => "null"
  end.

(** [None] for what [JSON.stringify] leaves out. *)
Fixpoint stringify (v : value) : option string :=
  match v with
  | VUndefined => None
  | VNull => Some "null"
  | VBool b => Some (if b then "true" else "false")
  | VNumber n => Some (number_text n)
  | VString s => Some (quoted s)
  | VObject _ props =>
      Some ("{"
            ++ join ","
                 ((fix members (l : list (string * value)) : list string :=
                     match l with
                     | [] => []
                     | (k, x) :: rest =>
                         match stringify x with
                         | Some text => (quoted k ++ ":" ++ text) :: members rest
                         | None => members rest
                         end
                     end) props)
            ++ "}")
  | VArray _ elements =>
      Some ("["
            ++ join ","
                 ((fix items (l : list value) : list string :=
                     match l with
                     | [] => []
                     | x :: rest =>
                         match stringify x with
                         | Some text => text :: items rest
                         | None => "null" :: items rest
                         end
                     end) elements)
            ++ "]")
  end%string.

Definition JSON_stringify (v : value) : result string :=
  match stringify v with
  | Some text => Ok text
  | None => Ok "undefined"
  end.

End Stringify.

#[export] Instance encoder : Encoder := {
  btoa := btoa;
  JSON_stringify := JSON_stringify (P := Reference.platform)
}.

End ReferenceEncoder.

(** ** What the properties of the words are stated with *)

(** A word as the checks compare it: trimmed, in small letters. *)
Definition normalised (word : string) : string := toLowerCase (trim word).

Definition blank (word : string) : bool := (trim word =? "")%string.

(** How often [x] occurs in [l]. *)
Definition count (x : string) (l : list string) : nat :=
  count_occ string_dec l x.

(** ** main.js *)

(** What [handleRecoverMnemonic] does with the shares of the active tab:
    the toast of [errors.noValidShares], or the call of
    [recoverMnemonicWithShares]. *)
Inductive recovery : Type :=
| ShowNoValidShares
| RecoverWith (shares : list value) (encryptionPassword : string).

(** What [handleGenerateShares] does: what the share manager does, and
    its own alerts and moves. *)
Inductive appEffect : Type :=
| Manager (g : generation)
| ShowFillAllWords
| ShowInvalidWord (index : option nat)
| FocusInvalidInput (index : option nat)
| ScrollToResult.

(** A call into code with a trace of its own. *)
Definition within {E F A : Type} (f : E -> F) (m : logged E A) : logged F A :=
  fun log => (log ++ map f (fst (m [])), snd (m [])).

Section Main.
Context {P : Platform} {E : Encoder}.
Variable BIP39_WORDLIST : list value.
Variable split : list Byte.byte -> value -> value -> result (list (list Byte.byte)).
Variable encryptionValidation : result settings.

(** [handleGenerateShares]; [inputs] are the word fields, and
    [totalShares] and [threshold] what [parseInt] makes of the two
    selects.  The words go to [generateShares] as an array. *)
Definition handleGenerateShares (inputs : list (option string))
  (totalShares threshold : value) : logged appEffect unit :=
  (validation <- llift (MnemonicInput.validateAllInputs BIP39_WORDLIST inputs) ;;
   if negb (MnemonicInput.isValid validation) then
     if MnemonicInput.hasEmpty validation then emit ShowFillAllWords
     else if MnemonicInput.hasInvalidWord validation then
       emit (ShowInvalidWord (MnemonicInput.invalidWordIndex validation)) ;;;
       emit (FocusInvalidInput (MnemonicInput.invalidWordIndex validation))
     else lret tt
   else
     success <- within Manager
                  (Generation.generateShares split encryptionValidation
                     (VArray literal_id
                        (map VString (MnemonicInput.words validation)))
                     totalShares threshold) ;;
     if success then emit ScrollToResult else lret tt)%logged.

Definition handleRecoverMnemonic (activeTab : RecoveryTab.tab)
  (inputValue : string) (uploadedFiles : list RecoveryTab.fileData)
  : recovery :=
  let shares :=
    RecoveryTab.getCurrentShares activeTab inputValue uploadedFiles in
  (* [getEncryptionPassword] returns [''] *)
  let encryptionPassword := EmptyString in
  if List.length shares =? 0 then ShowNoValidShares
  else RecoverWith shares encryptionPassword.

End Main.

(** ** What the properties of the uploaded files are stated with *)

(** The three checks of [validateFiles] on one file. *)
Definition acceptable (uploadedFiles : list RecoveryTab.fileData)
  (f : RecoveryTab.File) : bool :=
  existsb (String.eqb (RecoveryTab.fileExtension f)) RecoveryTab.validExtensions
  && (RecoveryTab.size f <=? RecoveryTab.maxSize)%N
  && negb (RecoveryTab.alreadyUploaded uploadedFiles f).

(** Every entry marked valid holds a share that [validateShareCollection]
    accepts. *)
Definition sound (uploadedFiles : list RecoveryTab.fileData) : Prop :=
  Forall (fun fd => RecoveryTab.status fd = RecoveryTab.Valid ->
                    is_valid_share (RecoveryTab.shareData fd) = true)
    uploadedFiles.

(** ** What the properties of the generated shares are stated with *)

(** [v] under the identity [id]: a parse of the text of an object gives
    its properties under an identity of its own. *)
Definition with_identity (id : positive) (v : value) : value :=
  match v with
  | VObject _ props => VObject id props
  | _ => v
  end.

Section ExpectedGeneration.
Context {P : Platform} {E : Encoder}.

(** The built-ins take the object [v] back from its encoding: what
    [btoa(JSON.stringify(v))] gives is not empty, and
    [JSON.parse(atob(...))] of it, trimmed, is [v]. *)
Definition round_trips (v : value) : Prop :=
  forall s,
    encodeShareData v = Ok s ->
    s <> EmptyString /\
    exists id, decode (trim s) = Ok (with_identity id v).

End ExpectedGeneration.

(** ** What the properties of the word fields are stated with *)

(** The values of the fields that are in the page, in their order. *)
Definition present (inputs : list (option string)) : list string :=
  flat_map (fun input => match input with
                         | Some inputValue => [inputValue]
                         | None => []
                         end) inputs.

(** A word that is not blank and that the list has, once trimmed and in
    small letters. *)
Definition known (wordList : list value) (word : string) : bool :=
  negb (blank word) && includes wordList (VString (normalised word)).

(** ** More sample data *)

(** What [validateShareCollection] returns on [shares_and_garbage]. *)
Definition shares_and_garbage_result : validation :=
  {| isValid := false;
     validCount := 2;
     threshold := VNumber (Finite 2);
     errors := [InvalidShardFormat 3];
     shareIndices := [VNumber (Finite 1); VNumber (Finite 2)] |}.

(** What it returns on [repeated_then_other]. *)
Definition repeated_then_other_result : validation :=
  {| isValid := false;
     validCount := 3;
     threshold := VNumber (Finite 2);
     errors := [DuplicateIndices];
     shareIndices := [VNumber (Finite 1); VNumber (Finite 2)] |}.

(** A file whose extension is in capitals. *)
Definition capital_gpg : RecoveryTab.File :=
  {| RecoveryTab.name := "share1.GPG";
     RecoveryTab.size := 900;
     RecoveryTab.type := "" |}.

(** A text file that holds [encoded_share]. *)
Definition share_txt : RecoveryTab.File :=
  {| RecoveryTab.name := "share1.txt";
     RecoveryTab.size := 52;
     RecoveryTab.type := "text/plain" |}.

(** A text file that holds a second share of the same set,
    [{"threshold":2,"index":2,"data":"Yg=="}]. *)
Definition share2_txt : RecoveryTab.File :=
  {| RecoveryTab.name := "share2.txt";
     RecoveryTab.size := 52;
     RecoveryTab.type := "text/plain" |}.

Definition encoded_share2 : string :=
  "eyJ0aHJlc2hvbGQiOjIsImluZGV4IjoyLCJkYXRhIjoiWWc9PSJ9".

(** An encrypted file. *)
Definition share_gpg : RecoveryTab.File :=
  {| RecoveryTab.name := "share3.txt.gpg";
     RecoveryTab.size := 700;
     RecoveryTab.type := "" |}.

(** The two text files, uploaded. *)
Definition two_uploaded : list RecoveryTab.fileData :=
  RecoveryTab.processFiles (P := Reference.platform) []
    [(share_txt, Ok (RecoveryTab.Text encoded_share));
     (share2_txt, Ok (RecoveryTab.Text encoded_share2))].

(** The encrypted file, uploaded. *)
Definition gpg_uploaded : list RecoveryTab.fileData :=
  RecoveryTab.processFiles (P := Reference.platform) []
    [(share_gpg, Ok (RecoveryTab.Text armored_message))].

(** Two shares of a 2-of-3 split and a line of noise, as pasted. *)
Definition pasted_with_noise : string :=
  (encoded_share ++ String LF (encoded_share2 ++ String LF " %%% "))%string.

(** What [validateShareCollection] returns on its lines. *)
Definition pasted_with_noise_result : validation :=
  {| isValid := false;
     validCount := 2;
     threshold := VNumber (Finite 2);
     errors := [InvalidShardFormat 3];
     shareIndices := [VNumber (Finite 1); VNumber (Finite 2)] |}.

(** What [validatePasteInput] shows for it. *)
Definition pasted_with_noise_panel : RecoveryTab.panel :=
  {| RecoveryTab.shownClass := RecoveryTab.InsufficientStatus;
     RecoveryTab.shownText :=
       RecoveryTab.InsufficientSharesText (VNumber (Finite 2)) 2;
     RecoveryTab.disabled := true;
     RecoveryTab.assigned := None |}.

(** Three words, the second the first in another case. *)
Definition repeated_word : list string := ["legal"; " Legal "; "winner"].

(** What [validateMnemonic] returns on them. *)
Definition repeated_word_result : Mnemonic.validation :=
  {| Mnemonic.isValid := false;
     Mnemonic.errors := [Mnemonic.DuplicateWords "legal"];
     Mnemonic.duplicates := [VString "legal"] |}.

(** Three different words. *)
Definition three_words : list string := ["legal"; "winner"; "thank"].

Definition three_words_result : Mnemonic.validation :=
  {| Mnemonic.isValid := true;
     Mnemonic.errors := [];
     Mnemonic.duplicates := [] |}.


(** Two words, and a stand-in for the library's [split] that gives three
    shares of them. *)
Definition sample_words : list string := ["abandon"; "ability"].

Definition sample_rawShares : list (list Byte.byte) :=
  [Byte.x01 :: utf8 "abandon ability";
   Byte.x02 :: utf8 "abandon ability";
   Byte.x03 :: utf8 "abandon ability"].

Definition sample_split (secretBytes : list Byte.byte)
  (totalShares threshold : value) : result (list (list Byte.byte)) :=
  Ok [Byte.x01 :: secretBytes; Byte.x02 :: secretBytes;
      Byte.x03 :: secretBytes].
(** * Properties *)

(** ** Values *)

Lemma get_of_truthy (v : value) (key : string) :
  truthy v = true -> get v key = Ok (field v key).
Proof.
  unfold field; destruct v; simpl; intros H; try discriminate H; reflexivity.
Qed.

Lemma number_same_sym (x y : number) : number_same x y = number_same y x.
Proof.
  destruct x, y; simpl; try reflexivity.
  unfold Qeq_bool. apply Z.eqb_sym.
Qed.

Lemma SameValueZero_sym (a b : value) : SameValueZero a b = SameValueZero b a.
Proof.
  destruct a, b; simpl; try reflexivity.
  - destruct b, b0; reflexivity.
  - apply number_same_sym.
  - apply String.eqb_sym.
  - apply Pos.eqb_sym.
  - apply Pos.eqb_sym.
Qed.

Lemma js_ge_not_lt (x y : number) : js_ge x y = true -> js_lt x y = false.
Proof.
  unfold js_ge, js_lt. destruct (number_lt x y) as [[|]|]; simpl; congruence.
Qed.

Lemma js_lt_not_ge (x y : number) : js_lt x y = true -> js_ge x y = false.
Proof.
  unfold js_ge, js_lt. destruct (number_lt x y) as [[|]|]; simpl; congruence.
Qed.

Lemma js_lt_of_nat (m n : nat) : js_lt (of_nat m) (of_nat n) = (m <? n).
Proof.
  unfold js_lt, of_nat, number_lt, Qle_bool. simpl.
  rewrite !Z.mul_1_r.
  destruct (Nat.ltb_spec m n) as [H | H].
  - apply negb_true_iff, Z.leb_gt. lia.
  - apply negb_false_iff, Z.leb_le. lia.
Qed.

(** ** Sets *)

Lemma Set_add_fresh (s : list value) (v : value) :
  Set_has s v = false -> Set_add s v = s ++ [v].
Proof. unfold Set_add. intros ->. reflexivity. Qed.

Lemma Set_has_app (s t : list value) (v : value) :
  Set_has (s ++ t) v = Set_has s v || Set_has t v.
Proof. unfold Set_has. apply existsb_app. Qed.

Lemma fold_Set_add_distinct (l acc : list value) :
  all_distinct l = true ->
  forallb (fun v => negb (Set_has acc v)) l = true ->
  fold_left Set_add l acc = acc ++ l.
Proof.
  revert acc. induction l as [| v rest IH]; intros acc Hd Hf; simpl.
  - now rewrite app_nil_r.
  - simpl in Hd, Hf.
    apply andb_true_iff in Hd as [Hv Hrest].
    apply andb_true_iff in Hf as [Hfv Hfrest].
    apply negb_true_iff in Hv, Hfv.
    rewrite (Set_add_fresh _ _ Hfv), (IH (acc ++ [v]) Hrest).
    + now rewrite <- app_assoc.
    + apply forallb_forall. intros x Hx.
      rewrite Set_has_app. apply negb_true_iff, orb_false_iff. split.
      * rewrite forallb_forall in Hfrest.
        apply negb_true_iff. now apply Hfrest.
      * unfold Set_has. simpl. rewrite orb_false_r, SameValueZero_sym.
        destruct (SameValueZero v x) eqn:E; [| reflexivity].
        assert (existsb (SameValueZero v) rest = true) as Hex
          by (apply existsb_exists; now exists x).
        congruence.
Qed.

Lemma first_occurrences_distinct (l : list value) :
  all_distinct l = true -> first_occurrences l = l.
Proof.
  intros H. unfold first_occurrences.
  rewrite fold_Set_add_distinct; [reflexivity | assumption |].
  apply forallb_forall. intros x _. reflexivity.
Qed.

(** ** Coercions *)

Section CoercionFacts.
Context {P : Platform}.

(** The coercion of a primitive does not throw. *)
Lemma ToNumber_primitive (v : value) :
  is_primitive v = true -> returns (ToNumber v).
Proof.
  destruct v; simpl; intros H; try discriminate H; now eexists.
Qed.

Lemma at_least_not_below (n : nat) (v : value) :
  at_least n v = Ok true -> less_than n v = Ok false.
Proof.
  unfold at_least, less_than.
  destruct (ToNumber v) as [x |]; simpl; [| discriminate].
  intros H. injection H as H. now rewrite (js_ge_not_lt _ _ H).
Qed.

Lemma below_not_at_least (n : nat) (v : value) :
  less_than n v = Ok true -> at_least n v = Ok false.
Proof.
  unfold at_least, less_than.
  destruct (ToNumber v) as [x |]; simpl; [| discriminate].
  intros H. injection H as H. now rewrite (js_lt_not_ge _ _ H).
Qed.

End CoercionFacts.

(** ** validateShareCollection *)

Section ValidationFacts.
Context {P : Platform}.

Lemma try_catch_returns {A : Type} (body : result A) (a : A) :
  returns (try_catch body (fun _ => Ok a)).
Proof. destruct body as [b | e]; simpl; [now exists b | now exists a]. Qed.

Lemma isValidShareFormat_returns (shareString : value) :
  returns (isValidShareFormat shareString).
Proof.
  unfold isValidShareFormat.
  destruct (negb (truthy shareString) || negb (typeof_string shareString)).
  - now exists false.
  - apply try_catch_returns.
Qed.

Lemma parseShareData_returns (shareString : value) :
  returns (parseShareData shareString).
Proof.
  unfold parseShareData.
  destruct (isValidShareFormat_returns shareString) as [valid ->]. simpl.
  destruct (negb valid).
  - now exists VNull.
  - apply try_catch_returns.
Qed.

Lemma shareDataOf_resolved (shareStr : value) :
  shareDataOf shareStr = Ok (resolved shareStr).
Proof.
  unfold resolved.
  assert (returns (shareDataOf shareStr)) as [v ->]; [| reflexivity].
  unfold shareDataOf.
  destruct (typeof_object shareStr && negb (is_null shareStr)).
  - now exists shareStr.
  - apply parseShareData_returns.
Qed.

Lemma accepted_is_valid_share (shareData : value) :
  accepted shareData = Ok (is_valid_share shareData).
Proof.
  unfold accepted, is_valid_share.
  destruct (truthy shareData) eqn:T; [| reflexivity].
  rewrite !(get_of_truthy _ _ T). simpl.
  destruct (truthy (field shareData "threshold")); [| reflexivity].
  simpl. destruct (is_undefined (field shareData "index")); reflexivity.
Qed.

Lemma valid_share_truthy (shareData : value) :
  is_valid_share shareData = true ->
  truthy shareData = true /\ truthy (field shareData "threshold") = true.
Proof.
  unfold is_valid_share. intros H.
  repeat (apply andb_true_iff in H as [H ?]). now split.
Qed.

Lemma validShares_cons (shareStr : value) (rest : list value) :
  validShares (shareStr :: rest) =
  if is_valid_share (resolved shareStr)
  then resolved shareStr :: validShares rest
  else validShares rest.
Proof. reflexivity. Qed.

Lemma validShares_valid (shareStrings : list value) :
  Forall (fun shareData => is_valid_share shareData = true)
    (validShares shareStrings).
Proof.
  apply Forall_forall. intros x Hx.
  unfold validShares in Hx. now apply filter_In in Hx.
Qed.

Lemma visit_collect (st : collected) (index : nat) (shareStr : value) :
  visit st index shareStr = Ok (collect st index [shareStr]).
Proof.
  unfold visit, collect.
  rewrite shareDataOf_resolved. simpl.
  rewrite accepted_is_valid_share. simpl.
  rewrite validShares_cons.
  destruct (is_valid_share (resolved shareStr)) eqn:V; simpl.
  - destruct (valid_share_truthy _ V) as [T Tt].
    rewrite !(get_of_truthy _ _ T). simpl. rewrite Tt.
    now rewrite app_nil_r, Nat.add_1_r.
  - now rewrite !app_nil_r, Nat.add_0_r.
Qed.

Lemma collect_collect (st : collected) (index : nat) (shareStr : value)
  (rest : list value) :
  collect (collect st index [shareStr]) (S index) rest =
  collect st index (shareStr :: rest).
Proof.
  unfold collect. simpl. rewrite !validShares_cons.
  destruct (is_valid_share (resolved shareStr)); simpl;
    rewrite ?app_nil_r, <- ?app_assoc; simpl; f_equal; lia.
Qed.

(** The loop never throws, and leaves [collect] in its variables. *)
Lemma forEach_collect (shareStrings : list value) :
  forall st index,
    forEach st index shareStrings = Ok (collect st index shareStrings).
Proof.
  induction shareStrings as [| shareStr rest IH]; intros st index; simpl.
  - unfold collect. simpl. rewrite !app_nil_r, Nat.add_0_r.
    now destruct st.
  - rewrite visit_collect. simpl. rewrite IH. now rewrite collect_collect.
Qed.

Lemma finalThreshold_expected (shareStrings : list value) :
  finalThreshold (validShares shareStrings)
    (fold_left Set_add (thresholds (validShares shareStrings)) []) =
  Ok (expected_threshold shareStrings).
Proof.
  unfold finalThreshold, expected_threshold.
  pose proof (validShares_valid shareStrings) as Hv.
  destruct (validShares shareStrings) as [| first rest]; [reflexivity |].
  apply Forall_inv in Hv. destruct (valid_share_truthy _ Hv) as [T Tt].
  rewrite !(get_of_truthy _ _ T). simpl. now rewrite Tt.
Qed.

(** The function is its last part, run on what the loop collects and on
    the threshold of the first valid share. *)
Lemma validateShareCollection_eq (shareStrings : list value) :
  validateShareCollection shareStrings =
  finish (collect nothing_collected 0 shareStrings)
    (expected_threshold shareStrings).
Proof.
  unfold validateShareCollection.
  rewrite forEach_collect. simpl.
  rewrite finalThreshold_expected. reflexivity.
Qed.

(** [finish] converts the threshold unless the count is 0, throws when
    that throws, and returns [finished] otherwise. *)
Lemma finish_eq (st : collected) (t : value) :
  finish st t =
  if c_validCount st =? 0 then Ok (finished st t None)
  else x <- ToNumber t ;; Ok (finished st t (Some x)).
Proof.
  unfold finish, finished, less_than, at_least.
  destruct (c_validCount st =? 0) eqn:Hz.
  - cbn [bind]. rewrite andb_false_r.
    assert (forall l : list message, (List.length (l ++ [NoValidShards]) =? 0) = false)
      as Hlen by (intros l; rewrite length_app, Nat.add_1_r; reflexivity).
    destruct (negb _).
    + rewrite length_app, Nat.add_1_r. reflexivity.
    + rewrite Hlen. reflexivity.
  - destruct (ToNumber t) as [x |] eqn:Hx; cbn [bind]; [| reflexivity].
    destruct (js_lt (of_nat (c_validCount st)) x); cbn [bind];
      destruct (negb _);
      match goal with
      | |- context [List.length ?l =? 0] => destruct (List.length l =? 0)
      end; cbn [bind andb]; reflexivity.
Qed.

Lemma formatErrors_In (shareStrings : list value) :
  forall index m,
    In m (formatErrors index shareStrings) ->
    exists line, m = InvalidShardFormat line.
Proof.
  induction shareStrings as [| shareStr rest IH]; intros index m H; simpl in H.
  - contradiction.
  - apply in_app_or in H as [H | H].
    + destruct (is_valid_share (resolved shareStr)); simpl in H.
      * contradiction.
      * destruct H as [<- | []]. now eexists.
    + now apply IH in H.
Qed.

Lemma formatErrors_all_valid (shareStrings : list value) :
  forall index,
    Forall (fun shareStr => is_valid_share (resolved shareStr) = true)
      shareStrings ->
    formatErrors index shareStrings = [].
Proof.
  induction shareStrings as [| shareStr rest IH]; intros index H; simpl.
  - reflexivity.
  - inversion H as [| ? ? Hs Hrest]; subst. rewrite Hs. simpl. now apply IH.
Qed.

Lemma formatErrors_line (shareStrings : list value) :
  forall index i shareStr,
    nth_error shareStrings i = Some shareStr ->
    is_valid_share (resolved shareStr) = false ->
    In (InvalidShardFormat (index + i + 1)) (formatErrors index shareStrings).
Proof.
  induction shareStrings as [| s rest IH]; intros index i shareStr Hn Hv.
  - destruct i; discriminate Hn.
  - simpl. apply in_or_app. destruct i as [| i]; simpl in Hn.
    + injection Hn as ->. rewrite Hv. left. rewrite Nat.add_0_r. now left.
    + right. replace (index + S i + 1) with (S index + i + 1) by lia.
      now apply IH with (shareStr := shareStr).
Qed.

End ValidationFacts.

Section ValidationResults.
Context {P : Platform}.

(** A returned record is [finished], on what the loop collects from the
    input and its expected threshold. *)
Lemma validateShareCollection_Ok (shareStrings : list value) (r : validation) :
  validateShareCollection shareStrings = Ok r ->
  let st := collect nothing_collected 0 shareStrings in
  let t := expected_threshold shareStrings in
  (validShares shareStrings = [] /\ r = finished st t None) \/
  (validShares shareStrings <> [] /\
   exists x, ToNumber t = Ok x /\ r = finished st t (Some x)).
Proof.
  rewrite validateShareCollection_eq, finish_eq. cbn [collect c_validCount
    nothing_collected Nat.add]. intros H.
  destruct (validShares shareStrings) as [| first rest] eqn:Hs; simpl in H.
  - left. injection H as <-. now split.
  - right. split; [discriminate |].
    destruct (ToNumber (expected_threshold shareStrings)) as [x |];
      simpl in H; [| discriminate H].
    injection H as <-. now exists x.
Qed.

(** It throws exactly when there is a valid share and the threshold of the
    first one does not convert to a number. *)
Lemma validateShareCollection_Throw (shareStrings : list value) (e : exn) :
  validateShareCollection shareStrings = Throw e <->
  validShares shareStrings <> [] /\
  ToNumber (expected_threshold shareStrings) = Throw e.
Proof.
  rewrite validateShareCollection_eq, finish_eq. cbn [collect c_validCount
    nothing_collected Nat.add].
  destruct (validShares shareStrings) as [| first rest] eqn:Hs; simpl.
  - split; [discriminate | intros [H _]; now elim H].
  - destruct (ToNumber (expected_threshold shareStrings)) as [x |]; simpl.
    + split; [discriminate | intros [_ H]; discriminate H].
    + split.
      * intros H. injection H as ->. split; [discriminate | reflexivity].
      * intros [_ H]. injection H as ->. reflexivity.
Qed.

(** With a primitive threshold in the first valid share (or no valid
    share) a record is returned, and every input that is not a valid share
    has its line among the errors. *)
Lemma validateShareCollection_returns (shareStrings : list value) :
  is_primitive (expected_threshold shareStrings) = true ->
  exists r,
    validateShareCollection shareStrings = Ok r /\
    forall i shareStr,
      nth_error shareStrings i = Some shareStr ->
      is_valid_share (resolved shareStr) = false ->
      In (InvalidShardFormat (i + 1)) (errors r).
Proof.
  intros Hp. rewrite validateShareCollection_eq, finish_eq.
  destruct (ToNumber_primitive _ Hp) as [x ->]. cbn [bind].
  assert (forall y i shareStr,
             nth_error shareStrings i = Some shareStr ->
             is_valid_share (resolved shareStr) = false ->
             In (InvalidShardFormat (i + 1))
               (errors (finished (collect nothing_collected 0 shareStrings)
                          (expected_threshold shareStrings) y))) as Hlines.
  { intros y i shareStr Hn Hv.
    pose proof (formatErrors_line shareStrings 0 i shareStr Hn Hv) as Hin.
    unfold finished. cbn [errors collect c_errors nothing_collected app].
    simpl in Hin.
    destruct (negb _); [apply in_or_app; left |];
      (destruct y as [y |]; [destruct (js_lt _ y) |]);
      try (apply in_or_app; left); exact Hin. }
  destruct (c_validCount _ =? 0); eexists; (split; [reflexivity | apply Hlines]).
Qed.

Lemma finished_duplicate (st : collected) (t : value) (x : option number) :
  (forall m, In m (c_errors st) -> m <> DuplicateIndices) ->
  In DuplicateIndices (errors (finished st t x)) <->
  List.length (c_shareIndices st) <> c_validCount st.
Proof.
  intros Hclean. unfold finished. cbn [errors].
  set (errors1 := match x with
                  | None => c_errors st ++ [NoValidShards]
                  | Some y =>
                      if js_lt (of_nat (c_validCount st)) y
                      then c_errors st ++ [ShardsRequired t (c_validCount st)]
                      else c_errors st
                  end).
  assert (~ In DuplicateIndices errors1) as Hno.
  { subst errors1. intros Hin.
    destruct x as [y |]; [destruct (js_lt _ y) |];
      try apply in_app_or in Hin as [Hin | [Hin | []]];
      try discriminate Hin; now apply Hclean in Hin. }
  destruct (Nat.eqb_spec (List.length (c_shareIndices st)) (c_validCount st))
    as [E | E]; simpl.
  - split; [intros H; now elim Hno | intros H; now elim H].
  - split; [intros _; exact E |].
    intros _. apply in_or_app. right. now left.
Qed.

(** C1, as the code has it: in a returned record [validCount] is the
    number of inputs that are valid shares, a repeated index counted every
    time it occurs; [shareIndices] holds each index once, in order of first
    occurrence; and the duplicate error is there exactly when the two sizes
    differ. *)
Theorem validCount_counts_every_valid_share (shareStrings : list value)
  (r : validation) :
  validateShareCollection shareStrings = Ok r ->
  validCount r = List.length (validShares shareStrings) /\
  shareIndices r = first_occurrences (indices (validShares shareStrings)) /\
  (In DuplicateIndices (errors r) <->
   List.length (shareIndices r) <> validCount r).
Proof.
  intros H.
  assert (exists x,
             r = finished (collect nothing_collected 0 shareStrings)
                   (expected_threshold shareStrings) x) as [x ->].
  { apply validateShareCollection_Ok in H as [[_ ->] | [_ (x & _ & ->)]];
      now eexists. }
  split; [reflexivity |]. split; [reflexivity |].
  apply finished_duplicate.
  cbn [collect c_errors nothing_collected app].
  intros m Hm. apply formatErrors_In in Hm as [line ->]. discriminate.
Qed.

(** C4, as the code has it: when [validCount] is below the threshold the
    set is invalid; unless [validCount] is 0 the shards-required message
    is there with that threshold and that count; when it is 0 the
    no-valid-shards message is there and no shards-required message. *)
Theorem insufficient_shares_reported (shareStrings : list value)
  (r : validation) :
  validateShareCollection shareStrings = Ok r ->
  less_than (validCount r) (threshold r) = Ok true ->
  isValid r = false /\
  (validCount r <> 0 ->
   In (ShardsRequired (threshold r) (validCount r)) (errors r)) /\
  (validCount r = 0 ->
   In NoValidShards (errors r) /\
   forall t n, ~ In (ShardsRequired t n) (errors r)).
Proof.
  intros H.
  apply validateShareCollection_Ok in H as [[Hs ->] | [Hs (x & Hx & ->)]];
    unfold finished;
    cbn [validCount threshold errors isValid collect c_errors c_validCount
           c_shareIndices nothing_collected app Nat.add];
    intros Hlt.
  - rewrite andb_false_r. split; [reflexivity |]. split.
    + rewrite Hs. intros Hn. now elim Hn.
    + intros _. split.
      * destruct (negb _).
        -- apply in_or_app. left. apply in_or_app. right. now left.
        -- apply in_or_app. right. now left.
      * intros t n Hin.
        assert (In (ShardsRequired t n)
                  (formatErrors 0 shareStrings ++ [NoValidShards; DuplicateIndices]))
          as Hin'.
        { destruct (negb _).
          - rewrite <- app_assoc in Hin. exact Hin.
          - apply in_app_or in Hin as [Hin | Hin].
            + apply in_or_app. now left.
            + apply in_or_app. right. destruct Hin as [<- | []]. now left. }
        apply in_app_or in Hin' as [Hf | Hf].
        -- apply formatErrors_In in Hf as [line Hf]. discriminate Hf.
        -- destruct Hf as [Hf | [Hf | []]]; discriminate Hf.
  - unfold less_than in Hlt. rewrite Hx in Hlt. cbn [bind] in Hlt.
    injection Hlt as Hlt. rewrite Hlt, (js_lt_not_ge _ _ Hlt), andb_false_r.
    split; [reflexivity |]. split.
    + intros _. destruct (negb _).
      * apply in_or_app. left. apply in_or_app. right. now left.
      * apply in_or_app. right. now left.
    + intros Hz. destruct (validShares shareStrings); [now elim Hs | discriminate Hz].
Qed.

(** C5, as the code has it: a set with [validCount] at or above the
    threshold and no repeated index is valid provided every input is a
    valid share; with a rejected input in the list it is not. *)
Theorem valid_when_enough_distinct_and_clean (shareStrings : list value)
  (r : validation) :
  validateShareCollection shareStrings = Ok r ->
  at_least (validCount r) (threshold r) = Ok true ->
  all_distinct (indices (validShares shareStrings)) = true ->
  Forall (fun shareStr => is_valid_share (resolved shareStr) = true)
    shareStrings ->
  isValid r = true.
Proof.
  intros H.
  apply validateShareCollection_Ok in H as [[Hs ->] | [Hs (x & Hx & ->)]];
    unfold finished;
    cbn [validCount threshold errors isValid collect c_errors c_validCount
           c_shareIndices nothing_collected app Nat.add];
    intros Hge Hdistinct Hclean.
  - exfalso. unfold expected_threshold in Hge. rewrite Hs in Hge.
    discriminate Hge.
  - unfold at_least in Hge. rewrite Hx in Hge. cbn [bind] in Hge.
    injection Hge as Hge. rewrite Hge, (js_ge_not_lt _ _ Hge), andb_true_r.
    fold (first_occurrences (indices (validShares shareStrings))).
    rewrite (first_occurrences_distinct _ Hdistinct).
    unfold indices at 1. rewrite length_map, Nat.eqb_refl. cbn [negb].
    now rewrite (formatErrors_all_valid _ 0 Hclean).
Qed.

(** A share is accepted only with a truthy threshold, so the first
    accepted share always has one, and the threshold returned is that one;
    the most-frequent branch is not taken. *)
Theorem first_valid_share_gives_threshold (shareStrings : list value)
  (r : validation) (first : value) (rest : list value) :
  validateShareCollection shareStrings = Ok r ->
  validShares shareStrings = first :: rest ->
  truthy (field first "threshold") = true /\
  threshold r = field first "threshold".
Proof.
  intros H Hshares. split.
  - pose proof (validShares_valid shareStrings) as Hv.
    rewrite Hshares in Hv. apply Forall_inv in Hv.
    now apply valid_share_truthy in Hv.
  - apply validateShareCollection_Ok in H as [[_ ->] | [_ (x & _ & ->)]];
      cbn [finished threshold]; unfold expected_threshold;
      now rewrite Hshares.
Qed.

(** C8: the loop leaves the valid shares of the input in [validShareData];
    the threshold determined from them is that of the first valid share,
    or 3 when there is none, and so is the threshold of every record
    returned.  The guard of the first branch holds whenever a valid share
    exists, and without one there is no candidate either: the branch that
    picks the most frequent candidate is never taken. *)
Theorem threshold_first_valid_or_default (shareStrings : list value) :
  exists st,
    forEach nothing_collected 0 shareStrings = Ok st /\
    c_validShareData st = validShares shareStrings /\
    finalThreshold (c_validShareData st) (c_thresholdCandidates st) =
      Ok match validShares shareStrings with
         | [] => VNumber (Finite 3)
         | first :: _ => field first "threshold"
         end /\
    match c_validShareData st with
    | [] => c_thresholdCandidates st = []
    | first :: _ => truthy (field first "threshold") = true
    end /\
    forall r,
      validateShareCollection shareStrings = Ok r ->
      threshold r =
        match validShares shareStrings with
        | [] => VNumber (Finite 3)
        | first :: _ => field first "threshold"
        end.
Proof.
  rewrite forEach_collect. eexists. split; [reflexivity |].
  cbn [c_validShareData c_thresholdCandidates collect nothing_collected app].
  split; [reflexivity |]. split; [apply finalThreshold_expected |]. split.
  - pose proof (validShares_valid shareStrings) as Hv.
    destruct (validShares shareStrings) as [| first rest]; [reflexivity |].
    apply Forall_inv in Hv. now apply valid_share_truthy in Hv.
  - intros r H.
    apply validateShareCollection_Ok in H as [[_ ->] | [_ (x & _ & ->)]];
      reflexivity.
Qed.

End ValidationResults.

(** C1 as stated fails: two valid shares with the same index are both
    counted, while one index is recorded. *)
Lemma repeated_index_counted_twice :
  match validateShareCollection (P := Reference.platform) same_index_twice with
  | Ok r =>
      validCount r = 2 /\
      List.length
        (first_occurrences
           (indices (validShares (P := Reference.platform) same_index_twice))) = 1 /\
      errors r = [DuplicateIndices]
  | Throw _ => False
  end.
Proof. vm_compute. repeat split. Qed.

Lemma validCount_counts_every_valid_share_witness :
  validateShareCollection (P := Reference.platform) same_index_twice
  = Ok same_index_twice_result /\
  validCount same_index_twice_result = 2 /\
  In DuplicateIndices (errors same_index_twice_result).
Proof.
  assert (validateShareCollection (P := Reference.platform) same_index_twice
          = Ok same_index_twice_result) as H1 by reflexivity.
  split; [exact H1 |].
  destruct (validCount_counts_every_valid_share same_index_twice
              same_index_twice_result H1) as (Hc & _ & Hd).
  split; [exact Hc |]. apply Hd. simpl. discriminate.
Defined.

(** C4 as stated fails: with no input, 0 is below the threshold 3 and the
    only message is the no-valid-shards one. *)
Lemma no_shares_not_reported_insufficient :
  match validateShareCollection (P := Reference.platform) [] with
  | Ok r =>
      less_than (P := Reference.platform) (validCount r) (threshold r)
      = Ok true /\
      errors r = [NoValidShards] /\
      ~ In (ShardsRequired (threshold r) (validCount r)) (errors r)
  | Throw _ => False
  end.
Proof.
  vm_compute. repeat split. intros [H | []]. discriminate H.
Qed.

Lemma insufficient_shares_reported_witness :
  validateShareCollection (P := Reference.platform) one_of_three
  = Ok one_of_three_result /\
  less_than (P := Reference.platform) (validCount one_of_three_result)
    (threshold one_of_three_result) = Ok true /\
  In (ShardsRequired (VNumber (Finite 3)) 1) (errors one_of_three_result).
Proof.
  assert (validateShareCollection (P := Reference.platform) one_of_three
          = Ok one_of_three_result) as H1 by reflexivity.
  assert (less_than (P := Reference.platform) (validCount one_of_three_result)
            (threshold one_of_three_result) = Ok true) as H2 by reflexivity.
  split; [exact H1 |]. split; [exact H2 |].
  apply (insufficient_shares_reported one_of_three one_of_three_result H1 H2).
  simpl. discriminate.
Defined.

(** C5 as stated fails: two valid shares of threshold 2 and a line that
    is not base64 give enough shares and no repeated index, and an invalid
    set. *)
Lemma enough_distinct_yet_invalid :
  match validateShareCollection (P := Reference.platform) shares_and_garbage with
  | Ok r =>
      at_least (P := Reference.platform) (validCount r) (threshold r)
      = Ok true /\
      all_distinct
        (indices (validShares (P := Reference.platform) shares_and_garbage)) = true /\
      isValid r = false
  | Throw _ => False
  end.
Proof. vm_compute. repeat split. Qed.

Lemma valid_when_enough_distinct_and_clean_witness :
  validateShareCollection (P := Reference.platform) three_shares
  = Ok three_shares_result /\
  isValid three_shares_result = true.
Proof.
  assert (validateShareCollection (P := Reference.platform) three_shares
          = Ok three_shares_result) as H1 by reflexivity.
  split; [exact H1 |].
  apply (valid_when_enough_distinct_and_clean three_shares three_shares_result H1).
  - reflexivity.
  - reflexivity.
  - repeat constructor.
Defined.


Lemma first_valid_share_gives_threshold_witness :
  validateShareCollection (P := Reference.platform) threshold_missing_first
  = Ok threshold_missing_first_result /\
  threshold threshold_missing_first_result = VNumber (Finite 5).
Proof.
  assert (validateShareCollection (P := Reference.platform)
            threshold_missing_first
          = Ok threshold_missing_first_result) as H1 by reflexivity.
  split; [exact H1 |].
  apply (first_valid_share_gives_threshold threshold_missing_first
           threshold_missing_first_result (envelope 12 2 5 5 "YmI=")
           [envelope 13 3 3 5 "Y2M="; envelope 14 4 3 5 "ZGQ="] H1).
  reflexivity.
Defined.

(** C10 fails on the code: a line that decodes to a share whose threshold
    is an object with an own [toString] is a valid share, and the
    comparison of the count with that threshold throws a [TypeError] out of
    [validateShareCollection]. *)
Theorem validateShareCollection_throws_on_object_threshold :
  isValidShareFormat (P := Reference.platform)
    (VString share_with_object_threshold) = Ok true /\
  validateShareCollection (P := Reference.platform)
    [VString share_with_object_threshold] = Throw TypeError.
Proof. vm_compute. split; reflexivity. Qed.

(** ** parseShareContent *)

Section RecoveryTabManagerFacts.
Context {P : Platform}.

Lemma armorOrShare_falls_through (text : string) :
  startsWith text MARKER = false ->
  decodes_to_share text = false ->
  try_catch (armorOrShare text) (fun _ => Ok FallThrough) = Ok FallThrough.
Proof.
  unfold armorOrShare, decodes_to_share. intros -> H.
  destruct (atob text) as [decoded |]; simpl in *; [| reflexivity].
  destruct (JSON_parse decoded) as [shareData |]; simpl in *; [| reflexivity].
  destruct (isShare shareData) as [ok |]; simpl in *; [| reflexivity].
  now subst ok.
Qed.

Lemma tryLines_fall_through (lines : list string) :
  Forall (fun line => startsWith line MARKER = false /\
                      decodes_to_share line = false) lines ->
  tryLines lines = Ok FallThrough.
Proof.
  induction 1 as [| line rest [Hm Hd] _ IH]; simpl; [reflexivity |].
  now rewrite (armorOrShare_falls_through line Hm Hd).
Qed.

Lemma isShare_object (shareData : value) :
  isShare shareData = Ok true -> exists id props, shareData = VObject id props.
Proof.
  unfold isShare. destruct shareData; simpl; try discriminate.
  intros _. now eexists _, _.
Qed.

Lemma armorOrShare_object (text : string) (v : value) :
  try_catch (armorOrShare text) (fun _ => Ok FallThrough) = Ok (Return v) ->
  exists id props, v = VObject id props.
Proof.
  unfold armorOrShare.
  destruct (startsWith text MARKER).
  - simpl. intros H. injection H as <-. now eexists _, _.
  - destruct (atob text) as [decoded |]; simpl; [| discriminate].
    destruct (JSON_parse decoded) as [shareData |]; simpl; [| discriminate].
    destruct (isShare shareData) as [[|] |] eqn:Hs; simpl; try discriminate.
    intros H. injection H as <-. now apply isShare_object.
Qed.

Lemma tryLines_object (lines : list string) (v : value) :
  tryLines lines = Ok (Return v) -> exists id props, v = VObject id props.
Proof.
  induction lines as [| line rest IH]; simpl; [discriminate |].
  destruct (try_catch (armorOrShare line) (fun _ => Ok FallThrough))
    as [[w |] |] eqn:Hl; simpl; try discriminate.
  - intros H. injection H as <-. now apply armorOrShare_object in Hl.
  - exact IH.
Qed.

(** [parseShareContent] returns an object on every text: never [null],
    never a primitive, and it never throws. *)
Lemma parseShareContent_returns_object (content : string) :
  exists id props, parseShareContent content = Ok (VObject id props).
Proof.
  unfold parseShareContent, trySingleLine.
  destruct (try_catch (armorOrShare (trim content)) (fun _ => Ok FallThrough))
    as [[v |] |] eqn:H1; simpl.
  - apply armorOrShare_object in H1 as (id & props & ->). now eexists _, _.
  - destruct (tryLines (nonEmptyLines content)) as [[v |] |] eqn:H2; simpl.
    + apply tryLines_object in H2 as (id & props & ->). now eexists _, _.
    + now eexists _, _.
    + now eexists _, _.
  - now eexists _, _.
Qed.

(** C3: a text that starts, once trimmed, with the armor marker is
    classified as encrypted, whatever the decoders would make of it: the
    marker is tested before any decode. *)
Theorem armor_marker_checked_first (content : string) :
  startsWith (trim content) MARKER = true ->
  parseShareContent content = Ok (encryptedBlob (VString (trim content))).
Proof.
  unfold parseShareContent, trySingleLine, armorOrShare.
  intros ->. reflexivity.
Qed.

(** C9, as the code has it: when the trimmed text does not start with the
    marker and does not decode to a share as a whole, and no line of it
    starts with the marker or decodes to a share, the result is the
    encrypted blob of the trimmed text. *)
Theorem undecodable_content_is_encrypted (content : string) :
  startsWith (trim content) MARKER = false ->
  decodes_to_share (trim content) = false ->
  Forall (fun line => startsWith line MARKER = false /\
                      decodes_to_share line = false)
    (nonEmptyLines content) ->
  parseShareContent content = Ok (encryptedBlob (VString (trim content))).
Proof.
  intros Hm Hd Hlines. unfold parseShareContent, trySingleLine.
  rewrite (armorOrShare_falls_through _ Hm Hd). simpl.
  now rewrite (tryLines_fall_through _ Hlines).
Qed.

End RecoveryTabManagerFacts.

Lemma armor_marker_checked_first_witness :
  startsWith (trim armored_message) MARKER = true /\
  decodes_to_share (P := decodes_everything) (trim armored_message) = true /\
  parseShareContent (P := decodes_everything) armored_message
  = Ok (encryptedBlob (VString (trim armored_message))).
Proof.
  assert (startsWith (trim armored_message) MARKER = true) as H by reflexivity.
  split; [exact H |]. split; [reflexivity |].
  exact (armor_marker_checked_first (P := decodes_everything) armored_message H).
Defined.

(** C9 as stated fails: the text does not start with the marker and none
    of its lines decodes, yet what is returned holds its second line, not
    the trimmed text. *)
Lemma armor_on_later_line_returned_alone :
  startsWith (trim armor_on_second_line) MARKER = false /\
  decodes_to_share (P := Reference.platform) (trim armor_on_second_line) = false /\
  existsb (decodes_to_share (P := Reference.platform))
    (nonEmptyLines armor_on_second_line) = false /\
  parseShareContent (P := Reference.platform) armor_on_second_line
  = Ok (encryptedBlob (VString MARKER)) /\
  encryptedBlob (VString MARKER)
  <> encryptedBlob (VString (trim armor_on_second_line)).
Proof. vm_compute. repeat split. discriminate. Qed.

(** The same with a share wrapped over two lines: no line decodes, the
    whole does, and the share is returned. *)
Lemma wrapped_share_decoded_whole :
  startsWith (trim wrapped_share) MARKER = false /\
  existsb (decodes_to_share (P := Reference.platform))
    (nonEmptyLines wrapped_share) = false /\
  parseShareContent (P := Reference.platform) wrapped_share
  = Ok (VObject 2
          [("threshold", VNumber (Finite 2));
           ("index", VNumber (Finite 1));
           ("data", VString "YQ==")]).
Proof. vm_compute. repeat split. Qed.

Lemma undecodable_content_is_encrypted_witness :
  startsWith (trim plain_note) MARKER = false /\
  decodes_to_share (P := Reference.platform) (trim plain_note) = false /\
  parseShareContent (P := Reference.platform) plain_note
  = Ok (encryptedBlob (VString "remember the milk")).
Proof.
  assert (startsWith (trim plain_note) MARKER = false) as H1 by reflexivity.
  assert (decodes_to_share (P := Reference.platform) (trim plain_note) = false)
    as H2 by reflexivity.
  split; [exact H1 |]. split; [exact H2 |].
  apply (undecodable_content_is_encrypted (P := Reference.platform)
           plain_note H1 H2).
  repeat constructor.
Defined.

(** ** Reconstruction *)

Lemma mapM_length {A B : Type} (f : A -> result B) (l : list A) :
  forall bs, mapM f l = Ok bs -> List.length bs = List.length l.
Proof.
  induction l as [| a rest IH]; simpl; intros bs H.
  - injection H as <-. reflexivity.
  - destruct (f a) as [b |]; simpl in H; [| discriminate H].
    destruct (mapM f rest) as [bs' |]; simpl in H; [| discriminate H].
    injection H as <-. simpl. f_equal. now apply IH.
Qed.

Section ShareManagerFacts.
Context {P : Platform}.
Variable combine : shares_arg -> result combined.

Lemma slice_end_of_nat (len n : nat) :
  slice_end len (VNumber (of_nat n)) = Ok (Nat.min n len).
Proof.
  unfold slice_end, of_nat. simpl. rewrite Z.quot_1_r.
  destruct (Z.ltb_spec (Z.of_nat n) 0) as [H | _]; [lia |].
  now rewrite Nat2Z.id.
Qed.

Lemma thresholdOf_of_nat (validShareData : list value) (n : nat) :
  validShareData <> [] ->
  get (first_of validShareData) "threshold" = Ok (VNumber (of_nat n)) ->
  n <= List.length validShareData ->
  thresholdOf validShareData = Ok (VNumber (of_nat n)).
Proof.
  intros Hne Hget Hle. unfold thresholdOf.
  destruct (Nat.eqb_spec (List.length validShareData) 0) as [Hz | _].
  - destruct validShareData; [now elim Hne | discriminate Hz].
  - rewrite Hget. cbn [bind]. unfold less_than. cbn [ToNumber bind].
    rewrite js_lt_of_nat.
    now rewrite (proj2 (Nat.ltb_ge _ _) Hle).
Qed.

Lemma payloadStrings_of_nat (validShareData : list value) (n : nat) :
  n <= List.length validShareData ->
  payloadStrings validShareData (VNumber (of_nat n)) =
  mapM payloadString (firstn n validShareData).
Proof.
  intros Hle. unfold payloadStrings, slice0.
  rewrite slice_end_of_nat. cbn [bind]. now rewrite Nat.min_l.
Qed.

(** The calls of the revision with the fallback, once the payloads are
    decoded. *)
Lemma reconstruct_calls (validShareData : list value) (threshold : value)
  (ps : list string) :
  thresholdOf validShareData = Ok threshold ->
  payloadStrings validShareData threshold = Ok ps ->
  calls (ShareManagerStringFirst.reconstruct combine validShareData) =
  StringShares ps ::
    match combine (StringShares ps) with
    | Ok _ => []
    | Throw _ => [ByteShares (map toBytes ps)]
    end.
Proof.
  intros Ht Hp.
  unfold calls, ShareManagerStringFirst.reconstruct,
    ShareManagerStringFirst.combineStringsThenBytes,
    tbind, tlift, tcatch, call_combine.
  rewrite Ht, Hp. simpl.
  destruct (combine (StringShares ps)); reflexivity.
Qed.

(** C7, as the code has it: once the payloads are decoded, [combine] is
    called with the strings; it is called with the bytes exactly when that
    first call throws, whatever it throws. *)
Theorem bytes_call_exactly_when_strings_call_throws
  (validShareData : list value) (threshold : value) (ps : list string) :
  thresholdOf validShareData = Ok threshold ->
  payloadStrings validShareData threshold = Ok ps ->
  calls (ShareManagerStringFirst.reconstruct combine validShareData) =
  match combine (StringShares ps) with
  | Ok _ => [StringShares ps]
  | Throw _ => [StringShares ps; ByteShares (map toBytes ps)]
  end.
Proof.
  intros Ht Hp. rewrite (reconstruct_calls _ _ _ Ht Hp).
  destruct (combine (StringShares ps)); reflexivity.
Qed.

(** When the call with strings throws, the outcome is that of the call
    with bytes. *)
Lemma reconstruct_outcome (validShareData : list value) (threshold : value)
  (ps : list string) :
  thresholdOf validShareData = Ok threshold ->
  payloadStrings validShareData threshold = Ok ps ->
  outcome (ShareManagerStringFirst.reconstruct combine validShareData) =
  match combine (StringShares ps) with
  | Ok c => Ok c
  | Throw _ => combine (ByteShares (map toBytes ps))
  end.
Proof.
  intros Ht Hp.
  unfold outcome, ShareManagerStringFirst.reconstruct,
    ShareManagerStringFirst.combineStringsThenBytes,
    tbind, tlift, tcatch, call_combine.
  rewrite Ht, Hp. simpl.
  destruct (combine (StringShares ps)); reflexivity.
Qed.

(** Without a threshold or without decoded payloads, no call is made. *)
Lemma no_call_without_payloads (validShareData : list value) :
  (forall threshold ps,
      thresholdOf validShareData = Ok threshold ->
      payloadStrings validShareData threshold = Ok ps -> False) ->
  calls (ShareManagerStringFirst.reconstruct combine validShareData) = [].
Proof.
  intros H.
  unfold calls, ShareManagerStringFirst.reconstruct, tbind, tlift.
  destruct (thresholdOf validShareData) as [threshold |]; [| reflexivity].
  destruct (payloadStrings validShareData threshold) as [ps |] eqn:Hp;
    [| reflexivity].
  elim (H threshold ps eq_refl Hp).
Qed.

(** C2, as the code has it: with the threshold [n] of the first envelope,
    the payloads handed to [combine] are those of the first [n] envelopes
    in the order they arrived: strings first in one revision, bytes at
    once in the other. *)
Theorem payloads_in_arrival_order (validShareData : list value) (n : nat)
  (ps : list string) :
  validShareData <> [] ->
  get (first_of validShareData) "threshold" = Ok (VNumber (of_nat n)) ->
  n <= List.length validShareData ->
  mapM payloadString (firstn n validShareData) = Ok ps ->
  List.length ps = n /\
  hd_error (calls (ShareManagerStringFirst.reconstruct combine validShareData))
  = Some (StringShares ps) /\
  calls (ShareManager.reconstruct combine validShareData)
  = [ByteShares (map toBytes ps)].
Proof.
  intros Hne Hget Hle Hps.
  pose proof (thresholdOf_of_nat _ _ Hne Hget Hle) as Ht.
  pose proof (payloadStrings_of_nat _ _ Hle) as Hp. rewrite Hps in Hp.
  split; [| split].
  - rewrite (mapM_length _ _ _ Hps). now apply firstn_length_le.
  - now rewrite (reconstruct_calls _ _ _ Ht Hp).
  - unfold calls, ShareManager.reconstruct, tbind, tlift, call_combine.
    rewrite Ht, Hp. reflexivity.
Qed.

End ShareManagerFacts.

(** C2 as stated fails: with index 2 arriving before index 1, the payloads
    are handed over in that order; the selection by ascending index starts
    with the other one. *)
Lemma arrival_order_not_index_order :
  calls (ShareManagerStringFirst.reconstruct (P := Reference.platform)
           bytes_only_combine second_then_first)
  = [StringShares ["bb"; "aa"]; ByteShares (map toBytes ["bb"; "aa"])] /\
  calls (ShareManager.reconstruct (P := Reference.platform)
           bytes_only_combine second_then_first)
  = [ByteShares (map toBytes ["bb"; "aa"])] /\
  mapM (payloadString (P := Reference.platform))
    (specified_selection (P := Reference.platform) 2 second_then_first)
  = Ok ["aa"; "bb"].
Proof. vm_compute. repeat split. Qed.

(** Nor is a repeated index left out: both envelopes of index 1 are handed
    over, where the selection of one envelope per index has indices 1
    and 2. *)
Lemma repeated_index_handed_over :
  calls (ShareManagerStringFirst.reconstruct (P := Reference.platform)
           bytes_only_combine repeated_then_other)
  = [StringShares ["aa"; "bb"]; ByteShares (map toBytes ["aa"; "bb"])] /\
  mapM (payloadString (P := Reference.platform))
    (specified_selection (P := Reference.platform) 2 repeated_then_other)
  = Ok ["aa"; "cc"].
Proof. vm_compute. repeat split. Qed.

Lemma payloads_in_arrival_order_witness :
  three_shares <> [] /\
  get (first_of three_shares) "threshold" = Ok (VNumber (of_nat 2)) /\
  2 <= List.length three_shares /\
  mapM (payloadString (P := Reference.platform)) (firstn 2 three_shares)
  = Ok ["aa"; "bb"] /\
  hd_error
    (calls (ShareManagerStringFirst.reconstruct (P := Reference.platform)
              bytes_only_combine three_shares))
  = Some (StringShares ["aa"; "bb"]) /\
  calls (ShareManager.reconstruct (P := Reference.platform)
           bytes_only_combine three_shares)
  = [ByteShares (map toBytes ["aa"; "bb"])].
Proof.
  assert (three_shares <> []) as H1 by discriminate.
  assert (get (first_of three_shares) "threshold" = Ok (VNumber (of_nat 2)))
    as H2 by reflexivity.
  assert (2 <= List.length three_shares) as H3 by (simpl; lia).
  assert (mapM (payloadString (P := Reference.platform)) (firstn 2 three_shares)
          = Ok ["aa"; "bb"]) as H4 by reflexivity.
  repeat (split; [assumption |]).
  apply (payloads_in_arrival_order (P := Reference.platform) bytes_only_combine
           three_shares 2 ["aa"; "bb"] H1 H2 H3 H4).
Defined.

(** C7 as stated fails: the call with strings throws an error that is not
    a [TypeError], and the call with bytes is made all the same. *)
Lemma fallback_on_any_error :
  failing_string_combine (StringShares ["bb"; "aa"])
  = Throw (Error "shares must contain unique values") /\
  Error "shares must contain unique values" <> TypeError /\
  calls (ShareManagerStringFirst.reconstruct (P := Reference.platform)
           failing_string_combine second_then_first)
  = [StringShares ["bb"; "aa"]; ByteShares (map toBytes ["bb"; "aa"])].
Proof. vm_compute. repeat split. discriminate. Qed.

Lemma bytes_call_exactly_when_strings_call_throws_witness :
  thresholdOf (P := Reference.platform) second_then_first
  = Ok (VNumber (Finite 2)) /\
  payloadStrings (P := Reference.platform) second_then_first (VNumber (Finite 2))
  = Ok ["bb"; "aa"] /\
  calls (ShareManagerStringFirst.reconstruct (P := Reference.platform)
           bytes_only_combine second_then_first)
  = [StringShares ["bb"; "aa"]; ByteShares (map toBytes ["bb"; "aa"])].
Proof.
  assert (thresholdOf (P := Reference.platform) second_then_first
          = Ok (VNumber (Finite 2))) as H1 by reflexivity.
  assert (payloadStrings (P := Reference.platform) second_then_first
            (VNumber (Finite 2)) = Ok ["bb"; "aa"]) as H2 by reflexivity.
  split; [exact H1 |]. split; [exact H2 |].
  exact (bytes_call_exactly_when_strings_call_throws (P := Reference.platform)
           bytes_only_combine second_then_first (VNumber (Finite 2))
           ["bb"; "aa"] H1 H2).
Defined.

(** ** The other classifiers *)

Section ClassifierFacts.
Context {P : Platform}.

(** The classifying loop of [recoverMnemonicWithShares] tests the marker
    before it decodes, in both revisions. *)
Lemma classifyShare_marker_first (st : bool * list value) (share : string) :
  startsWith share MARKER = true ->
  ShareManager.classifyShare st (VString share)
  = Ok (true, snd st ++ [encryptedBlob (VString share)]) /\
  ShareManagerStringFirst.classifyShare st (VString share)
  = Ok (true, snd st ++ [encryptedBlob (VString share)]).
Proof.
  intros H. destruct st as [flag shares].
  unfold ShareManager.classifyShare, ShareManagerStringFirst.classifyShare.
  simpl. rewrite H. now split.
Qed.

End ClassifierFacts.

(** The collecting loop of [recoverMnemonic] decodes first: where a line
    with the marker decodes, it is taken as a share. *)
Lemma collectLine_decodes_first :
  ShareManagerStringFirst.collectLine (P := decodes_everything) (false, []) MARKER
  = Ok (false, [envelope 2 1 2 3 "YWE="]).
Proof. reflexivity. Qed.

(** ** The scenarios of the specification, on encoded shares *)

(** Two shares of threshold 3: invalid, two of three. *)
Lemma two_shares_of_three :
  validateShareCollection (P := Reference.platform)
    [envelope 11 1 3 5 "YWE="; envelope 12 2 3 5 "YmI="]
  = Ok {| isValid := false;
          validCount := 2;
          threshold := VNumber (Finite 3);
          errors := [ShardsRequired (VNumber (Finite 3)) 2];
          shareIndices := [VNumber (Finite 1); VNumber (Finite 2)] |}.
Proof. reflexivity. Qed.

(** A pasted line that encodes a share, and one that does not. *)
Lemma encoded_share_and_noise :
  validateShareCollection (P := Reference.platform)
    [VString encoded_share; VString "not a share"]
  = Ok {| isValid := false;
          validCount := 1;
          threshold := VNumber (Finite 2);
          errors := [InvalidShardFormat 2;
                     ShardsRequired (VNumber (Finite 2)) 1];
          shareIndices := [VNumber (Finite 1)] |}.
Proof. reflexivity. Qed.

(** A share pasted as a string with index 0 is refused by
    [isValidShareFormat]; the same share as an object is accepted. *)
Lemma index_zero_string_and_object :
  validateShareCollection (P := Reference.platform)
    [VString "eyJ0aHJlc2hvbGQiOjEsImluZGV4IjowLCJkYXRhIjoiWVE9PSJ9"]
  = Ok {| isValid := false;
          validCount := 0;
          threshold := VNumber (Finite 3);
          errors := [InvalidShardFormat 1; NoValidShards];
          shareIndices := [] |} /\
  validateShareCollection (P := Reference.platform) [envelope 11 0 1 3 "YWE="]
  = Ok {| isValid := true;
          validCount := 1;
          threshold := VNumber (Finite 1);
          errors := [];
          shareIndices := [VNumber (Finite 0)] |}.
Proof. split; reflexivity. Qed.

(** * Further properties *)

(** ** validateShareCollection, once more *)

Section ValidationMore.
Context {P : Platform}.

Lemma isValidShareFormat_true_inv (shareString : value) :
  isValidShareFormat shareString = Ok true ->
  exists s decoded shareData,
    shareString = VString s /\
    atob (trim s) = Ok decoded /\
    JSON_parse decoded = Ok shareData /\
    hasRequiredFields shareData = Ok true.
Proof.
  unfold isValidShareFormat.
  destruct shareString as [| | b | n | s | id props | id elements];
    simpl; rewrite ?orb_true_r; try discriminate.
  rewrite orb_false_r.
  destruct (negb (negb (s =? "")%string)); simpl; [discriminate |].
  destruct (atob (trim s)) as [decoded |] eqn:Ha; simpl; [| discriminate].
  destruct (JSON_parse decoded) as [shareData |] eqn:Hj; simpl; [| discriminate].
  destruct (hasRequiredFields shareData) as [[|] |] eqn:Hf; simpl;
    try discriminate.
  intros _. now exists s, decoded, shareData.
Qed.

Lemma hasRequiredFields_valid (shareData : value) :
  hasRequiredFields shareData = Ok true ->
  is_valid_share shareData = true /\
  truthy (field shareData "index") = true.
Proof.
  unfold hasRequiredFields, is_valid_share, field.
  destruct shareData as [| | b | n | s | id props | id elements];
    simpl; try discriminate.
  destruct (truthy (lookup "threshold" props)); simpl; [| discriminate].
  destruct (truthy (lookup "index" props)) eqn:Hi; simpl; [| discriminate].
  intros H. injection H as ->. split; [| reflexivity].
  destruct (lookup "index" props); try discriminate Hi; reflexivity.
Qed.

(** [isValidShareFormat] on a string that is not empty: whether the
    trimmed string decodes to something with the required fields. *)
Lemma isValidShareFormat_string (s : string) :
  s <> EmptyString ->
  isValidShareFormat (VString s)
  = Ok match decode (trim s) with
       | Ok w => match hasRequiredFields w with
                 | Ok b => b
                 | Throw _ => false
                 end
       | Throw _ => false
       end.
Proof.
  intros Hs. unfold isValidShareFormat, decode. simpl.
  destruct (String.eqb_spec s "") as [-> | _]; [now elim Hs |]. simpl.
  destruct (atob (trim s)) as [decoded |]; simpl; [| reflexivity].
  destruct (JSON_parse decoded) as [w |]; simpl; [| reflexivity].
  now destruct (hasRequiredFields w) as [b |].
Qed.

(** [parseShareData] on a string that [isValidShareFormat] accepts. *)
Lemma parseShareData_of_valid (shareString : value) :
  isValidShareFormat shareString = Ok true ->
  exists s shareData,
    shareString = VString s /\
    s <> EmptyString /\
    parseShareData shareString = Ok shareData /\
    decode (trim s) = Ok shareData /\
    hasRequiredFields shareData = Ok true.
Proof.
  intros H. unfold parseShareData. rewrite H. simpl.
  pose proof H as H'.
  apply isValidShareFormat_true_inv in H
    as (s & decoded & shareData & -> & Ha & Hj & Hf).
  exists s, shareData. unfold decode. simpl. rewrite Ha. simpl. rewrite Hj.
  repeat split; try assumption.
  intros ->. discriminate H'.
Qed.

(** X1: [parseShareData] never throws.  When [isValidShareFormat] refuses
    the argument it returns [null]: the argument is then no string, or
    empty, or, trimmed, does not decode to something with the required
    fields.  Otherwise the argument is a string, and what is returned is
    the very object that the trimmed string decodes to, with [threshold],
    [index] and [data] all truthy. *)
Theorem parseShareData_null_or_share (shareString : value) :
  exists v,
    parseShareData shareString = Ok v /\
    ((isValidShareFormat shareString = Ok false /\
      v = VNull /\
      forall s w,
        shareString = VString s -> s <> EmptyString ->
        decode (trim s) = Ok w -> hasRequiredFields w <> Ok true) \/
     (isValidShareFormat shareString = Ok true /\
      hasRequiredFields v = Ok true /\
      exists s,
        shareString = VString s /\ s <> EmptyString /\
        decode (trim s) = Ok v)).
Proof.
  destruct (isValidShareFormat_returns shareString) as [[|] H].
  - destruct (parseShareData_of_valid _ H) as (s & v & -> & Hs & Hp & Hd & Hf).
    exists v. split; [exact Hp |]. right.
    split; [exact H |]. split; [exact Hf |]. now exists s.
  - exists VNull. split; [unfold parseShareData; now rewrite H |]. left.
    split; [exact H |]. split; [reflexivity |].
    intros s w -> Hs Hd Hf.
    rewrite (isValidShareFormat_string s Hs), Hd, Hf in H. discriminate H.
Qed.

(** What the loop of [validateShareCollection] makes of a string is what
    [isValidShareFormat] says of it. *)
Lemma string_valid_iff (s : string) :
  isValidShareFormat (VString s) = Ok (is_valid_share (resolved (VString s))).
Proof.
  unfold resolved, shareDataOf. simpl.
  destruct (isValidShareFormat_returns (VString s)) as [[|] H]; rewrite H.
  - destruct (parseShareData_of_valid _ H) as (s' & v & _ & _ & -> & _ & Hf).
    apply hasRequiredFields_valid in Hf as [-> _]. reflexivity.
  - unfold parseShareData. rewrite H. reflexivity.
Qed.

End ValidationMore.

Section ValidationInvariants.
Context {P : Platform}.

Lemma formatErrors_inv (shareStrings : list value) :
  forall index n,
    In (InvalidShardFormat n) (formatErrors index shareStrings) ->
    exists i shareStr,
      n = index + i + 1 /\
      nth_error shareStrings i = Some shareStr /\
      is_valid_share (resolved shareStr) = false.
Proof.
  induction shareStrings as [| s rest IH]; intros index n H; simpl in H.
  - contradiction.
  - apply in_app_or in H as [H | H].
    + destruct (is_valid_share (resolved s)) eqn:V; simpl in H.
      * contradiction.
      * destruct H as [H | []]. injection H as <-.
        exists 0, s. repeat split; [lia | assumption].
    + apply IH in H as (i & shareStr & -> & Hn & Hv).
      exists (S i), shareStr. repeat split; [lia | assumption | assumption].
Qed.

Lemma formatErrors_length (shareStrings : list value) :
  forall index,
    List.length (validShares shareStrings)
    + List.length (formatErrors index shareStrings)
    = List.length shareStrings.
Proof.
  induction shareStrings as [| s rest IH]; intros index; [reflexivity |].
  rewrite validShares_cons. simpl.
  destruct (is_valid_share (resolved s)); simpl.
  - now rewrite IH.
  - now rewrite Nat.add_succ_r, IH.
Qed.

Lemma formatErrors_all_format (shareStrings : list value) :
  forall index,
    filter is_format_error (formatErrors index shareStrings)
    = formatErrors index shareStrings.
Proof.
  induction shareStrings as [| s rest IH]; intros index; [reflexivity |].
  simpl. rewrite filter_app, IH.
  now destruct (is_valid_share (resolved s)).
Qed.

Lemma formatErrors_nil (shareStrings : list value) :
  forall index,
    formatErrors index shareStrings = [] ->
    Forall (fun shareStr => is_valid_share (resolved shareStr) = true)
      shareStrings.
Proof.
  induction shareStrings as [| s rest IH]; intros index H; [constructor |].
  simpl in H. apply app_eq_nil in H as [Hs Hrest].
  constructor; [| now apply IH in Hrest].
  destruct (is_valid_share (resolved s)); [reflexivity | discriminate Hs].
Qed.

(** The errors of a returned record: the format errors of the loop, then
    at most one message about the count and at most one about the
    indices. *)
Lemma errors_finished (shareStrings : list value) (r : validation) :
  validateShareCollection shareStrings = Ok r ->
  exists tail,
    errors r = formatErrors 0 shareStrings ++ tail /\
    filter is_format_error tail = [] /\
    validCount r = List.length (validShares shareStrings).
Proof.
  intros H.
  assert (exists x,
             r = finished (collect nothing_collected 0 shareStrings)
                   (expected_threshold shareStrings) x) as [x ->].
  { apply validateShareCollection_Ok in H as [[_ ->] | [_ (x & _ & ->)]];
      now eexists. }
  unfold finished.
  cbn [errors validCount collect c_errors c_validCount c_shareIndices
         nothing_collected app Nat.add].
  destruct (negb _); (destruct x as [y |]; [destruct (js_lt _ y) |]);
    rewrite <- ?app_assoc;
    try (eexists; split; [reflexivity | split; reflexivity]).
  exists []. rewrite app_nil_r. repeat split.
Qed.

(** X2: every input is either counted in [validCount] or reported with
    its line: a line number is among the errors exactly when the input at
    that line is not a valid share, and the count and the number of lines
    reported add up to the number of inputs. *)
Theorem every_input_counted_or_reported (shareStrings : list value)
  (r : validation) :
  validateShareCollection shareStrings = Ok r ->
  (forall n,
      In (InvalidShardFormat n) (errors r) <->
      exists shareStr,
        0 < n /\
        nth_error shareStrings (n - 1) = Some shareStr /\
        is_valid_share (resolved shareStr) = false) /\
  validCount r + List.length (filter is_format_error (errors r))
  = List.length shareStrings.
Proof.
  intros H. destruct (errors_finished _ _ H) as (tail & -> & Ht & ->).
  split.
  - intros n. split.
    + intros Hin. apply in_app_or in Hin as [Hin | Hin].
      * apply formatErrors_inv in Hin as (i & shareStr & -> & Hn & Hv).
        exists shareStr. split; [lia |]. split; [| exact Hv].
        now replace (0 + i + 1 - 1) with i by lia.
      * assert (In (InvalidShardFormat n) (filter is_format_error tail)) as Hf
          by (apply filter_In; now split).
        rewrite Ht in Hf. contradiction.
    + intros (shareStr & Hpos & Hn & Hv).
      apply in_or_app. left.
      replace n with (0 + (n - 1) + 1) by lia.
      now apply formatErrors_line with (shareStr := shareStr).
  - rewrite filter_app, Ht, app_nil_r, formatErrors_all_format.
    apply formatErrors_length.
Qed.

(** X3: a set reported valid is clean: no error at all, every input a
    valid share, no index repeated, and the count at or above the
    threshold. *)
Theorem valid_set_is_clean (shareStrings : list value) (r : validation) :
  validateShareCollection shareStrings = Ok r ->
  isValid r = true ->
  errors r = [] /\
  Forall (fun shareStr => is_valid_share (resolved shareStr) = true)
    shareStrings /\
  validCount r = List.length shareStrings /\
  List.length (shareIndices r) = validCount r /\
  at_least (validCount r) (threshold r) = Ok true.
Proof.
  intros H Hvalid.
  pose proof (errors_finished _ _ H) as (tail & He & _ & Hc).
  pose proof (formatErrors_length shareStrings 0) as Hlen.
  apply validateShareCollection_Ok in H as [[Hs ->] | [Hs (x & Hx & ->)]];
    unfold finished in *;
    cbn [validCount threshold errors isValid shareIndices collect c_errors
           c_validCount c_shareIndices nothing_collected app Nat.add] in *.
  - rewrite andb_false_r in Hvalid. discriminate Hvalid.
  - apply andb_true_iff in Hvalid as [Hnil Hge].
    apply Nat.eqb_eq, length_zero_iff_nil in Hnil.
    rewrite Hnil in He. symmetry in He. apply app_eq_nil in He as [Hf _].
    rewrite Hf in Hlen. simpl in Hlen.
    rewrite (js_ge_not_lt _ _ Hge) in Hnil.
    destruct (Nat.eqb_spec
                (List.length
                   (fold_left Set_add (indices (validShares shareStrings)) []))
                (List.length (validShares shareStrings))) as [E | E];
      simpl in Hnil.
    + repeat split; try assumption.
      * simpl. now rewrite (js_ge_not_lt _ _ Hge).
      * now apply formatErrors_nil in Hf.
      * lia.
      * unfold at_least. rewrite Hx. simpl. now rewrite Hge.
    + destruct (formatErrors 0 shareStrings); discriminate Hnil.
Qed.

Lemma all_distinct_app_fresh (s : list value) (v : value) :
  all_distinct s = true -> Set_has s v = false ->
  all_distinct (s ++ [v]) = true.
Proof.
  induction s as [| x rest IH]; intros Hd Hf; [reflexivity |].
  simpl in *. apply andb_true_iff in Hd as [Hx Hrest].
  apply orb_false_iff in Hf as [Hvx Hvrest].
  apply andb_true_iff. split; [| now apply IH].
  rewrite existsb_app. simpl.
  rewrite SameValueZero_sym, Hvx. simpl. now rewrite orb_false_r.
Qed.

Lemma fold_Set_add_invariant (l acc : list value) :
  all_distinct acc = true ->
  all_distinct (fold_left Set_add l acc) = true /\
  List.length (fold_left Set_add l acc) <= List.length acc + List.length l.
Proof.
  revert acc. induction l as [| v rest IH]; intros acc Hd; simpl.
  - split; [assumption | lia].
  - unfold Set_add at 2 4.
    destruct (Set_has acc v) eqn:Hh.
    + destruct (IH acc Hd) as [H1 H2]. split; [assumption | lia].
    + destruct (IH (acc ++ [v]) (all_distinct_app_fresh _ _ Hd Hh)) as [H1 H2].
      split; [assumption |]. rewrite length_app in H2. simpl in H2. lia.
Qed.

(** X4: [shareIndices] never holds an index twice and has at most
    [validCount] entries; so the duplicate error is there exactly when it
    has fewer. *)
Theorem shareIndices_distinct (shareStrings : list value) (r : validation) :
  validateShareCollection shareStrings = Ok r ->
  all_distinct (shareIndices r) = true /\
  List.length (shareIndices r) <= validCount r /\
  (In DuplicateIndices (errors r) <->
   List.length (shareIndices r) < validCount r).
Proof.
  intros H.
  assert (exists x,
             r = finished (collect nothing_collected 0 shareStrings)
                   (expected_threshold shareStrings) x) as [x ->].
  { apply validateShareCollection_Ok in H as [[_ ->] | [_ (x & _ & ->)]];
      now eexists. }
  destruct (fold_Set_add_invariant (indices (validShares shareStrings)) []
              eq_refl) as [Hd Hl].
  unfold indices in Hl at 2. rewrite length_map in Hl. simpl in Hl.
  split; [exact Hd |]. split; [exact Hl |].
  rewrite finished_duplicate.
  - cbn [collect c_shareIndices c_validCount nothing_collected Nat.add
           finished shareIndices validCount]. lia.
  - cbn [collect c_errors nothing_collected app].
    intros m Hm. apply formatErrors_In in Hm as [line ->]. discriminate.
Qed.

(** X5: on pasted lines, [validCount] is the number of lines that
    [isValidShareFormat] accepts. *)
Theorem pasted_lines_counted_by_isValidShareFormat (lines : list string)
  (r : validation) :
  validateShareCollection (map VString lines) = Ok r ->
  validCount r = List.length (filter well_formed lines).
Proof.
  intros H. destruct (errors_finished _ _ H) as (_ & _ & _ & ->).
  clear H. induction lines as [| s rest IH]; [reflexivity |].
  cbn [map]. rewrite validShares_cons. cbn [filter].
  unfold well_formed at 1. rewrite string_valid_iff.
  destruct (is_valid_share (resolved (VString s))); simpl; now rewrite IH.
Qed.

End ValidationInvariants.

Lemma pasted_lines_counted_by_isValidShareFormat_witness :
  validateShareCollection (P := Reference.platform)
    (map VString [encoded_share; "not a share"])
  = Ok {| isValid := false;
          validCount := 1;
          threshold := VNumber (Finite 2);
          errors := [InvalidShardFormat 2;
                     ShardsRequired (VNumber (Finite 2)) 1];
          shareIndices := [VNumber (Finite 1)] |} /\
  1 = List.length
        (filter (well_formed (P := Reference.platform))
           [encoded_share; "not a share"]).
Proof.
  assert (validateShareCollection (P := Reference.platform)
            (map VString [encoded_share; "not a share"])
          = Ok {| isValid := false;
                  validCount := 1;
                  threshold := VNumber (Finite 2);
                  errors := [InvalidShardFormat 2;
                             ShardsRequired (VNumber (Finite 2)) 1];
                  shareIndices := [VNumber (Finite 1)] |}) as H by reflexivity.
  split; [exact H |].
  exact (pasted_lines_counted_by_isValidShareFormat (P := Reference.platform)
           _ _ H).
Defined.

Lemma every_input_counted_or_reported_witness :
  validateShareCollection (P := Reference.platform) shares_and_garbage
  = Ok shares_and_garbage_result /\
  (In (InvalidShardFormat 3) (errors shares_and_garbage_result) <->
   exists shareStr,
     0 < 3 /\
     nth_error shares_and_garbage (3 - 1) = Some shareStr /\
     is_valid_share (resolved (P := Reference.platform) shareStr) = false) /\
  2 + 1 = 3.
Proof.
  assert (validateShareCollection (P := Reference.platform) shares_and_garbage
          = Ok shares_and_garbage_result) as H by reflexivity.
  split; [exact H |].
  destruct (every_input_counted_or_reported (P := Reference.platform)
              shares_and_garbage shares_and_garbage_result H) as [Hlines Hcount].
  split; [exact (Hlines 3) | exact Hcount].
Defined.

Lemma valid_set_is_clean_witness :
  validateShareCollection (P := Reference.platform) three_shares
  = Ok three_shares_result /\
  isValid three_shares_result = true /\
  errors three_shares_result = [] /\
  validCount three_shares_result = List.length three_shares.
Proof.
  assert (validateShareCollection (P := Reference.platform) three_shares
          = Ok three_shares_result) as H by reflexivity.
  assert (isValid three_shares_result = true) as Hv by reflexivity.
  split; [exact H |]. split; [exact Hv |].
  destruct (valid_set_is_clean (P := Reference.platform) three_shares
              three_shares_result H Hv) as (He & _ & Hc & _).
  split; [exact He | exact Hc].
Defined.

Lemma shareIndices_distinct_witness :
  validateShareCollection (P := Reference.platform) repeated_then_other
  = Ok repeated_then_other_result /\
  all_distinct (shareIndices repeated_then_other_result) = true /\
  List.length (shareIndices repeated_then_other_result)
  <= validCount repeated_then_other_result.
Proof.
  assert (validateShareCollection (P := Reference.platform) repeated_then_other
          = Ok repeated_then_other_result) as H by reflexivity.
  split; [exact H |].
  destruct (shareIndices_distinct (P := Reference.platform) repeated_then_other
              repeated_then_other_result H) as (Hd & Hl & _).
  split; [exact Hd | exact Hl].
Defined.

(** ** What can be thrown *)

Lemma value_induction (Q : value -> Prop) :
  Q VUndefined -> Q VNull -> (forall b, Q (VBool b)) ->
  (forall n, Q (VNumber n)) -> (forall s, Q (VString s)) ->
  (forall id props, Q (VObject id props)) ->
  (forall id elements, Forall Q elements -> Q (VArray id elements)) ->
  forall v, Q v.
Proof.
  intros Hu Hn Hb Hnum Hs Ho Ha. fix IH 1. intros v.
  destruct v as [| | b | n | s | id props | id elements];
    [exact Hu | exact Hn | apply Hb | apply Hnum | apply Hs | apply Ho |].
  apply Ha. induction elements as [| x rest IHl]; constructor.
  - apply IH.
  - exact IHl.
Qed.

Section ThrownFacts.
Context {P : Platform}.

Lemma ToString_array (id : positive) (elements : list value) :
  ToString (VArray id elements) = joinElements elements.
Proof. reflexivity. Qed.

Lemma ToString_only_TypeError (v : value) :
  forall e, ToString v = Throw e -> e = TypeError.
Proof.
  induction v as [| | b | n | s | id props | id elements IH]
    using value_induction; try discriminate.
  - simpl. intros e.
    destruct (has_own "toString" props); [| discriminate].
    intros H. now injection H as <-.
  - rewrite ToString_array.
    induction IH as [| x rest Hx _ IHl]; intros e; simpl; [discriminate |].
    destruct (match x with
              | VUndefined | VNull => Ok ""%string
              | _ => ToString x
              end) as [s |] eqn:Hs; cbn [bind].
    + destruct rest as [| y rest']; [discriminate |].
      destruct (joinElements (y :: rest')) as [r |]; cbn [bind];
        [discriminate |].
      intros H. injection H as <-. now apply IHl.
    + intros H. injection H as <-.
      destruct x; try discriminate Hs; now apply Hx.
Qed.

Lemma ToNumber_Throw (v : value) (e : exn) :
  ToNumber v = Throw e ->
  e = TypeError /\ is_primitive v = false /\ ToString v = Throw TypeError.
Proof.
  destruct v as [| | b | n | s | id props | id elements];
    try discriminate; unfold ToNumber;
    (destruct (ToString _) as [s |] eqn:Hs; cbn [bind]; [discriminate |]);
    intros H; injection H as <-;
    rewrite (ToString_only_TypeError _ _ Hs) in *; now repeat split.
Qed.

(** X6: the only exception [validateShareCollection] throws is a
    [TypeError], and it throws it only when the threshold of the first
    valid share is an object or an array that has no string. *)
Theorem validateShareCollection_throws_only_TypeError
  (shareStrings : list value) (e : exn) :
  validateShareCollection shareStrings = Throw e ->
  e = TypeError /\
  exists first rest,
    validShares shareStrings = first :: rest /\
    is_primitive (field first "threshold") = false /\
    ToString (field first "threshold") = Throw TypeError.
Proof.
  intros H. apply validateShareCollection_Throw in H as [Hne Ht].
  unfold expected_threshold in Ht.
  destruct (validShares shareStrings) as [| first rest]; [now elim Hne |].
  apply ToNumber_Throw in Ht as (-> & Hp & Hs).
  split; [reflexivity |]. now exists first, rest.
Qed.

End ThrownFacts.

Lemma validateShareCollection_throws_only_TypeError_witness :
  validateShareCollection (P := Reference.platform)
    [VString share_with_object_threshold] = Throw TypeError /\
  exists first rest,
    validShares (P := Reference.platform) [VString share_with_object_threshold]
    = first :: rest /\
    is_primitive (field first "threshold") = false.
Proof.
  assert (validateShareCollection (P := Reference.platform)
            [VString share_with_object_threshold] = Throw TypeError) as H
    by reflexivity.
  split; [exact H |].
  destruct (validateShareCollection_throws_only_TypeError
              (P := Reference.platform) _ _ H)
    as (_ & first & rest & Hs & Hp & _).
  now exists first, rest.
Defined.

(** ** The two classifying loops *)

Section ClassifierAgreement.
Context {P : Platform}.

(** X7: the classifying loops of the two revisions of
    [recoverMnemonicWithShares] treat every share alike, except [null] and
    [undefined]: there [share.encrypted] throws a [TypeError] in one
    revision, and [share?.encrypted] lets the other go on and keep the
    share as encrypted content. *)
Theorem classifyShare_revisions_agree (st : bool * list value) (share : value) :
  match share with
  | VUndefined | VNull =>
      ShareManager.classifyShare st share = Throw TypeError /\
      ShareManagerStringFirst.classifyShare st share
      = Ok (true, snd st ++ [encryptedBlob share])
  | _ =>
      ShareManagerStringFirst.classifyShare st share
      = ShareManager.classifyShare st share
  end.
Proof.
  destruct st as [flag shares].
  destruct share; try reflexivity; now split.
Qed.

End ClassifierAgreement.

(** ** The uploaded files *)

Section ParsedContent.
Context {P : Platform}.

Lemma isShare_valid (shareData : value) :
  isShare shareData = Ok true -> is_valid_share shareData = true.
Proof.
  intros H. destruct (isShare_object _ H) as (id & props & ->).
  unfold isShare in H. unfold is_valid_share, field. simpl in *.
  destruct (truthy (lookup "threshold" props)); simpl in *; [| discriminate].
  destruct (is_undefined (lookup "index" props)); simpl in *; [discriminate |].
  now injection H as ->.
Qed.

Lemma armorOrShare_blob_or_share (text : string) (v : value) :
  try_catch (armorOrShare text) (fun _ => Ok FallThrough) = Ok (Return v) ->
  (v = encryptedBlob (VString text) /\ startsWith text MARKER = true) \/
  (isShare v = Ok true /\ decode text = Ok v).
Proof.
  unfold armorOrShare, decode.
  destruct (startsWith text MARKER).
  - simpl. intros H. injection H as <-. now left.
  - destruct (atob text) as [decoded |]; simpl; [| discriminate].
    destruct (JSON_parse decoded) as [shareData |]; simpl; [| discriminate].
    destruct (isShare shareData) as [[|] |] eqn:Hs; simpl; try discriminate.
    intros H. injection H as <-. now right.
Qed.

Lemma tryLines_blob_or_share (lines : list string) (v : value) :
  tryLines lines = Ok (Return v) ->
  exists line,
    In line lines /\
    ((v = encryptedBlob (VString line) /\ startsWith line MARKER = true) \/
     (isShare v = Ok true /\ decode line = Ok v)).
Proof.
  induction lines as [| line rest IH]; simpl; [discriminate |].
  destruct (try_catch (armorOrShare line) (fun _ => Ok FallThrough))
    as [[w |] |] eqn:Hl; simpl; try discriminate.
  - intros H. injection H as <-. exists line. split; [now left |].
    now apply armorOrShare_blob_or_share.
  - intros H. apply IH in H as (l & Hin & Hl'). exists l.
    split; [now right | exact Hl'].
Qed.

(** X8: [parseShareContent] never throws and returns one of two things:
    [{ encrypted: true, content }], where [content] is the trimmed text or
    one of its trimmed lines; or the object that the trimmed text, or one of
    its lines, decodes to, with a truthy [threshold], a truthy [data] and an
    [index] that is not [undefined]. *)
Theorem parseShareContent_blob_or_share (content : string) :
  exists v,
    parseShareContent content = Ok v /\
    exists text,
      (text = trim content \/ In text (nonEmptyLines content)) /\
      (v = encryptedBlob (VString text) \/
       (isShare v = Ok true /\ decode text = Ok v)).
Proof.
  unfold parseShareContent, trySingleLine.
  destruct (try_catch (armorOrShare (trim content)) (fun _ => Ok FallThrough))
    as [[v |] |] eqn:H1; simpl.
  - exists v. split; [reflexivity |]. exists (trim content).
    split; [now left |].
    apply armorOrShare_blob_or_share in H1 as [[-> _] | H1]; auto.
  - destruct (tryLines (nonEmptyLines content)) as [[v |] |] eqn:H2; simpl.
    + exists v. split; [reflexivity |].
      apply tryLines_blob_or_share in H2 as (line & Hin & [[-> _] | H2]);
        exists line; auto.
    + eexists. split; [reflexivity |]. exists (trim content). auto.
    + eexists. split; [reflexivity |]. exists (trim content). auto.
  - eexists. split; [reflexivity |]. exists (trim content). auto.
Qed.

(** What [processFile] stores as a share is a valid share for
    [validateShareCollection]. *)
Lemma parseShareContent_plain_valid (content : string) (v : value) :
  parseShareContent content = Ok v ->
  RecoveryTab.isPlainShare v = Ok true ->
  is_valid_share v = true.
Proof.
  intros Hp Hplain.
  destruct (parseShareContent_blob_or_share content)
    as (w & Hw & text & _ & Hcase).
  rewrite Hp in Hw. injection Hw as <-.
  destruct Hcase as [-> | [Hs _]].
  - discriminate Hplain.
  - now apply isShare_valid.
Qed.

End ParsedContent.

Section FileFacts.
Context {P : Platform}.

Lemma checkFile_acceptable (u : list RecoveryTab.fileData)
  (st : list RecoveryTab.toast * list RecoveryTab.File) (f : RecoveryTab.File) :
  snd (RecoveryTab.checkFile u st f)
  = snd st ++ (if acceptable u f then [f] else []) /\
  List.length (fst (RecoveryTab.checkFile u st f))
  + List.length (snd (RecoveryTab.checkFile u st f))
  = S (List.length (fst st) + List.length (snd st)).
Proof.
  destruct st as [toasts validFiles].
  unfold RecoveryTab.checkFile, acceptable.
  destruct (existsb _ RecoveryTab.validExtensions); simpl.
  - rewrite N.leb_antisym.
    destruct (RecoveryTab.maxSize <? RecoveryTab.size f)%N; simpl.
    + rewrite app_nil_r, length_app. simpl. split; [reflexivity | lia].
    + destruct (RecoveryTab.alreadyUploaded u f); simpl;
        rewrite ?app_nil_r, length_app; simpl; split; try reflexivity; lia.
  - rewrite app_nil_r, length_app. simpl. split; [reflexivity | lia].
Qed.

Lemma validateFiles_from (u : list RecoveryTab.fileData)
  (files : list RecoveryTab.File) :
  forall st,
    snd (fold_left (RecoveryTab.checkFile u) files st)
    = snd st ++ filter (acceptable u) files /\
    List.length (fst (fold_left (RecoveryTab.checkFile u) files st))
    + List.length (snd (fold_left (RecoveryTab.checkFile u) files st))
    = List.length (fst st) + List.length (snd st) + List.length files.
Proof.
  induction files as [| f rest IH]; intros st; simpl.
  - rewrite app_nil_r. split; [reflexivity | lia].
  - destruct (IH (RecoveryTab.checkFile u st f)) as [H1 H2].
    destruct (checkFile_acceptable u st f) as [H3 H4].
    split.
    + rewrite H1, H3, <- app_assoc. now destruct (acceptable u f).
    + rewrite H2, H4. lia.
Qed.

(** X9: [validateFiles] returns, in their order, exactly the files of the
    selection with an extension [.txt] or [.gpg] (in any case), at most
    5 MiB, and a name that no uploaded file has; it shows one toast for each
    of the others.  Each file is judged by itself: a name that comes twice
    in one selection is returned twice. *)
Theorem validateFiles_judges_each_file_alone (u : list RecoveryTab.fileData)
  (files : list RecoveryTab.File) :
  snd (RecoveryTab.validateFiles u files) = filter (acceptable u) files /\
  List.length (fst (RecoveryTab.validateFiles u files))
  + List.length (snd (RecoveryTab.validateFiles u files))
  = List.length files /\
  forall f, acceptable u f = true ->
            snd (RecoveryTab.validateFiles u [f; f]) = [f; f].
Proof.
  unfold RecoveryTab.validateFiles.
  destruct (validateFiles_from u files ([], [])) as [H1 H2].
  split; [exact H1 |]. split; [exact H2 |].
  intros f Hf.
  destruct (validateFiles_from u [f; f] ([], [])) as [H3 _].
  rewrite H3. simpl. now rewrite Hf.
Qed.

Lemma encryptedFilesOf_app (u v : list RecoveryTab.fileData) :
  RecoveryTab.encryptedFilesOf (u ++ v)
  = RecoveryTab.encryptedFilesOf u ++ RecoveryTab.encryptedFilesOf v.
Proof. apply filter_app. Qed.

Lemma isPlainShare_object (id : positive) (props : list (string * value)) :
  RecoveryTab.isPlainShare (VObject id props)
  = Ok (negb (truthy (lookup "encrypted" props))).
Proof. reflexivity. Qed.

(** X10: the two tests of the extension disagree.  [validateFiles] lowers
    the case of the extension, [processFile] looks for [.gpg] as it is
    written: a file named with [.GPG] is let in, and is then read as a text
    file, never marked encrypted. *)
Theorem capital_gpg_not_marked_encrypted (u : list RecoveryTab.fileData)
  (f : RecoveryTab.File) (c : RecoveryTab.fileContent) :
  RecoveryTab.fileExtension f = ".gpg"%string ->
  endsWith (RecoveryTab.name f) ".gpg" = false ->
  (RecoveryTab.size f <= RecoveryTab.maxSize)%N ->
  RecoveryTab.alreadyUploaded u f = false ->
  snd (RecoveryTab.validateFiles u [f]) = [f] /\
  RecoveryTab.encryptedFilesOf (RecoveryTab.processFile u f (Ok c))
  = RecoveryTab.encryptedFilesOf u.
Proof.
  intros Hext Hends Hsize Hnew. split.
  - destruct (validateFiles_from u [f] ([], [])) as [H _].
    unfold RecoveryTab.validateFiles. rewrite H. simpl.
    unfold acceptable. rewrite Hext, Hnew.
    apply N.leb_le in Hsize. rewrite Hsize. reflexivity.
  - unfold RecoveryTab.processFile, RecoveryTab.processBody.
    cbn [RecoveryTab.set_content RecoveryTab.isEncrypted].
    rewrite Hends.
    destruct c as [text | bytes].
    + destruct (parseShareContent_returns_object text) as (id & props & ->).
      rewrite isPlainShare_object.
      destruct (negb _); rewrite encryptedFilesOf_app; apply app_nil_r.
    + rewrite encryptedFilesOf_app. apply app_nil_r.
Qed.

Lemma processBody_sound (fd : RecoveryTab.fileData)
  (read : result RecoveryTab.fileContent) :
  RecoveryTab.status fd <> RecoveryTab.Valid ->
  RecoveryTab.status (fst (RecoveryTab.processBody fd read)) = RecoveryTab.Valid ->
  is_valid_share (RecoveryTab.shareData (fst (RecoveryTab.processBody fd read)))
  = true.
Proof.
  intros Hfd. unfold RecoveryTab.processBody.
  destruct read as [c |]; [| now intros H].
  cbn [RecoveryTab.set_content RecoveryTab.isEncrypted].
  destruct (RecoveryTab.isEncrypted fd); [discriminate |].
  destruct c as [text | bytes]; [| discriminate].
  destruct (parseShareContent text) as [v |] eqn:Hp; [| now intros H].
  destruct (RecoveryTab.isPlainShare v) as [[|] |] eqn:Hv; simpl;
    try discriminate; [| now intros H].
  intros _. now apply parseShareContent_plain_valid with (content := text).
Qed.

Lemma update_Forall {A : Type} (Q : A -> Prop) (f : A -> A) (l : list A) :
  (forall x, Q x -> Q (f x)) ->
  forall i, Forall Q l -> Forall Q (RecoveryTab.update i f l).
Proof.
  intros Hf. induction l as [| x rest IH]; intros i H; [destruct i; constructor |].
  inversion H as [| ? ? Hx Hrest]; subst.
  destruct i as [| j]; simpl; constructor; auto.
Qed.

Lemma splice1_Forall {A : Type} (Q : A -> Prop) (l : list A) :
  forall i, Forall Q l -> Forall Q (RecoveryTab.splice1 i l).
Proof.
  induction l as [| x rest IH]; intros i H; [destruct i; constructor |].
  inversion H as [| ? ? Hx Hrest]; subst.
  destruct i as [| j]; simpl; [assumption | constructor; auto].
Qed.

Lemma processFile_sound (u : list RecoveryTab.fileData) (f : RecoveryTab.File)
  (read : result RecoveryTab.fileContent) :
  sound u -> sound (RecoveryTab.processFile u f read).
Proof.
  intros Hu. unfold RecoveryTab.processFile.
  match goal with
  | |- context [RecoveryTab.processBody ?fd read] =>
      pose proof (processBody_sound fd read) as Hbody;
      destruct (RecoveryTab.processBody fd read) as [fd' [[] | e]]
  end; simpl in Hbody.
  - apply Forall_app. split; [exact Hu |].
    constructor; [| constructor]. apply Hbody. discriminate.
  - assert (sound (u ++ [fd'])) as Hpushed.
    { apply Forall_app. split; [exact Hu |].
      constructor; [| constructor]. apply Hbody. discriminate. }
    destruct (RecoveryTab.findIndex _ _); [| exact Hpushed].
    apply update_Forall; [| exact Hpushed].
    intros x _ H. discriminate H.
Qed.

Lemma processFiles_sound
  (files : list (RecoveryTab.File * result RecoveryTab.fileContent)) :
  forall u, sound u -> sound (RecoveryTab.processFiles u files).
Proof.
  induction files as [| [f read] rest IH]; intros u Hu; simpl; [exact Hu |].
  apply IH. now apply processFile_sound.
Qed.

(** X11: an entry of [uploadedFiles] that is marked valid holds a share
    that [validateShareCollection] accepts: [processFiles] keeps it so, and
    so does [removeFile]. *)
Theorem valid_files_hold_valid_shares (u : list RecoveryTab.fileData)
  (files : list (RecoveryTab.File * result RecoveryTab.fileContent))
  (index : nat) :
  sound u ->
  sound (RecoveryTab.processFiles u files) /\
  sound (RecoveryTab.splice1 index u) /\
  Forall (fun shareData => is_valid_share shareData = true)
    (RecoveryTab.validSharesOf (RecoveryTab.processFiles u files)).
Proof.
  intros Hu. split; [now apply processFiles_sound |].
  split; [now apply splice1_Forall |].
  pose proof (processFiles_sound files u Hu) as Hs.
  unfold RecoveryTab.validSharesOf.
  induction Hs as [| fd rest Hfd _ IH]; simpl; [constructor |].
  destruct (RecoveryTab.status fd) eqn:Hst; try exact IH.
  destruct (truthy (RecoveryTab.shareData fd)); [| exact IH].
  constructor; [now apply Hfd | exact IH].
Qed.

End FileFacts.

Lemma valid_files_hold_valid_shares_witness :
  sound [] /\
  Forall (fun shareData => is_valid_share shareData = true)
    (RecoveryTab.validSharesOf
       (RecoveryTab.processFiles (P := Reference.platform) []
          [(share_txt, Ok (RecoveryTab.Text encoded_share));
           (share_gpg, Ok (RecoveryTab.Text armored_message))])).
Proof.
  assert (sound []) as H by constructor.
  split; [exact H |].
  apply (valid_files_hold_valid_shares (P := Reference.platform) []
           [(share_txt, Ok (RecoveryTab.Text encoded_share));
            (share_gpg, Ok (RecoveryTab.Text armored_message))] 0 H).
Defined.

Lemma capital_gpg_not_marked_encrypted_witness :
  RecoveryTab.fileExtension capital_gpg = ".gpg"%string /\
  endsWith (RecoveryTab.name capital_gpg) ".gpg" = false /\
  snd (RecoveryTab.validateFiles [] [capital_gpg]) = [capital_gpg] /\
  RecoveryTab.encryptedFilesOf
    (RecoveryTab.processFile (P := Reference.platform) [] capital_gpg
       (Ok (RecoveryTab.Text armored_message)))
  = [].
Proof.
  assert (RecoveryTab.fileExtension capital_gpg = ".gpg"%string) as H1
    by reflexivity.
  assert (endsWith (RecoveryTab.name capital_gpg) ".gpg" = false) as H2
    by reflexivity.
  assert (RecoveryTab.size capital_gpg <= RecoveryTab.maxSize)%N as H3
    by (vm_compute; discriminate).
  assert (RecoveryTab.alreadyUploaded [] capital_gpg = false) as H4
    by reflexivity.
  split; [exact H1 |]. split; [exact H2 |].
  exact (capital_gpg_not_marked_encrypted (P := Reference.platform) []
           capital_gpg (RecoveryTab.Text armored_message) H1 H2 H3 H4).
Defined.

Section FileStatus.
Context {P : Platform}.

Lemma resolved_of_valid (v : value) :
  is_valid_share v = true -> resolved v = v.
Proof.
  unfold is_valid_share, field, resolved, shareDataOf.
  destruct v; simpl; try discriminate; try reflexivity;
    rewrite ?andb_false_r; discriminate.
Qed.

Lemma validShares_of_valid (l : list value) :
  Forall (fun v => is_valid_share v = true) l ->
  validShares l = l /\
  Forall (fun v => is_valid_share (resolved v) = true) l.
Proof.
  induction 1 as [| v rest Hv _ [IH1 IH2]]; [now split |].
  rewrite validShares_cons, (resolved_of_valid _ Hv), Hv, IH1.
  split; [reflexivity |]. constructor; [| assumption].
  now rewrite (resolved_of_valid _ Hv).
Qed.

Lemma validSharesOf_sound (u : list RecoveryTab.fileData) :
  sound u ->
  Forall (fun v => is_valid_share v = true) (RecoveryTab.validSharesOf u).
Proof.
  intros Hs. unfold RecoveryTab.validSharesOf.
  induction Hs as [| fd rest Hfd _ IH]; simpl; [constructor |].
  destruct (RecoveryTab.status fd) eqn:Hst; try exact IH.
  destruct (truthy (RecoveryTab.shareData fd)); [| exact IH].
  constructor; [now apply Hfd | exact IH].
Qed.

(** X12: on the upload tab the shares validated are those of the files
    marked valid, and each of them is a valid share: no line is ever
    reported, and the status follows from the count and the indices alone.
    It is valid with the button enabled and the threshold stored;
    insufficient when the count is below the threshold; and otherwise
    invalid, under the text of [errors.invalidShareFormat], which then
    stands for a repeated index or for a threshold that is no number. *)
Theorem upload_status_reflects_count_and_indices
  (u : list RecoveryTab.fileData) (p : RecoveryTab.panel) :
  sound u ->
  RecoveryTab.validSharesOf u <> [] ->
  RecoveryTab.validateCurrentShares u = Ok p ->
  exists r,
    validateShareCollection (RecoveryTab.validSharesOf u) = Ok r /\
    validCount r = List.length (RecoveryTab.validSharesOf u) /\
    (forall n, ~ In (InvalidShardFormat n) (errors r)) /\
    match RecoveryTab.shownClass p with
    | RecoveryTab.ValidStatus =>
        isValid r = true /\
        RecoveryTab.disabled p = false /\
        RecoveryTab.assigned p = Some (threshold r, validCount r)
    | RecoveryTab.InsufficientStatus =>
        less_than (validCount r) (threshold r) = Ok true /\
        RecoveryTab.disabled p = true
    | RecoveryTab.InvalidStatus =>
        RecoveryTab.shownText p = RecoveryTab.InvalidShareFormatText /\
        RecoveryTab.disabled p = true /\
        less_than (validCount r) (threshold r) = Ok false /\
        (In DuplicateIndices (errors r) \/
         at_least (validCount r) (threshold r) = Ok false)
    | RecoveryTab.WaitingStatus => False
    end.
Proof.
  intros Hs Hne Hp.
  destruct (validShares_of_valid _ (validSharesOf_sound u Hs)) as [Hv Hall].
  unfold RecoveryTab.validateCurrentShares in Hp.
  destruct (RecoveryTab.validSharesOf u) as [| first rest] eqn:Hshares;
    [now elim Hne |].
  cbn [List.length Nat.eqb andb] in Hp.
  destruct (validateShareCollection (first :: rest)) as [r |] eqn:Hr;
    [| discriminate Hp].
  cbn [bind] in Hp. exists r. split; [reflexivity |].
  destruct (errors_finished _ _ Hr) as (tail & He & Ht & Hc).
  rewrite Hv in Hc. split; [exact Hc |].
  rewrite (formatErrors_all_valid _ 0 Hall) in He. simpl in He.
  split.
  { intros n Hin. rewrite He in Hin.
    assert (In (InvalidShardFormat n) (filter is_format_error tail)) as Hf
      by (apply filter_In; now split).
    rewrite Ht in Hf. contradiction. }
  destruct (isValid r) eqn:Hvalid.
  - injection Hp as <-. now repeat split.
  - destruct (less_than (validCount r) (threshold r)) as [[|] |] eqn:Hlt;
      cbn [bind] in Hp; try discriminate Hp; injection Hp as <-; simpl.
    + now split.
    + repeat split.
      clear He Ht Hc tail.
      apply validateShareCollection_Ok in Hr
        as [[Hnone _] | [_ (x & Hx & ->)]];
        [rewrite Hv in Hnone; discriminate Hnone |].
      unfold less_than, at_least, finished in *.
      cbn [validCount threshold errors isValid collect c_errors c_validCount
             c_shareIndices nothing_collected app Nat.add] in *.
      rewrite Hx in Hlt |- *. cbn [bind] in *.
      injection Hlt as Hlt. rewrite Hlt in Hvalid |- *.
      rewrite (formatErrors_all_valid _ 0 Hall) in Hvalid |- *.
      destruct (negb _); [left; now left |].
      right. simpl in Hvalid. now rewrite Hvalid.
Qed.

(** X13: with nothing but encrypted files uploaded,
    [validateCurrentShares] shows that a password is required and enables
    the button; [handleRecoverMnemonic] then finds no share on the tab,
    shows [errors.noValidShares] and does not call
    [recoverMnemonicWithShares]. *)
Theorem only_encrypted_files_dead_end (u : list RecoveryTab.fileData)
  (inputValue : string) :
  RecoveryTab.validSharesOf u = [] ->
  RecoveryTab.encryptedFilesOf u <> [] ->
  RecoveryTab.validateCurrentShares u
  = Ok {| RecoveryTab.shownClass := RecoveryTab.WaitingStatus;
          RecoveryTab.shownText := RecoveryTab.PasswordRequiredText;
          RecoveryTab.disabled := false;
          RecoveryTab.assigned := None |} /\
  handleRecoverMnemonic RecoveryTab.Upload inputValue u = ShowNoValidShares.
Proof.
  intros Hnone Hsome.
  unfold RecoveryTab.validateCurrentShares, handleRecoverMnemonic,
    RecoveryTab.getCurrentShares.
  rewrite Hnone.
  destruct (RecoveryTab.encryptedFilesOf u); [now elim Hsome |].
  now split.
Qed.

End FileStatus.

Lemma upload_status_reflects_count_and_indices_witness :
  sound two_uploaded /\
  RecoveryTab.validSharesOf two_uploaded <> [] /\
  RecoveryTab.validateCurrentShares (P := Reference.platform) two_uploaded
  = Ok {| RecoveryTab.shownClass := RecoveryTab.ValidStatus;
          RecoveryTab.shownText :=
            RecoveryTab.SharesDecrypted 2 (VNumber (Finite 2));
          RecoveryTab.disabled := false;
          RecoveryTab.assigned := Some (VNumber (Finite 2), 2) |} /\
  exists r,
    validateShareCollection (P := Reference.platform)
      (RecoveryTab.validSharesOf two_uploaded) = Ok r /\
    validCount r = 2.
Proof.
  assert (sound two_uploaded) as H1
    by (repeat constructor).
  assert (RecoveryTab.validSharesOf two_uploaded <> []) as H2
    by (vm_compute; discriminate).
  assert (RecoveryTab.validateCurrentShares (P := Reference.platform)
            two_uploaded
          = Ok {| RecoveryTab.shownClass := RecoveryTab.ValidStatus;
                  RecoveryTab.shownText :=
                    RecoveryTab.SharesDecrypted 2 (VNumber (Finite 2));
                  RecoveryTab.disabled := false;
                  RecoveryTab.assigned := Some (VNumber (Finite 2), 2) |})
    as H3 by reflexivity.
  split; [exact H1 |]. split; [exact H2 |]. split; [exact H3 |].
  destruct (upload_status_reflects_count_and_indices
              (P := Reference.platform) _ _ H1 H2 H3) as (r & Hr & Hc & _).
  exists r. split; [exact Hr | exact Hc].
Defined.

Lemma only_encrypted_files_dead_end_witness :
  RecoveryTab.validSharesOf gpg_uploaded = [] /\
  RecoveryTab.encryptedFilesOf gpg_uploaded <> [] /\
  handleRecoverMnemonic RecoveryTab.Upload "" gpg_uploaded = ShowNoValidShares.
Proof.
  assert (RecoveryTab.validSharesOf gpg_uploaded = []) as H1 by reflexivity.
  assert (RecoveryTab.encryptedFilesOf gpg_uploaded <> []) as H2
    by (vm_compute; discriminate).
  split; [exact H1 |]. split; [exact H2 |].
  apply (only_encrypted_files_dead_end (P := Reference.platform)
           gpg_uploaded "" H1 H2).
Defined.

(** ** The pasted text *)

Lemma trimStart_head (s : string) (c : ascii) (rest : string) :
  trimStart s = String c rest -> is_space c = false.
Proof.
  induction s as [| d s' IH]; simpl; [discriminate |].
  destruct (is_space d) eqn:Hd; [exact IH |].
  intros H. injection H as <- _. exact Hd.
Qed.

Lemma trimEnd_head (c : ascii) (rest : string) :
  is_space c = false -> exists kept, trimEnd (String c rest) = String c kept.
Proof.
  intros Hc. simpl. rewrite Hc.
  destruct (trimEnd rest); now eexists.
Qed.

Lemma trimEnd_cons_inv (s : string) (c : ascii) (kept : string) :
  trimEnd s = String c kept -> exists rest, s = String c rest.
Proof.
  destruct s as [| d rest]; simpl; [discriminate |].
  destruct (trimEnd rest).
  - destruct (is_space d); [discriminate |].
    intros H. injection H as <- _. now eexists.
  - intros H. injection H as <- _. now eexists.
Qed.

(** A trimmed text that is not empty starts with a code unit that is no
    white space. *)
Lemma trim_head (s : string) (c : ascii) (kept : string) :
  trim s = String c kept -> is_space c = false.
Proof.
  unfold trim. intros H.
  destruct (trimEnd_cons_inv _ _ _ H) as [rest Hrest].
  now apply trimStart_head in Hrest.
Qed.

Lemma trim_of_head (c : ascii) (rest : string) :
  is_space c = false -> exists kept, trim (String c rest) = String c kept.
Proof.
  intros Hc. unfold trim. simpl trimStart. rewrite Hc.
  now apply trimEnd_head.
Qed.

Lemma split_lines_head (c : ascii) (rest : string) :
  Ascii.eqb c LF = false ->
  exists line lines, split_lines (String c rest) = String c line :: lines.
Proof.
  intros Hc. simpl. rewrite Hc.
  destruct (split_lines rest); now eexists _, _.
Qed.

Lemma space_of_LF (c : ascii) : is_space c = false -> Ascii.eqb c LF = false.
Proof.
  destruct (Ascii.eqb_spec c LF) as [-> | _]; [discriminate | reflexivity].
Qed.

(** A text that starts with something else than white space has a first
    line that is not blank. *)
Lemma nonEmptyLines_of_head (c : ascii) (rest : string) :
  is_space c = false -> nonEmptyLines (String c rest) <> [].
Proof.
  intros Hc. unfold nonEmptyLines.
  destruct (split_lines_head c rest (space_of_LF c Hc)) as (line & lines & ->).
  cbn [map]. destruct (trim_of_head c line Hc) as [kept ->].
  simpl. discriminate.
Qed.

Lemma matchesSomewhere_skip (p : ascii) (pattern : string) (c : ascii)
  (text : string) :
  RecoveryTab.sameLetter p c = false ->
  RecoveryTab.matchesSomewhere (String p pattern) (String c text)
  = RecoveryTab.matchesSomewhere (String p pattern) text.
Proof.
  intros H.
  cbn [RecoveryTab.matchesSomewhere RecoveryTab.matchesHere].
  now rewrite H.
Qed.

Lemma digits_no_match (d : Decimal.uint) (t : string) :
  RecoveryTab.matchesSomewhere "duplicate"
    (DecimalString.NilEmpty.string_of_uint d ++ t)
  = RecoveryTab.matchesSomewhere "duplicate" t.
Proof.
  induction d; cbn [DecimalString.NilEmpty.string_of_uint String.append];
    [reflexivity | ..];
    rewrite matchesSomewhere_skip by reflexivity; exact IHd.
Qed.

Lemma decimal_no_match (n : nat) (t : string) :
  RecoveryTab.matchesSomewhere "duplicate" (Reference.decimal n ++ t)
  = RecoveryTab.matchesSomewhere "duplicate" t.
Proof.
  unfold Reference.decimal, DecimalString.NilZero.string_of_uint.
  destruct (Nat.to_uint n) eqn:E; try apply digits_no_match.
  reflexivity.
Qed.

Section PasteFacts.
Context {P : Platform}.

Lemma format_error_no_duplicate (line : nat) :
  RecoveryTab.mentionsDuplicate (InvalidShardFormat line) = Ok false.
Proof.
  unfold RecoveryTab.mentionsDuplicate.
  change ("Line " ++ Reference.decimal line ++ ": Invalid shard format")%string
    with (String "L" (String "i" (String "n" (String "e" (String " "
            (Reference.decimal line ++ ": Invalid shard format")))))).
  rewrite !matchesSomewhere_skip by reflexivity.
  now rewrite decimal_no_match.
Qed.

Lemma some_format_errors (shareStrings : list value) :
  forall index,
    some RecoveryTab.mentionsDuplicate (formatErrors index shareStrings)
    = Ok false.
Proof.
  induction shareStrings as [| s rest IH]; intros index; [reflexivity |].
  cbn [formatErrors]. destruct (is_valid_share (resolved s));
    cbn [app some]; [apply IH |].
  rewrite format_error_no_duplicate. cbn [bind]. apply IH.
Qed.

Lemma some_app {A : Type} (f : A -> result bool) (l1 l2 : list A) :
  some f l1 = Ok false -> some f (l1 ++ l2) = some f l2.
Proof.
  induction l1 as [| x rest IH]; simpl; [reflexivity |].
  destruct (f x) as [[|] |]; simpl; try discriminate. exact IH.
Qed.

(** X14: when the count is at or above the threshold and no index is
    repeated, a set is invalid only because some line is no share; and
    [processValidationResult] then shows the status 'insufficient', with
    the text of [errors.insufficientShares], the threshold and a count that
    is not below it. *)
Theorem enough_shares_shown_insufficient (shareStrings : list value)
  (r : validation) :
  validateShareCollection shareStrings = Ok r ->
  at_least (validCount r) (threshold r) = Ok true ->
  isValid r = false ->
  ~ In DuplicateIndices (errors r) ->
  (exists n, In (InvalidShardFormat n) (errors r)) /\
  RecoveryTab.processValidationResult r
  = Ok {| RecoveryTab.shownClass := RecoveryTab.InsufficientStatus;
          RecoveryTab.shownText :=
            RecoveryTab.InsufficientSharesText (threshold r) (validCount r);
          RecoveryTab.disabled := true;
          RecoveryTab.assigned := None |}.
Proof.
  intros H Hge Hinvalid Hnodup.
  unfold RecoveryTab.processValidationResult. rewrite Hinvalid. cbn [negb].
  apply validateShareCollection_Ok in H as [[Hs ->] | [Hs (x & Hx & ->)]];
    unfold at_least, finished in *;
    cbn [validCount threshold errors isValid collect c_errors c_validCount
           c_shareIndices nothing_collected app Nat.add] in *.
  - unfold expected_threshold in Hge. rewrite Hs in Hge. discriminate Hge.
  - rewrite Hx in Hge. cbn [bind] in Hge. injection Hge as Hge.
    rewrite Hge, (js_ge_not_lt _ _ Hge) in *.
    destruct (negb _); [elim Hnodup; apply in_or_app; right; now left |].
    rewrite andb_true_r in Hinvalid.
    destruct (validShares shareStrings) as [| first rest]; [now elim Hs |].
    cbn [List.length Nat.eqb].
    rewrite some_format_errors. cbn [bind]. split; [| reflexivity].
    destruct (formatErrors 0 shareStrings) as [| m rest'] eqn:Hf;
      [discriminate Hinvalid |].
    assert (In m (formatErrors 0 shareStrings)) as Hin
      by (rewrite Hf; now left).
    destruct (formatErrors_In _ _ _ Hin) as [line ->].
    exists line. now left.
Qed.

Lemma processValidationResult_not_waiting (r : validation)
  (p : RecoveryTab.panel) :
  RecoveryTab.processValidationResult r = Ok p ->
  RecoveryTab.shownClass p <> RecoveryTab.WaitingStatus.
Proof.
  unfold RecoveryTab.processValidationResult.
  destruct (isValid r); simpl.
  - intros H. injection H as <-. discriminate.
  - destruct (validCount r =? 0).
    + intros H. injection H as <-. discriminate.
    + destruct (some _ _) as [[|] |]; simpl; try discriminate;
        intros H; injection H as <-; discriminate.
Qed.

(** X15: [validatePasteInput] shows 'waiting' exactly when the input is
    blank.  The second test for it, on the list of lines, never holds: a
    text that is not blank has a line that is not blank, so that
    [validateShareCollection] is called, on at least one line, and the
    status is what [processValidationResult] makes of its result. *)
Theorem paste_waits_only_for_blank_input (inputValue : string)
  (p : RecoveryTab.panel) :
  RecoveryTab.validatePasteInput inputValue = Ok p ->
  (RecoveryTab.shownClass p = RecoveryTab.WaitingStatus <->
   trim inputValue = EmptyString) /\
  (trim inputValue <> EmptyString ->
   RecoveryTab.pastedLines (trim inputValue) <> [] /\
   exists r,
     validateShareCollection (RecoveryTab.pastedLines (trim inputValue)) = Ok r /\
     RecoveryTab.processValidationResult r = Ok p).
Proof.
  unfold RecoveryTab.validatePasteInput.
  destruct (trim inputValue) as [| c kept] eqn:Ht.
  - simpl. intros H. injection H as <-. split; [now split |].
    intros Hne. now elim Hne.
  - assert (RecoveryTab.pastedLines (String c kept) <> []) as Hlines.
    { unfold RecoveryTab.pastedLines. intros Hnil.
      apply map_eq_nil in Hnil. revert Hnil.
      apply nonEmptyLines_of_head. now apply trim_head in Ht. }
    cbn [String.eqb].
    destruct (RecoveryTab.pastedLines (String c kept)) as [| l ls] eqn:Hl;
      [now elim Hlines |].
    cbn [List.length Nat.eqb].
    destruct (validateShareCollection (l :: ls)) as [r |]; cbn [bind];
      [| discriminate].
    intros Hp. split.
    + split; [| discriminate].
      intros Hw. now apply processValidationResult_not_waiting in Hp.
    + intros _. split; [discriminate |]. now exists r.
Qed.

End PasteFacts.

Lemma enough_shares_shown_insufficient_witness :
  validateShareCollection (P := Reference.platform)
    (RecoveryTab.pastedLines (trim pasted_with_noise))
  = Ok pasted_with_noise_result /\
  at_least (P := Reference.platform) (validCount pasted_with_noise_result)
    (threshold pasted_with_noise_result) = Ok true /\
  RecoveryTab.processValidationResult (P := Reference.platform)
    pasted_with_noise_result
  = Ok pasted_with_noise_panel.
Proof.
  assert (validateShareCollection (P := Reference.platform)
            (RecoveryTab.pastedLines (trim pasted_with_noise))
          = Ok pasted_with_noise_result) as H1 by reflexivity.
  assert (at_least (P := Reference.platform)
            (validCount pasted_with_noise_result)
            (threshold pasted_with_noise_result) = Ok true) as H2
    by reflexivity.
  assert (isValid pasted_with_noise_result = false) as H3 by reflexivity.
  assert (~ In DuplicateIndices (errors pasted_with_noise_result)) as H4
    by (simpl; intros [H | []]; discriminate H).
  split; [exact H1 |]. split; [exact H2 |].
  apply (enough_shares_shown_insufficient (P := Reference.platform)
           _ _ H1 H2 H3 H4).
Defined.

Lemma paste_waits_only_for_blank_input_witness :
  RecoveryTab.validatePasteInput (P := Reference.platform) pasted_with_noise
  = Ok pasted_with_noise_panel /\
  (RecoveryTab.shownClass pasted_with_noise_panel = RecoveryTab.WaitingStatus
   <-> trim pasted_with_noise = EmptyString).
Proof.
  assert (RecoveryTab.validatePasteInput (P := Reference.platform)
            pasted_with_noise = Ok pasted_with_noise_panel) as H
    by reflexivity.
  split; [exact H |].
  apply (paste_waits_only_for_blank_input (P := Reference.platform) _ _ H).
Defined.

(** ** The words *)

Lemma lower_idempotent (c : ascii) : lower (lower c) = lower c.
Proof. destruct c as [[] [] [] [] [] [] [] []]; reflexivity. Qed.

Lemma lower_space (c : ascii) : is_space (lower c) = is_space c.
Proof. destruct c as [[] [] [] [] [] [] [] []]; reflexivity. Qed.

Lemma toLowerCase_idempotent (s : string) :
  toLowerCase (toLowerCase s) = toLowerCase s.
Proof.
  induction s as [| c rest IH]; simpl; [reflexivity |].
  now rewrite lower_idempotent, IH.
Qed.

Lemma trimStart_toLowerCase (s : string) :
  trimStart (toLowerCase s) = toLowerCase (trimStart s).
Proof.
  induction s as [| c rest IH]; simpl; [reflexivity |].
  rewrite lower_space. now destruct (is_space c).
Qed.

Lemma trimEnd_toLowerCase (s : string) :
  trimEnd (toLowerCase s) = toLowerCase (trimEnd s).
Proof.
  induction s as [| c rest IH]; simpl; [reflexivity |].
  rewrite IH, lower_space.
  destruct (trimEnd rest); simpl; [now destruct (is_space c) | reflexivity].
Qed.

Lemma trim_toLowerCase (s : string) :
  trim (toLowerCase s) = toLowerCase (trim s).
Proof.
  unfold trim. now rewrite trimStart_toLowerCase, trimEnd_toLowerCase.
Qed.

Lemma trimEnd_idempotent (s : string) : trimEnd (trimEnd s) = trimEnd s.
Proof.
  induction s as [| c rest IH]; simpl; [reflexivity |].
  destruct (trimEnd rest) as [| d kept] eqn:E.
  - destruct (is_space c) eqn:Hc; simpl; [reflexivity | now rewrite Hc].
  - simpl in *. now rewrite IH.
Qed.

Lemma trimStart_trimEnd (s : string) :
  trimStart (trimEnd s) = trimEnd (trimStart s).
Proof.
  induction s as [| c rest IH]; [reflexivity |].
  cbn [trimStart trimEnd].
  destruct (is_space c) eqn:Hc.
  - rewrite <- IH.
    destruct (trimEnd rest) as [| d kept]; [reflexivity |].
    cbn [trimStart]. now rewrite Hc.
  - destruct (trimEnd rest) as [| d kept] eqn:E;
      cbn [trimStart trimEnd]; rewrite Hc, ?E; reflexivity.
Qed.

Lemma trimStart_idempotent (s : string) : trimStart (trimStart s) = trimStart s.
Proof.
  induction s as [| c rest IH]; simpl; [reflexivity |].
  destruct (is_space c) eqn:Hc; [exact IH |]. simpl. now rewrite Hc.
Qed.

Lemma trim_idempotent (s : string) : trim (trim s) = trim s.
Proof.
  unfold trim.
  now rewrite trimStart_trimEnd, trimStart_idempotent, trimEnd_idempotent.
Qed.

Lemma toLowerCase_empty (s : string) :
  (toLowerCase s =? "")%string = (s =? "")%string.
Proof. now destruct s. Qed.

Lemma normalised_idempotent (w : string) :
  normalised (normalised w) = normalised w.
Proof.
  unfold normalised.
  now rewrite trim_toLowerCase, trim_idempotent, toLowerCase_idempotent.
Qed.

Lemma length_zero_empty (s : string) :
  (String.length s =? 0) = (s =? "")%string.
Proof. now destruct s. Qed.

Lemma isValidBIP39Word_not_string (wordList : list value) (word : value) :
  typeof_string word = false -> isValidBIP39Word wordList word = Ok false.
Proof.
  intros H. unfold isValidBIP39Word. rewrite H.
  now destruct (negb (truthy word)).
Qed.

Lemma isValidBIP39Word_string (wordList : list value) (w : string) :
  isValidBIP39Word wordList (VString w)
  = Ok (negb (blank w) && includes wordList (VString (normalised w))).
Proof.
  unfold isValidBIP39Word, blank, normalised. simpl.
  destruct w as [| c rest]; [reflexivity |]. simpl negb. cbv iota.
  rewrite length_zero_empty.
  now destruct (trim (String c rest) =? "")%string.
Qed.

Lemma blank_normalised (w : string) : blank (normalised w) = blank w.
Proof.
  unfold blank, normalised.
  now rewrite trim_toLowerCase, trim_idempotent, toLowerCase_empty.
Qed.

(** X16: [isValidBIP39Word] never throws.  It is true exactly of a
    string that is not blank and that the word list has once it is trimmed
    and put in small letters, and false of everything else; so neither
    the case of the word nor the white space around it matters. *)
Theorem isValidBIP39Word_ignores_case_and_space (wordList : list value)
  (word : value) :
  exists b,
    isValidBIP39Word wordList word = Ok b /\
    (b = true <->
     exists w, word = VString w /\ blank w = false /\
               includes wordList (VString (normalised w)) = true) /\
    forall w, word = VString w ->
              isValidBIP39Word wordList (VString (normalised w)) = Ok b.
Proof.
  destruct (typeof_string word) eqn:Hs.
  - destruct word as [| | b0 | n | w | id props | id elements];
      try discriminate Hs.
    rewrite isValidBIP39Word_string. eexists. split; [reflexivity |]. split.
    + split.
      * intros Hb. apply andb_true_iff in Hb as [Hblank Hin].
        exists w. repeat split; [| exact Hin].
        now apply negb_true_iff in Hblank.
      * intros (w' & Hw & Hblank & Hin). injection Hw as <-.
        now rewrite Hblank, Hin.
    + intros w' Hw. injection Hw as <-.
      now rewrite isValidBIP39Word_string, blank_normalised,
        normalised_idempotent.
  - exists false. split; [now apply isValidBIP39Word_not_string |]. split.
    + split; [discriminate |].
      intros (w & -> & _). discriminate Hs.
    + intros w Hw. subst word. discriminate Hs.
Qed.

Lemma Set_has_strings (W : list string) (x : string) :
  Set_has (map VString W) (VString x) = existsb (String.eqb x) W.
Proof.
  unfold Set_has. induction W as [| y rest IH]; simpl; [reflexivity |].
  now rewrite IH.
Qed.

Lemma existsb_eqb_In (W : list string) (x : string) :
  existsb (String.eqb x) W = true <-> In x W.
Proof.
  rewrite existsb_exists. split.
  - intros (y & Hin & Heq). apply String.eqb_eq in Heq. now subst.
  - intros Hin. exists x. split; [exact Hin | apply String.eqb_refl].
Qed.

Lemma Set_add_strings (W : list string) (x : string) :
  Set_add (map VString W) (VString x)
  = map VString (if existsb (String.eqb x) W then W else W ++ [x]).
Proof.
  unfold Set_add. rewrite Set_has_strings.
  destruct (existsb (String.eqb x) W); [reflexivity |].
  now rewrite map_app.
Qed.

Lemma NoDup_snoc (W : list string) (x : string) :
  NoDup W -> ~ In x W -> NoDup (W ++ [x]).
Proof.
  intros HW Hx. apply NoDup_app; [exact HW | repeat constructor; auto |].
  intros y Hy [<- | []]. now apply Hx.
Qed.

Lemma count_snoc (seen : list string) (x y : string) :
  count y (seen ++ [x]) = count y seen + (if string_dec x y then 1 else 0).
Proof.
  unfold count. rewrite count_occ_app. simpl.
  now destruct (string_dec x y).
Qed.

Lemma noteWord_string (W D : list string) (w : string) :
  noteWord (map VString W, map VString D) (VString w)
  = Ok (if existsb (String.eqb (normalised w)) W
        then (map VString W,
              map VString (if existsb (String.eqb (normalised w)) D
                           then D else D ++ [normalised w]))
        else (map VString (W ++ [normalised w]), map VString D)).
Proof.
  unfold noteWord, normalised. cbn [method_trim bind].
  rewrite Set_has_strings.
  destruct (existsb _ W) eqn:E.
  - now rewrite Set_add_strings.
  - rewrite Set_add_strings, E. reflexivity.
Qed.

(** The loop over the words, started with the words [seen] behind it. *)
Lemma noteWord_loop (ws : list string) :
  forall (W D seen : list string),
    NoDup W -> NoDup D ->
    (forall x, In x W <-> In x seen) ->
    (forall x, In x D <-> 2 <= count x seen) ->
    exists W' D',
      foldM noteWord (map VString W, map VString D) (map VString ws)
      = Ok (map VString W', map VString D') /\
      NoDup D' /\
      (forall x, In x D' <-> 2 <= count x (seen ++ map normalised ws)).
Proof.
  induction ws as [| w rest IH]; intros W D seen HW HD Hseen Hdup.
  - exists W, D. simpl. rewrite app_nil_r.
    split; [reflexivity |]. split; assumption.
  - cbn [map foldM]. rewrite noteWord_string. cbn [bind].
    replace (seen ++ normalised w :: map normalised rest)
      with ((seen ++ [normalised w]) ++ map normalised rest)
      by now rewrite <- app_assoc.
    set (x := normalised w).
    destruct (existsb (String.eqb x) W) eqn:EW.
    + apply existsb_eqb_In in EW. apply Hseen in EW.
      assert (1 <= count x seen) as Hone
        by (unfold count; now apply count_occ_In).
      destruct (existsb (String.eqb x) D) eqn:ED.
      * apply IH; try assumption.
        -- intros y. rewrite Hseen, in_app_iff. simpl. split; [auto |].
           intros [H | [<- | []]]; assumption.
        -- intros y. rewrite count_snoc, Hdup.
           destruct (string_dec x y) as [<- | _]; [| now rewrite Nat.add_0_r].
           apply existsb_eqb_In, Hdup in ED. lia.
      * assert (~ In x D) as HxD.
        { intros H. apply existsb_eqb_In in H. congruence. }
        apply IH; try assumption.
        -- now apply NoDup_snoc.
        -- intros y. rewrite Hseen, in_app_iff. simpl. split; [auto |].
           intros [H | [<- | []]]; assumption.
        -- intros y. rewrite count_snoc, in_app_iff, Hdup. simpl.
           destruct (string_dec x y) as [<- | Hne].
           ++ split; [lia | auto].
           ++ rewrite Nat.add_0_r. split; [| auto].
              intros [H | [H | []]]; [exact H | now elim Hne].
    + assert (~ In x W) as HxW.
      { intros H. apply existsb_eqb_In in H. congruence. }
      assert (count x seen = 0) as Hzero.
      { unfold count. apply count_occ_not_In. now rewrite <- Hseen. }
      apply IH; try assumption.
      * now apply NoDup_snoc.
      * intros y. rewrite !in_app_iff, Hseen. reflexivity.
      * intros y. rewrite count_snoc, Hdup.
        destruct (string_dec x y) as [<- | _]; [lia | now rewrite Nat.add_0_r].
Qed.

Lemma isEmptyWord_string (w : string) :
  isEmptyWord (VString w) = Ok (blank w).
Proof.
  unfold isEmptyWord, blank. simpl.
  destruct w as [| c rest]; [reflexivity |]. simpl negb. cbv iota.
  now rewrite length_zero_empty.
Qed.

Lemma some_isEmptyWord (ws : list string) :
  some isEmptyWord (map VString ws) = Ok (existsb blank ws).
Proof.
  induction ws as [| w rest IH]; [reflexivity |].
  cbn [map some existsb]. rewrite isEmptyWord_string. cbn [bind].
  now destruct (blank w).
Qed.

Lemma NoDup_count (l : list string) :
  NoDup l <-> forall x, ~ 2 <= count x l.
Proof.
  unfold count. rewrite (NoDup_count_occ string_dec). split.
  - intros H x. specialize (H x). lia.
  - intros H x. specialize (H x). lia.
Qed.

Lemma map_stringOf (D : list string) : map stringOf (map VString D) = D.
Proof. induction D as [| d rest IH]; simpl; [reflexivity | now rewrite IH]. Qed.

(** What [validateMnemonic] returns on an array of strings. *)
Lemma validateMnemonic_strings (id : positive) (ws : list string) :
  exists D,
    validateMnemonic (VArray id (map VString ws))
    = Ok {| Mnemonic.isValid :=
              negb (existsb blank ws)
              && match D with [] => true | _ :: _ => false end;
            Mnemonic.errors :=
              (if existsb blank ws then [Mnemonic.EmptyWords] else [])
              ++ match D with
                 | [] => []
                 | _ :: _ => [Mnemonic.DuplicateWords (join ", " D)]
                 end;
            Mnemonic.duplicates := map VString D |} /\
    NoDup D /\
    (forall x, In x D <-> 2 <= count x (map normalised ws)).
Proof.
  unfold validateMnemonic, validateWords.
  rewrite some_isEmptyWord. cbn [bind].
  destruct (noteWord_loop ws [] [] []) as (W' & D & Hloop & HD & Hdup).
  { constructor. }
  { constructor. }
  { intros x. reflexivity. }
  { intros x. simpl. split; [intros [] | unfold count; simpl; lia]. }
  change (@nil value) with (map VString []) at 1 2.
  rewrite Hloop. cbn [bind snd]. exists D. split; [| now split].
  rewrite length_map, map_stringOf.
  destruct D as [| d rest]; destruct (existsb blank ws); reflexivity.
Qed.

Lemma strings_of_values (elements : list value) :
  forallb typeof_string elements = true ->
  exists ws, elements = map VString ws.
Proof.
  induction elements as [| v rest IH]; intros H; [now exists [] |].
  simpl in H. apply andb_true_iff in H as [Hv Hrest].
  destruct (IH Hrest) as [ws ->].
  destruct v; try discriminate Hv. now exists (s :: ws).
Qed.

Lemma foldM_noteWord_strings (elements : list value) :
  forall st st',
    foldM noteWord st elements = Ok st' ->
    forallb typeof_string elements = true.
Proof.
  induction elements as [| v rest IH]; intros st st' H; [reflexivity |].
  cbn [foldM] in H.
  destruct (noteWord st v) as [st1 |] eqn:Hv; cbn [bind] in H;
    [| discriminate H].
  simpl. rewrite (IH _ _ H), andb_true_r.
  destruct st as [W D]. unfold noteWord in Hv.
  destruct v; try discriminate Hv. reflexivity.
Qed.

(** X17: [validateMnemonic] returns exactly on an array whose elements are
    all strings.  On anything else, a string among them, it throws a
    [TypeError]: [words.some] is no function there, and in an array
    [word.trim] is none on an element that is no string. *)
Theorem validateMnemonic_needs_an_array_of_strings (words : value) :
  ((exists r, validateMnemonic words = Ok r) <->
   (exists id ws, words = VArray id (map VString ws))) /\
  (forall e, validateMnemonic words = Throw e -> e = TypeError) /\
  (forall s, validateMnemonic (VString s) = Throw TypeError).
Proof.
  split; [split |].
  - intros [r Hr]. unfold validateMnemonic in Hr.
    destruct words as [| | b | n | s | id props | id elements];
      try discriminate Hr.
    unfold validateWords in Hr.
    destruct (some isEmptyWord elements) as [empty |]; cbn [bind] in Hr;
      [| discriminate Hr].
    destruct (foldM noteWord ([], []) elements) as [st |] eqn:Hloop;
      cbn [bind] in Hr; [| discriminate Hr].
    apply foldM_noteWord_strings, strings_of_values in Hloop as [ws ->].
    now exists id, ws.
  - intros (id & ws & ->).
    destruct (validateMnemonic_strings id ws) as (D & -> & _). now eexists.
  - split; [| reflexivity].
    intros e He. unfold validateMnemonic in He.
    destruct words as [| | b | n | s | id props | id elements];
      try (now injection He as <-).
    unfold validateWords in He.
    assert (forall v e', isEmptyWord v = Throw e' -> e' = TypeError) as Hempty.
    { intros v e'. unfold isEmptyWord.
      destruct (negb (truthy v)); [discriminate |].
      destruct v; simpl; try discriminate; intros H; now injection H as <-. }
    assert (forall l e', some isEmptyWord l = Throw e' -> e' = TypeError)
      as Hsome.
    { induction l as [| v rest IH]; intros e'; simpl; [discriminate |].
      destruct (isEmptyWord v) as [[|] |] eqn:Hv; cbn [bind];
        [discriminate | apply IH |].
      intros H. injection H as <-. now apply Hempty in Hv. }
    assert (forall l st e', foldM noteWord st l = Throw e' -> e' = TypeError)
      as Hfold.
    { induction l as [| v rest IH]; intros st e'; simpl; [discriminate |].
      destruct (noteWord st v) as [st1 |] eqn:Hv; cbn [bind]; [apply IH |].
      intros H. injection H as <-.
      destruct st as [W D]. unfold noteWord in Hv.
      destruct v; simpl in Hv; try (now injection Hv as <-).
      destruct (Set_has W _); discriminate Hv. }
    destruct (some isEmptyWord elements) as [empty |] eqn:Hs; cbn [bind] in He.
    + destruct (foldM noteWord ([], []) elements) as [st |] eqn:Hloop;
        cbn [bind] in He; [discriminate He |].
      injection He as <-. now apply Hfold in Hloop.
    + injection He as <-. now apply Hsome in Hs.
Qed.

(** X18: on an array of strings [validateMnemonic] reports the set valid
    exactly when no word is blank and no two words are the same once
    trimmed and put in small letters; and when a word is blank, the
    empty-words message is the first of the errors. *)
Theorem validateMnemonic_valid_iff (id : positive) (ws : list string)
  (r : Mnemonic.validation) :
  validateMnemonic (VArray id (map VString ws)) = Ok r ->
  (Mnemonic.isValid r = true <->
   (forall w, In w ws -> blank w = false) /\ NoDup (map normalised ws)) /\
  (existsb blank ws = true ->
   hd_error (Mnemonic.errors r) = Some Mnemonic.EmptyWords).
Proof.
  destruct (validateMnemonic_strings id ws) as (D & -> & HD & Hdup).
  intros H. injection H as <-. cbn [Mnemonic.isValid Mnemonic.errors].
  split.
  - rewrite andb_true_iff, negb_true_iff. split.
    + intros [Hblank HDnil]. split.
      * intros w Hw. destruct (blank w) eqn:E; [| reflexivity].
        assert (existsb blank ws = true) as Hex
          by (apply existsb_exists; now exists w).
        congruence.
      * apply NoDup_count. intros x Hx. apply Hdup in Hx.
        destruct D; [contradiction | discriminate HDnil].
    + intros [Hblank Hnodup]. split.
      * destruct (existsb blank ws) eqn:E; [| reflexivity].
        apply existsb_exists in E as (w & Hw & Hb).
        rewrite (Hblank w Hw) in Hb. discriminate Hb.
      * destruct D as [| d rest]; [reflexivity |].
        assert (2 <= count d (map normalised ws)) as Hd
          by (apply Hdup; now left).
        rewrite NoDup_count in Hnodup. now elim (Hnodup d).
  - intros ->. reflexivity.
Qed.

(** X19: on an array of strings the [duplicates] returned by
    [validateMnemonic] are strings, each once: the words, trimmed and in
    small letters, that come at least twice; and when there is one the
    errors hold the duplicate-words message with these words, joined. *)
Theorem validateMnemonic_duplicates (id : positive) (ws : list string)
  (r : Mnemonic.validation) :
  validateMnemonic (VArray id (map VString ws)) = Ok r ->
  exists D,
    Mnemonic.duplicates r = map VString D /\
    NoDup D /\
    (forall x, In x D <-> 2 <= count x (map normalised ws)) /\
    (D <> [] ->
     In (Mnemonic.DuplicateWords (join ", " D)) (Mnemonic.errors r)).
Proof.
  destruct (validateMnemonic_strings id ws) as (D & -> & HD & Hdup).
  intros H. injection H as <-. exists D.
  cbn [Mnemonic.duplicates Mnemonic.errors].
  repeat split; try assumption; try apply Hdup.
  intros Hne. apply in_or_app. right.
  destruct D; [now elim Hne | now left].
Qed.

Lemma validateMnemonic_valid_iff_witness :
  validateMnemonic (VArray 1 (map VString three_words)) = Ok three_words_result /\
  (Mnemonic.isValid three_words_result = true <->
   (forall w, In w three_words -> blank w = false) /\
   NoDup (map normalised three_words)).
Proof.
  assert (validateMnemonic (VArray 1 (map VString three_words))
          = Ok three_words_result) as H by reflexivity.
  split; [exact H |].
  apply (validateMnemonic_valid_iff 1 three_words three_words_result H).
Defined.

Lemma validateMnemonic_duplicates_witness :
  validateMnemonic (VArray 1 (map VString repeated_word))
  = Ok repeated_word_result /\
  exists D,
    Mnemonic.duplicates repeated_word_result = map VString D /\
    NoDup D /\
    (forall x, In x D <-> 2 <= count x (map normalised repeated_word)).
Proof.
  assert (validateMnemonic (VArray 1 (map VString repeated_word))
          = Ok repeated_word_result) as H by reflexivity.
  split; [exact H |].
  destruct (validateMnemonic_duplicates 1 repeated_word repeated_word_result H)
    as (D & HD & Hnodup & Hcount & _).
  now exists D.
Defined.

(** ** Generation *)

Section GenerationFacts.
Context {P : Platform} {E : Encoder}.
Variable split : list Byte.byte -> value -> value -> result (list (list Byte.byte)).
Variable encryptionValidation : result settings.

Lemma joinWords_strings (id : positive) (ws : list string) :
  joinWords (VArray id (map VString ws)) = Ok (join " " ws).
Proof.
  unfold joinWords.
  assert (mapM (fun x => match x with
                         | VUndefined | VNull => Ok EmptyString
                         | _ => ToString x
                         end) (map VString ws) = Ok ws) as ->; [| reflexivity].
  induction ws as [| w rest IH]; [reflexivity |].
  cbn [map mapM ToString bind]. now rewrite IH.
Qed.

(** What [generateShares] does with an array of strings. *)
Lemma generateShares_strings (id : positive) (ws : list string)
  (totalShares threshold : value) :
  exists D,
    NoDup D /\
    (forall x, In x D <-> 2 <= count x (map normalised ws)) /\
    Generation.generateShares split encryptionValidation
      (VArray id (map VString ws)) totalShares threshold []
    = if existsb blank ws
      then ([Show (MnemonicError (Some Mnemonic.EmptyWords))], Ok false)
      else
        match D with
        | _ :: _ =>
            ([Show (MnemonicError
                      (Some (Mnemonic.DuplicateWords (join ", " D))))],
             Ok false)
        | [] =>
            match encryptionValidation with
            | Throw e => ([Show (GenerateFailed e)], Ok false)
            | Ok (SettingsInvalid error) =>
                ([Show (EncryptionError error)], Ok false)
            | Ok SettingsValid =>
                let secretBytes := utf8 (join " " ws) in
                match split secretBytes totalShares threshold with
                | Throw e =>
                    ([Split secretBytes totalShares threshold;
                      Show (GenerateFailed e)], Ok false)
                | Ok rawShares =>
                    match mapiM (Generation.encodeShare threshold totalShares)
                            0 rawShares with
                    | Throw e =>
                        ([Split secretBytes totalShares threshold;
                          Show (GenerateFailed e)], Ok false)
                    | Ok currentShares =>
                        ([Split secretBytes totalShares threshold;
                          Store currentShares threshold;
                          DisplayShares;
                          Show SharesGenerated], Ok true)
                    end
                end
            end
        end.
Proof.
  destruct (validateMnemonic_strings id ws) as (D & Hv & HD & Hdup).
  exists D. split; [exact HD |]. split; [exact Hdup |].
  unfold Generation.generateShares, lcatch, lbind, llift, emit, lret.
  rewrite Hv, joinWords_strings. cbn [Mnemonic.isValid Mnemonic.errors].
  destruct (existsb blank ws); [reflexivity |].
  destruct D as [| d rest]; [| reflexivity].
  cbn [negb andb app].
  destruct encryptionValidation as [[| error] | e]; try reflexivity.
  cbv zeta.
  destruct (split (utf8 (join " " ws)) totalShares threshold)
    as [rawShares | e]; [| reflexivity].
  now destruct (mapiM _ 0 rawShares).
Qed.

(** X20: what [generateShares] does with an array of strings, case by
    case; it never throws.  With a blank word it shows the empty-words
    message.  With no blank word and two words that are the same once
    trimmed and put in small letters it shows the duplicate-words message
    with the repeated words.  In both cases [split] is not called.
    Otherwise the encryption settings are looked at: when they are refused
    or throw, the error is shown and [split] is not called; when they are
    valid, [split] is called once, on the UTF-8 of the words as they were
    given, joined by single spaces.  When [split] or the encoding of a
    share fails the failure is shown and nothing is stored; and when both
    succeed the encoded shares are stored with the threshold and displayed,
    the success is shown, and the result, [false] in all other cases, is
    [true]. *)
Theorem generateShares_outcome (id : positive) (ws : list string)
  (totalShares threshold : value) :
  let run := Generation.generateShares split encryptionValidation
               (VArray id (map VString ws)) totalShares threshold in
  let secretBytes := utf8 (join " " ws) in
  ((exists w, In w ws /\ blank w = true) ->
   trace run = [Show (MnemonicError (Some Mnemonic.EmptyWords))] /\
   result_of run = Ok false) /\
  ((forall w, In w ws -> blank w = false) ->
   ~ NoDup (map normalised ws) ->
   exists D,
     NoDup D /\
     (forall x, In x D <-> 2 <= count x (map normalised ws)) /\
     trace run
     = [Show (MnemonicError (Some (Mnemonic.DuplicateWords (join ", " D))))] /\
     result_of run = Ok false) /\
  ((forall w, In w ws -> blank w = false) ->
   NoDup (map normalised ws) ->
   (forall e,
       encryptionValidation = Throw e ->
       trace run = [Show (GenerateFailed e)] /\ result_of run = Ok false) /\
   (forall error,
       encryptionValidation = Ok (SettingsInvalid error) ->
       trace run = [Show (EncryptionError error)] /\
       result_of run = Ok false) /\
   (encryptionValidation = Ok SettingsValid ->
    (forall e,
        split secretBytes totalShares threshold = Throw e ->
        trace run = [Split secretBytes totalShares threshold;
                     Show (GenerateFailed e)] /\
        result_of run = Ok false) /\
    (forall rawShares,
        split secretBytes totalShares threshold = Ok rawShares ->
        (forall e,
            mapiM (Generation.encodeShare threshold totalShares) 0 rawShares
            = Throw e ->
            trace run = [Split secretBytes totalShares threshold;
                         Show (GenerateFailed e)] /\
            result_of run = Ok false) /\
        (forall currentShares,
            mapiM (Generation.encodeShare threshold totalShares) 0 rawShares
            = Ok currentShares ->
            trace run = [Split secretBytes totalShares threshold;
                         Store currentShares threshold;
                         DisplayShares;
                         Show SharesGenerated] /\
            result_of run = Ok true)))).
Proof.
  intros run secretBytes. subst run secretBytes. unfold trace, result_of.
  destruct (generateShares_strings id ws totalShares threshold)
    as (D & HD & Hdup & ->).
  assert ((exists w, In w ws /\ blank w = true) -> existsb blank ws = true)
    as Hblank by apply existsb_exists.
  assert ((forall w, In w ws -> blank w = false) -> existsb blank ws = false)
    as Hfilled.
  { intros Hnone. destruct (existsb blank ws) eqn:Hb; [| reflexivity].
    apply existsb_exists in Hb as (w & Hw & Hb).
    rewrite (Hnone w Hw) in Hb. discriminate Hb. }
  assert (D = [] <-> NoDup (map normalised ws)) as Hnodup.
  { rewrite NoDup_count. split.
    - intros -> x Hx. now apply Hdup in Hx.
    - intros H. destruct D as [| d rest]; [reflexivity |].
      elim (H d). apply Hdup. now left. }
  split; [| split].
  - intros Hw. apply Hblank in Hw. rewrite Hw. now split.
  - intros Hnone Hsame.
    rewrite (Hfilled Hnone).
    exists D. split; [exact HD |]. split; [exact Hdup |].
    destruct D as [| d rest]; [| now split].
    elim Hsame. now apply Hnodup.
  - intros Hnone Hdistinct.
    rewrite (Hfilled Hnone).
    apply Hnodup in Hdistinct as ->. cbv zeta.
    split; [| split].
    + intros e ->. now split.
    + intros error ->. now split.
    + intros ->. split.
      * intros e ->. now split.
      * intros rawShares ->. split.
        -- intros e ->. now split.
        -- intros currentShares ->. now split.
Qed.

End GenerationFacts.

(** ** The word fields *)

Section InputFacts.
Variable BIP39_WORDLIST : list value.

Lemma blank_trim (w : string) : blank (trim w) = blank w.
Proof. unfold blank. now rewrite trim_idempotent. Qed.

Lemma normalised_trim (w : string) : normalised (trim w) = normalised w.
Proof. unfold normalised. now rewrite trim_idempotent. Qed.

(** The loop of [validateAllInputs] stops at the first field that is blank
    or holds no word of the list. *)
Lemma validateFrom_stops (inputs : list (option string)) :
  forall (i : nat) (words : list string),
    (forallb (known BIP39_WORDLIST) (present inputs) = true /\
     MnemonicInput.validateFrom BIP39_WORDLIST i inputs words
     = Ok (MnemonicInput.mkValidation true
             (words ++ map trim (present inputs)) false false None)) \/
    (exists before inputValue after,
        inputs = before ++ Some inputValue :: after /\
        forallb (known BIP39_WORDLIST) (present before) = true /\
        known BIP39_WORDLIST inputValue = false /\
        MnemonicInput.validateFrom BIP39_WORDLIST i inputs words
        = Ok (MnemonicInput.mkValidation false
                (words ++ map trim (present before))
                (blank inputValue) (negb (blank inputValue))
                (if blank inputValue then None
                 else Some (i + List.length before)))).
Proof.
  induction inputs as [| input rest IH]; intros i words.
  - left. split; [reflexivity |]. simpl. now rewrite app_nil_r.
  - destruct input as [inputValue |].
    + cbn [MnemonicInput.validateFrom].
      fold (blank inputValue).
      destruct (blank inputValue) eqn:Hblank.
      * right. exists [], inputValue, rest.
        split; [reflexivity |]. split; [reflexivity |].
        split; [unfold known; now rewrite Hblank |].
        rewrite Hblank. simpl. now rewrite app_nil_r.
      * rewrite isValidBIP39Word_string, blank_trim, normalised_trim, Hblank.
        cbn [negb andb bind].
        destruct (includes BIP39_WORDLIST (VString (normalised inputValue)))
          eqn:Hin; cbn [negb].
        -- destruct (IH (S i) (words ++ [trim inputValue]))
             as [[Hall Hrun] | (before & v & after & -> & Hall & Hv & Hrun)].
           ++ left. split.
              ** cbn [present flat_map app forallb]. fold (present rest).
                 unfold known at 1. now rewrite Hblank, Hin.
              ** rewrite Hrun. cbn [present flat_map app map].
                 fold (present rest). now rewrite <- app_assoc.
           ++ right. exists (Some inputValue :: before), v, after.
              split; [reflexivity |]. split.
              ** cbn [present flat_map app forallb]. fold (present before).
                 unfold known at 1. now rewrite Hblank, Hin.
              ** split; [exact Hv |]. rewrite Hrun.
                 cbn [present flat_map app map List.length].
                 fold (present before). rewrite <- app_assoc.
                 now rewrite Nat.add_succ_r.
        -- right. exists [], inputValue, rest.
           split; [reflexivity |]. split; [reflexivity |].
           split; [unfold known; now rewrite Hblank, Hin |].
           rewrite Hblank. simpl. now rewrite app_nil_r, Nat.add_0_r.
    + cbn [MnemonicInput.validateFrom].
      destruct (IH (S i) words)
        as [[Hall Hrun] | (before & v & after & -> & Hall & Hv & Hrun)].
      * left. split; [exact Hall | exact Hrun].
      * right. exists (None :: before), v, after.
        split; [reflexivity |]. split; [exact Hall |].
        split; [exact Hv |]. rewrite Hrun.
        cbn [present flat_map app List.length]. fold (present before).
        now rewrite Nat.add_succ_r.
Qed.

Lemma known_present (l : list (option string)) :
  forallb (known BIP39_WORDLIST) (present l) = true <->
  forall v, In (Some v) l -> known BIP39_WORDLIST v = true.
Proof.
  rewrite forallb_forall. unfold present. split.
  - intros H v Hv. apply H. apply in_flat_map. exists (Some v).
    split; [exact Hv | now left].
  - intros H v Hv. apply in_flat_map in Hv as ([w |] & Hw & Hin).
    + destruct Hin as [<- | []]. now apply H.
    + destruct Hin.
Qed.

(** What [validateAllInputs] returns. *)
Lemma validateAllInputs_first_bad_field (inputs : list (option string)) :
  ((forall v, In (Some v) inputs -> known BIP39_WORDLIST v = true) /\
   MnemonicInput.validateAllInputs BIP39_WORDLIST inputs
   = Ok (MnemonicInput.mkValidation true (map trim (present inputs))
           false false None)) \/
  (exists before inputValue after,
      inputs = before ++ Some inputValue :: after /\
      (forall v, In (Some v) before -> known BIP39_WORDLIST v = true) /\
      known BIP39_WORDLIST inputValue = false /\
      MnemonicInput.validateAllInputs BIP39_WORDLIST inputs
      = Ok (MnemonicInput.mkValidation false (map trim (present before))
              (blank inputValue) (negb (blank inputValue))
              (if blank inputValue then None
               else Some (S (List.length before))))).
Proof.
  unfold MnemonicInput.validateAllInputs.
  destruct (validateFrom_stops inputs 1 [])
    as [[Hall Hrun] | (before & v & after & Hinputs & Hall & Hv & Hrun)].
  - left. split; [now apply known_present | exact Hrun].
  - right. exists before, v, after.
    split; [exact Hinputs |]. split; [now apply known_present |].
    split; [exact Hv | exact Hrun].
Qed.

(** There is one first field that is blank or holds no word of the list. *)
Lemma first_bad_field_unique (inputs before : list (option string)) :
  forall (v : string) (after before' : list (option string)) (v' : string)
         (after' : list (option string)),
    inputs = before ++ Some v :: after ->
    (forall u, In (Some u) before -> known BIP39_WORDLIST u = true) ->
    known BIP39_WORDLIST v = false ->
    inputs = before' ++ Some v' :: after' ->
    (forall u, In (Some u) before' -> known BIP39_WORDLIST u = true) ->
    known BIP39_WORDLIST v' = false ->
    before = before' /\ v = v' /\ after = after'.
Proof.
  revert inputs.
  induction before as [| x before IH];
    intros inputs v after before' v' after' -> Hb Hv H' Hb' Hv'.
  - destruct before' as [| x' before']; simpl in H'.
    + injection H' as -> ->. now repeat split.
    + injection H' as <- _.
      rewrite (Hb' v) in Hv; [discriminate Hv | now left].
  - destruct before' as [| x' before']; simpl in H'.
    + injection H' as -> _.
      rewrite (Hb v') in Hv'; [discriminate Hv' | now left].
    + injection H' as <- H'.
      destruct (IH _ v after before' v' after' eq_refl) as (-> & -> & ->);
        try assumption.
      * intros u Hu. apply Hb. now right.
      * intros u Hu. apply Hb'. now right.
      * now repeat split.
Qed.

(** X21: [validateAllInputs] never throws, and stops at the first field
    of the page that is blank or holds no word of the list.  When there is
    none the result is valid and [words] holds the trimmed values of all the
    fields of the page, in order.  Otherwise the result is not valid,
    [words] holds the trimmed values of the fields before that one, and
    either the field is blank and [hasEmpty] is set, or it is not and
    [hasInvalidWord] is set with [invalidWordIndex] the position of the
    field, counted from 1 over all the positions; the two are never set
    together. *)
Theorem validateAllInputs_stops_at_first_bad_field
  (inputs : list (option string)) :
  exists r,
    MnemonicInput.validateAllInputs BIP39_WORDLIST inputs = Ok r /\
    (MnemonicInput.isValid r = true <->
     forall inputValue,
       In (Some inputValue) inputs ->
       known BIP39_WORDLIST inputValue = true) /\
    (MnemonicInput.isValid r = true ->
     MnemonicInput.words r = map trim (present inputs) /\
     MnemonicInput.hasEmpty r = false /\
     MnemonicInput.hasInvalidWord r = false /\
     MnemonicInput.invalidWordIndex r = None) /\
    (MnemonicInput.isValid r = false ->
     exists before inputValue after,
       inputs = before ++ Some inputValue :: after /\
       (forall v, In (Some v) before -> known BIP39_WORDLIST v = true) /\
       known BIP39_WORDLIST inputValue = false /\
       MnemonicInput.words r = map trim (present before) /\
       MnemonicInput.hasEmpty r = blank inputValue /\
       MnemonicInput.hasInvalidWord r = negb (blank inputValue) /\
       MnemonicInput.invalidWordIndex r
       = if blank inputValue then None
         else Some (S (List.length before))).
Proof.
  destruct (validateAllInputs_first_bad_field inputs)
    as [[Hall Hrun] | (before & v & after & Hinputs & Hall & Hv & Hrun)];
    rewrite Hrun; eexists; (split; [reflexivity |]);
    cbn [MnemonicInput.isValid MnemonicInput.words MnemonicInput.hasEmpty
           MnemonicInput.hasInvalidWord MnemonicInput.invalidWordIndex].
  - split; [| split].
    + split; [intros _; exact Hall | reflexivity].
    + intros _. now repeat split.
    + discriminate.
  - split; [| split].
    + split; [discriminate |]. intros H.
      rewrite (H v) in Hv; [discriminate Hv |].
      rewrite Hinputs. apply in_or_app. right. now left.
    + discriminate.
    + intros _. exists before, v, after.
      split; [exact Hinputs |]. split; [exact Hall |].
      now repeat split.
Qed.

End InputFacts.

Section RoundTrip.
Context {P : Platform} {E : Encoder}.
Variable split : list Byte.byte -> value -> value -> result (list (list Byte.byte)).
Variable encryptionValidation : result settings.

Lemma js_ge_of_nat (m n : nat) : js_ge (of_nat m) (of_nat n) = (n <=? m).
Proof.
  unfold js_ge, of_nat, number_lt, Qle_bool. simpl.
  rewrite !Z.mul_1_r, negb_involutive.
  destruct (Nat.leb_spec n m) as [H | H].
  - apply Z.leb_le. lia.
  - apply Z.leb_gt. lia.
Qed.

Lemma truthy_of_nat (n : nat) : 0 < n -> truthy (VNumber (of_nat n)) = true.
Proof.
  intros H. unfold truthy, of_nat, Qeq_bool. simpl.
  apply negb_true_iff, Z.eqb_neq. lia.
Qed.

Lemma of_nat_same (m n : nat) :
  SameValueZero (VNumber (of_nat m)) (VNumber (of_nat n)) = true -> m = n.
Proof.
  unfold SameValueZero, number_same, of_nat, Qeq_bool. simpl.
  intros H. apply Z.eqb_eq in H. lia.
Qed.

Lemma mapiM_nth {A B : Type} (f : nat -> A -> result B) (l : list A) :
  forall start out,
    mapiM f start l = Ok out ->
    forall i b,
      nth_error out i = Some b ->
      exists a, nth_error l i = Some a /\ f (start + i) a = Ok b.
Proof.
  induction l as [| a rest IH]; intros start out H i b Hb; simpl in H.
  - injection H as <-. destruct i; discriminate Hb.
  - destruct (f start a) as [b0 |] eqn:Ha; cbn [bind] in H; [| discriminate H].
    destruct (mapiM f (S start) rest) as [bs |] eqn:Hrest; cbn [bind] in H;
      [| discriminate H].
    injection H as <-. destruct i as [| i]; simpl in Hb.
    + injection Hb as <-. exists a. rewrite Nat.add_0_r. now split.
    + destruct (IH _ _ Hrest i b Hb) as (a' & Ha' & Hf).
      exists a'. split; [exact Ha' |].
      now replace (start + S i) with (S start + i) by lia.
Qed.

(** The properties of the object that [generateShares] encodes. *)
Lemma get_literal_threshold (id : positive) (index : nat)
  (threshold totalShares : value) (data : string) :
  get (with_identity id (shareDataLiteral index threshold totalShares data))
    "threshold" = Ok threshold.
Proof. reflexivity. Qed.

Lemma get_literal_index (id : positive) (index : nat)
  (threshold totalShares : value) (data : string) :
  get (with_identity id (shareDataLiteral index threshold totalShares data))
    "index" = Ok (VNumber (of_nat (index + 1))).
Proof. reflexivity. Qed.

Lemma get_literal_data (id : positive) (index : nat)
  (threshold totalShares : value) (data : string) :
  get (with_identity id (shareDataLiteral index threshold totalShares data))
    "data" = Ok (VString data).
Proof. reflexivity. Qed.

(** A string that decodes to an object with the required fields is a
    valid share for the loop of [validateShareCollection]. *)
Lemma resolved_of_decoded (s : string) (v : value) :
  s <> EmptyString ->
  decode (trim s) = Ok v ->
  hasRequiredFields v = Ok true ->
  resolved (VString s) = v.
Proof.
  intros Hs Hd Hf.
  unfold resolved, shareDataOf, parseShareData, isValidShareFormat.
  cbn [typeof_object typeof_string is_null andb negb orb truthy method_trim].
  destruct (String.eqb_spec s "") as [-> | _]; [now elim Hs |].
  cbn [negb orb bind].
  unfold decode in Hd.
  destruct (atob (trim s)) as [decoded |]; [| discriminate Hd].
  cbn [bind] in Hd |- *. rewrite Hd. cbn [bind try_catch]. rewrite Hf.
  reflexivity.
Qed.

Lemma all_distinct_map {A : Type} (f : A -> value) (l : list A) :
  NoDup l ->
  (forall a b, In a l -> In b l -> SameValueZero (f a) (f b) = true -> a = b) ->
  all_distinct (map f l) = true.
Proof.
  induction 1 as [| a rest Ha _ IH]; intros Hinj; [reflexivity |].
  simpl. apply andb_true_iff. split.
  - apply negb_true_iff. destruct (existsb _ _) eqn:Hex; [| reflexivity].
    apply existsb_exists in Hex as (y & Hy & Hsame).
    apply in_map_iff in Hy as (b & <- & Hb).
    assert (a = b) as -> by (apply Hinj; [now left | now right | exact Hsame]).
    now elim Ha.
  - apply IH. intros x y Hx Hy. apply Hinj; now right.
Qed.

Lemma validShares_all (l : list value) :
  Forall (fun v => is_valid_share (resolved v) = true) l ->
  validShares l = map resolved l.
Proof.
  induction 1 as [| v rest Hv _ IH]; [reflexivity |].
  rewrite validShares_cons, Hv, IH. reflexivity.
Qed.

(** What [validateShareCollection] returns on a clean set. *)
Lemma validateShareCollection_clean (l : list value) (th : nat) :
  l <> [] ->
  Forall (fun v => is_valid_share (resolved v) = true) l ->
  all_distinct (indices (map resolved l)) = true ->
  expected_threshold l = VNumber (of_nat th) ->
  th <= List.length l ->
  validateShareCollection l
  = Ok {| isValid := true;
          validCount := List.length l;
          threshold := VNumber (of_nat th);
          errors := [];
          shareIndices := indices (map resolved l) |}.
Proof.
  intros Hne Hall Hdistinct Ht Hle.
  rewrite validateShareCollection_eq, finish_eq, Ht.
  unfold finished.
  cbn [collect c_errors c_validCount c_shareIndices nothing_collected app
         Nat.add ToNumber bind].
  rewrite (validShares_all _ Hall), length_map.
  destruct l as [| v rest]; [now elim Hne |].
  cbn [List.length Nat.eqb].
  rewrite (formatErrors_all_valid _ 0 Hall).
  fold (first_occurrences (indices (map resolved (v :: rest)))).
  rewrite (first_occurrences_distinct _ Hdistinct).
  rewrite js_lt_of_nat, js_ge_of_nat.
  assert (List.length (indices (map resolved (v :: rest)))
          = S (List.length rest)) as Hlen
    by (unfold indices; now rewrite !length_map).
  rewrite !Hlen, Nat.eqb_refl. cbn [List.length] in Hle.
  rewrite (proj2 (Nat.ltb_ge _ _) Hle), (proj2 (Nat.leb_le _ _) Hle).
  reflexivity.
Qed.

Lemma mapiM_length {A B : Type} (f : nat -> A -> result B) (l : list A) :
  forall start out, mapiM f start l = Ok out -> List.length out = List.length l.
Proof.
  induction l as [| a rest IH]; intros start out H; simpl in H.
  - now injection H as <-.
  - destruct (f start a) as [b |]; cbn [bind] in H; [| discriminate H].
    destruct (mapiM f (S start) rest) as [bs |] eqn:Hrest; cbn [bind] in H;
      [| discriminate H].
    injection H as <-. simpl. now rewrite (IH _ _ Hrest).
Qed.

(** X22: the shares that [generateShares] stores are shares for
    [validateShareCollection].  Let the built-ins take back every object
    that is encoded, and let no raw share encode to the empty string.  When
    [generateShares] returns [true] for a threshold of at least 1, it has
    stored one share for each raw share of [split], no two of them the same;
    and of every choice among them, in any order and without repetition, of
    at least as many as the threshold, [validateShareCollection] says that
    it is valid, with all of them counted, the threshold of the generation
    and no error. *)
Theorem generated_shares_validate (id : positive) (ws : list string)
  (totalShares : value) (th : nat) (rawShares : list (list Byte.byte)) :
  let run := Generation.generateShares split encryptionValidation
               (VArray id (map VString ws)) totalShares
               (VNumber (of_nat th)) in
  result_of run = Ok true ->
  split (utf8 (join " " ws)) totalShares (VNumber (of_nat th))
  = Ok rawShares ->
  (forall index raw data,
      nth_error rawShares index = Some raw ->
      btoa (fromCharCodes raw) = Ok data ->
      data <> EmptyString /\
      round_trips
        (shareDataLiteral index (VNumber (of_nat th)) totalShares data)) ->
  0 < th ->
  exists shares,
    trace run
    = [Split (utf8 (join " " ws)) totalShares (VNumber (of_nat th));
       Store shares (VNumber (of_nat th));
       DisplayShares;
       Show SharesGenerated] /\
    List.length shares = List.length rawShares /\
    NoDup shares /\
    forall chosen,
      NoDup chosen ->
      incl chosen shares ->
      th <= List.length chosen ->
      validateShareCollection (map VString chosen)
      = Ok {| isValid := true;
              validCount := List.length chosen;
              threshold := VNumber (of_nat th);
              errors := [];
              shareIndices := indices (map resolved (map VString chosen)) |}.
Proof.
  intros run Htrue Hsplit Hround Hth.
  (* the shares stored are the encodings of the raw shares *)
  assert (exists shares,
             mapiM (Generation.encodeShare (VNumber (of_nat th)) totalShares)
               0 rawShares = Ok shares /\
             trace run
             = [Split (utf8 (join " " ws)) totalShares (VNumber (of_nat th));
                Store shares (VNumber (of_nat th));
                DisplayShares;
                Show SharesGenerated]) as (shares & Hmap & Htrace).
  { subst run. unfold trace, result_of in *.
    destruct (generateShares_strings split encryptionValidation id ws
                totalShares (VNumber (of_nat th))) as (D & _ & _ & Hrun).
    rewrite Hrun in Htrue |- *. clear Hrun. cbv zeta in Htrue |- *.
    rewrite Hsplit in Htrue |- *.
    destruct (existsb blank ws); [discriminate Htrue |].
    destruct D; [| discriminate Htrue].
    destruct encryptionValidation as [[| error] | e];
      try discriminate Htrue.
    destruct (mapiM _ 0 rawShares) as [currentShares | e];
      [| discriminate Htrue].
    exists currentShares. now split. }
  (* each of them is a valid share with the index of its position *)
  assert (forall i s,
            nth_error shares i = Some s ->
            is_valid_share (resolved (VString s)) = true /\
            field (resolved (VString s)) "index" = VNumber (of_nat (i + 1)) /\
            field (resolved (VString s)) "threshold" = VNumber (of_nat th))
    as Hshare.
  { intros i s Hi.
    destruct (mapiM_nth _ _ _ _ Hmap i s Hi) as (raw & Hraw & Henc).
    unfold Generation.encodeShare in Henc.
    destruct (btoa (fromCharCodes raw)) as [data |] eqn:Hdata;
      cbn [bind] in Henc; [| discriminate Henc].
    destruct (Hround i raw data Hraw Hdata) as [Hne Hrt].
    destruct (Hrt s Henc) as (Hs & id' & Hdec).
    assert (hasRequiredFields
              (with_identity id'
                 (shareDataLiteral i (VNumber (of_nat th)) totalShares data))
            = Ok true) as Hfields.
    { unfold hasRequiredFields.
      rewrite get_literal_threshold, get_literal_index, get_literal_data.
      cbn [bind].
      rewrite (truthy_of_nat th Hth).
      rewrite (truthy_of_nat (i + 1)) by lia.
      destruct data; [now elim Hne | reflexivity]. }
    rewrite (resolved_of_decoded s _ Hs Hdec Hfields).
    unfold field.
    rewrite get_literal_threshold, get_literal_index.
    split; [| now split].
    now apply hasRequiredFields_valid in Hfields. }
  assert (forall i j a,
            nth_error shares i = Some a -> nth_error shares j = Some a ->
            i = j) as Hposition.
  { intros i j a Hi Hj.
    destruct (Hshare i a Hi) as (_ & Hia & _).
    destruct (Hshare j a Hj) as (_ & Hja & _).
    rewrite Hia in Hja. injection Hja as Hij.
    apply Nat2Z.inj in Hij. lia. }
  exists shares. split; [exact Htrace |].
  split; [exact (mapiM_length _ _ _ _ Hmap) |]. split.
  { apply NoDup_nth_error. intros i j Hi Hij.
    destruct (nth_error shares i) as [a |] eqn:Ha.
    - now apply (Hposition i j a).
    - apply nth_error_None in Ha. lia. }
  intros chosen Hnodup Hincl Hle.
  assert (chosen <> []) as Hsome
    by (destruct chosen; [simpl in Hle; lia | discriminate]).
  assert (Forall (fun v => is_valid_share (resolved v) = true)
            (map VString chosen)) as Hall.
  { apply Forall_forall. intros v Hv.
    apply in_map_iff in Hv as (s & <- & Hs).
    destruct (In_nth_error _ _ (Hincl s Hs)) as [i Hi].
    now destruct (Hshare i s Hi) as (Hv & _). }
  rewrite <- (length_map VString chosen).
  apply validateShareCollection_clean.
  - destruct chosen; [now elim Hsome | discriminate].
  - exact Hall.
  - unfold indices. rewrite !map_map.
    apply all_distinct_map; [exact Hnodup |].
    intros a b Ha Hb Hsame.
    destruct (In_nth_error _ _ (Hincl a Ha)) as [i Hi].
    destruct (In_nth_error _ _ (Hincl b Hb)) as [j Hj].
    destruct (Hshare i a Hi) as (_ & Hia & _).
    destruct (Hshare j b Hj) as (_ & Hjb & _).
    rewrite Hia, Hjb in Hsame. apply of_nat_same in Hsame.
    assert (i = j) as -> by lia. congruence.
  - unfold expected_threshold. rewrite (validShares_all _ Hall).
    destruct chosen as [| s rest]; [now elim Hsome |].
    cbn [map].
    destruct (In_nth_error _ _ (Hincl s (or_introl eq_refl))) as [i Hi].
    now destruct (Hshare i s Hi) as (_ & _ & Ht).
  - now rewrite length_map.
Qed.

End RoundTrip.

Lemma generated_shares_validate_witness :
  exists shares,
    trace (Generation.generateShares (P := Reference.platform)
             (E := ReferenceEncoder.encoder) sample_split (Ok SettingsValid)
             (VArray 1 (map VString sample_words)) (VNumber (of_nat 3))
             (VNumber (of_nat 2)))
    = [Split (utf8 (join " " sample_words)) (VNumber (of_nat 3))
         (VNumber (of_nat 2));
       Store shares (VNumber (of_nat 2));
       DisplayShares;
       Show SharesGenerated] /\
    List.length shares = List.length sample_rawShares /\
    NoDup shares /\
    forall chosen,
      NoDup chosen ->
      incl chosen shares ->
      2 <= List.length chosen ->
      validateShareCollection (P := Reference.platform) (map VString chosen)
      = Ok {| isValid := true;
              validCount := List.length chosen;
              threshold := VNumber (of_nat 2);
              errors := [];
              shareIndices :=
                indices (map (resolved (P := Reference.platform))
                           (map VString chosen)) |}.
Proof.
  apply (generated_shares_validate (P := Reference.platform)
           (E := ReferenceEncoder.encoder) sample_split (Ok SettingsValid)
           1%positive sample_words (VNumber (of_nat 3)) 2 sample_rawShares).
  - reflexivity.
  - reflexivity.
  - intros index raw data Hraw Hdata.
    destruct index as [| [| [| index]]]; simpl in Hraw;
      try (destruct index; discriminate Hraw);
      injection Hraw as <-; vm_compute in Hdata; injection Hdata as <-;
      (split; [discriminate |]);
      intros s Hs; vm_compute in Hs; injection Hs as <-;
      (split; [discriminate | exists 2%positive; vm_compute; reflexivity]).
  - lia.
Defined.

(** ** main.js: generation *)

Section MainFacts.
Context {P : Platform} {E : Encoder}.
Variable BIP39_WORDLIST : list value.
Variable split : list Byte.byte -> value -> value -> result (list (list Byte.byte)).
Variable encryptionValidation : result settings.

(** [generateShares] returns on an array of strings. *)
Lemma generateShares_strings_returns (id : positive) (ws : list string)
  (totalShares threshold : value) :
  exists b,
    result_of (Generation.generateShares split encryptionValidation
                 (VArray id (map VString ws)) totalShares threshold) = Ok b.
Proof.
  unfold result_of.
  destruct (generateShares_strings split encryptionValidation id ws
              totalShares threshold) as (D & _ & _ & ->).
  destruct (existsb blank ws); [now eexists |].
  destruct D; [| now eexists].
  destruct encryptionValidation as [[| error] | e]; try now eexists.
  cbv zeta.
  destruct (split _ totalShares threshold) as [rawShares | e];
    [| now eexists].
  destruct (mapiM _ 0 rawShares); now eexists.
Qed.

(** X23: [handleGenerateShares] returns, and hands the words to
    [generateShares] only when every field of the page holds a word of the
    list; the words are then the trimmed values of the fields, in order,
    what is done is what [generateShares] does with them, and the page is
    scrolled to the result exactly when [generateShares] returns [true].
    Otherwise [generateShares] is not called: when the first field that is
    blank or holds no word of the list is blank, the fill-all-words error is
    shown, and when it is not, the invalid-word error is shown with the
    position of the field, which gets the focus. *)
Theorem handleGenerateShares_outcome (inputs : list (option string))
  (totalShares threshold : value) :
  let run := handleGenerateShares BIP39_WORDLIST split encryptionValidation
               inputs totalShares threshold in
  let generation :=
    Generation.generateShares split encryptionValidation
      (VArray literal_id (map VString (map trim (present inputs))))
      totalShares threshold in
  result_of run = Ok tt /\
  ((forall inputValue,
       In (Some inputValue) inputs ->
       known BIP39_WORDLIST inputValue = true) ->
   exists success,
     result_of generation = Ok success /\
     trace run
     = map Manager (trace generation)
       ++ (if success then [ScrollToResult] else [])) /\
  (forall before inputValue after,
      inputs = before ++ Some inputValue :: after ->
      (forall v, In (Some v) before -> known BIP39_WORDLIST v = true) ->
      known BIP39_WORDLIST inputValue = false ->
      trace run
      = if blank inputValue then [ShowFillAllWords]
        else [ShowInvalidWord (Some (S (List.length before)));
              FocusInvalidInput (Some (S (List.length before)))]).
Proof.
  intros run generation.
  destruct (validateAllInputs_first_bad_field BIP39_WORDLIST inputs)
    as [(Hall & Hrun) | (before & v & after & Hinputs & Hbefore & Hv & Hrun)].
  - destruct (generateShares_strings_returns literal_id
                (map trim (present inputs)) totalShares threshold)
      as [success Hsuccess].
    fold generation in Hsuccess.
    assert (run [] = (map Manager (trace generation)
                      ++ (if success then [ScrollToResult] else []), Ok tt))
      as Heq.
    { subst run. unfold handleGenerateShares, lbind, llift, within.
      rewrite Hrun. cbn [MnemonicInput.isValid MnemonicInput.words negb].
      fold generation. unfold result_of in Hsuccess. unfold trace.
      destruct (generation []) as [log r]. cbn [fst snd] in Hsuccess |- *.
      subst r. destruct success; unfold emit, lret; cbn [app];
        [reflexivity | now rewrite app_nil_r]. }
    unfold result_of, trace at 1. rewrite Heq. cbn [fst snd].
    split; [reflexivity |]. split.
    + intros _. exists success. now split.
    + intros before v after -> Hbefore Hv.
      rewrite (Hall v) in Hv; [discriminate Hv |].
      apply in_or_app. right. now left.
  - assert (run [] = (if blank v then [ShowFillAllWords]
                      else [ShowInvalidWord (Some (S (List.length before)));
                            FocusInvalidInput (Some (S (List.length before)))],
                      Ok tt)) as Heq.
    { subst run. unfold handleGenerateShares, lbind, llift.
      rewrite Hrun.
      cbn [MnemonicInput.isValid MnemonicInput.hasEmpty
             MnemonicInput.hasInvalidWord MnemonicInput.invalidWordIndex negb].
      now destruct (blank v). }
    unfold result_of, trace. rewrite Heq. cbn [fst snd].
    split; [reflexivity |]. split.
    + intros H. rewrite (H v) in Hv; [discriminate Hv |].
      rewrite Hinputs. apply in_or_app. right. now left.
    + intros before' v' after' Hinputs' Hbefore' Hv'.
      destruct (first_bad_field_unique BIP39_WORDLIST inputs before v after
                  before' v' after') as (-> & -> & _); try assumption.
      reflexivity.
Qed.

End MainFacts.

